(** * searchmusicbot: the scraping client, the page parser and the keyboards

    A shallow embedding of [music_service.py], [keyboards.py] and the
    handlers of [handlers.py], followed by the properties of the
    specification that were checked against it and by further properties
    of the code.

    Python values are modelled as follows.
    - A [str] is the list of its code points ([pystr]).  The character
      classes of the interpreter are written out on the ASCII range; what
      the interpreter's Unicode database says beyond it is a parameter
      ([Unicode]).
    - An exception is a constructor of [exn]; a call that may raise returns
      a [result].
    - Network traffic goes through a [world]: a server that answers the
      n-th request, and the trace of what the client did. *)

From Stdlib Require Import ZArith NArith List Lia Bool Ascii String.
From Stdlib Require Import Decimal DecimalPos DecimalZ.
From stdpp Require Import base option list gmap.

Set Default Proof Using "Type".
Set Warnings "-register-all".
Local Open Scope N_scope.

(** ** Python strings *)

Abbreviation pystr := (list N).

(** A Rocq string literal read as a Python [str] (one code point per byte). *)
Definition pys (s : string) : pystr := map N_of_ascii (list_ascii_of_string s).

(** What the interpreter's Unicode database and codecs say outside ASCII. *)
Record Unicode := {
  (** [Py_UNICODE_ISALNUM] on a code point above 127. *)
  uni_isalnum : N -> bool;
  (** [Py_UNICODE_ISSPACE] on a code point above 127. *)
  uni_isspace : N -> bool;
  (** The full lower-case mapping of the non-ASCII character at position
      [i] of [s] (it may be several code points, and the capital sigma
      looks at its neighbours). *)
  uni_lower : pystr -> nat -> pystr;
  (** [Py_UNICODE_TODECIMAL] on a code point above 126; [None] for -1. *)
  uni_todecimal : N -> option N;
  (** [Py_UNICODE_ISPRINTABLE] on a code point above 127. *)
  uni_isprintable : N -> bool;
  (** [encodings.idna.ToASCII] on one label (nameprep, then punycode);
      [None] when it raises [UnicodeError]. *)
  ToASCII : pystr -> option pystr
}.

Module Ch.
Definition SPACE : N := 32.
Definition HYPHEN : N := 45.
Definition DOT : N := 46.
Definition COLON : N := 58.
Definition UNDERSCORE : N := 95.

Definition is_ascii (c : N) : bool := c <? 128.
Definition is_digit (c : N) : bool := (48 <=? c) && (c <=? 57).
Definition is_upper (c : N) : bool := (65 <=? c) && (c <=? 90).
Definition is_lower (c : N) : bool := (97 <=? c) && (c <=? 122).

(** [_Py_ascii_whitespace]: TAB LF VT FF CR, FS GS RS US, SPACE. *)
Definition ascii_isspace (c : N) : bool :=
  ((9 <=? c) && (c <=? 13)) || ((28 <=? c) && (c <=? 32)).
Definition ascii_isalnum (c : N) : bool :=
  is_digit c || is_upper c || is_lower c.
Definition ascii_lower (c : N) : N := if is_upper c then c + 32 else c.

Section WithUnicode.
Variable U : Unicode.

(** [str.isspace] on one character; also [\s] of a [str] pattern. *)
Definition isspace (c : N) : bool :=
  if is_ascii c then ascii_isspace c else uni_isspace U c.
Definition isalnum (c : N) : bool :=
  if is_ascii c then ascii_isalnum c else uni_isalnum U c.
(** [\w] of a [str] pattern: alphanumeric or the underscore. *)
Definition isword (c : N) : bool := isalnum c || (c =? UNDERSCORE).
End WithUnicode.
End Ch.

(** ** Exceptions and results *)

Inductive exn :=
| MusicServiceError (msg : pystr)
| ClientError (msg : pystr)      (* aiohttp.ClientError and its subclasses *)
| TimeoutError (msg : pystr)
| TypeError (msg : pystr)
| ValueError (msg : pystr)
| KeyError (key : pystr)
| IndexError (msg : pystr)
| UnicodeError
| RetryError (last_attempt : exn). (* tenacity.RetryError *)

Inductive result (A : Type) :=
| Ok (a : A)
| Err (e : exn).
Arguments Ok {A} a.
Arguments Err {A} e.

Definition rbind {A B} (r : result A) (k : A -> result B) : result B :=
  match r with
  | Ok a => k a
  | Err e => Err e
  end.

Global Instance result_ret : MRet result := fun _ a => Ok a.
Global Instance result_bind : MBind result := fun _ _ k r => rbind r k.
Global Instance result_fmap : FMap result := fun _ _ f r => rbind r (fun a => Ok (f a)).

(** The list comprehension [[f(i, x) for i, x in enumerate(l)]] with a body
    that may raise: left to right, the first exception aborts the whole
    list. [i] is the index of the head. *)
Fixpoint comprehension_enumerate {A B} (f : A -> Z -> result B)
    (i : Z) (l : list A) : result (list B) :=
  match l with
  | [] => Ok []
  | x :: rest =>
      y ← f x i;
      ys ← comprehension_enumerate f (i + 1)%Z rest;
      Ok (y :: ys)
  end.

(** ** String methods *)

Module Str.
Fixpoint lstrip (p : N -> bool) (s : pystr) : pystr :=
  match s with
  | c :: rest => if p c then lstrip p rest else s
  | [] => []
  end.
Definition rstrip (p : N -> bool) (s : pystr) : pystr :=
  rev (lstrip p (rev s)).

(** [s.replace(old, new)] for one-character [old] and [new]. *)
Definition replace (old new : N) (s : pystr) : pystr :=
  map (fun c => if c =? old then new else c) s.

(** [s.split(sep)] for a separator chosen by [is_sep], one character
    wide: the pieces between separators, empty pieces kept. *)
Fixpoint split (is_sep : N -> bool) (s : pystr) : list pystr :=
  match s with
  | [] => [[]]
  | c :: rest =>
      if is_sep c then [] :: split is_sep rest
      else match split is_sep rest with
           | piece :: pieces => (c :: piece) :: pieces
           | [] => [[c]]
           end
  end.

Definition is_ascii (s : pystr) : bool := forallb Ch.is_ascii s.

Definition QUOTATION_MARK : N := 34.
Definition APOSTROPHE : N := 39.
Definition BACKSLASH : N := 92.

(** The hexadecimal digit of a number below 16, in lower case, and the
    last [width] hexadecimal digits of a number. *)
Definition hexdigit (n : N) : N := if n <? 10 then 48 + n else 87 + n.
Fixpoint hex (width : nat) (n : N) : pystr :=
  match width with
  | O => []
  | S width' => hex width' (n / 16) ++ [hexdigit (n mod 16)]
  end.

(** [s.startswith(prefix)] *)
Fixpoint startswith (prefix s : pystr) : bool :=
  match prefix, s with
  | [], _ => true
  | p :: prefix', c :: s' => (p =? c) && startswith prefix' s'
  | _ :: _, [] => false
  end.

Section WithUnicode.
Variable U : Unicode.

(** [s.strip()] *)
Definition strip (s : pystr) : pystr :=
  rstrip (Ch.isspace U) (lstrip (Ch.isspace U) s).

(** [s.lower()]: character by character, left to right. *)
Fixpoint lower_from (whole : pystr) (i : nat) (s : pystr) : pystr :=
  match s with
  | [] => []
  | c :: rest =>
      (if Ch.is_ascii c then [Ch.ascii_lower c] else uni_lower U whole i)
        ++ lower_from whole (S i) rest
  end.
Definition lower (s : pystr) : pystr := lower_from s 0 s.

(** [re.sub(r"[^\w\s]", "", s)]: every character that is neither a
    word character nor whitespace is deleted. *)
Definition re_sub_not_word_not_space (s : pystr) : pystr :=
  List.filter (fun c => Ch.isword U c || Ch.isspace U c) s.

(** What [repr] writes for one character inside the quotes: the quote and
    the backslash are escaped, TAB, LF and CR get their letter, the other
    characters that are not printable their code in hexadecimal. *)
Definition repr_char (quote c : N) : pystr :=
  if (c =? quote) || (c =? BACKSLASH) then [BACKSLASH; c]
  else if c =? 9 then [BACKSLASH; 116]
  else if c =? 10 then [BACKSLASH; 110]
  else if c =? 13 then [BACKSLASH; 114]
  else if (c <? 32) || (c =? 127) then [BACKSLASH; 120] ++ hex 2 c
  else if c <? 127 then [c]
  else if uni_isprintable U c then [c]
  else if c <=? 255 then [BACKSLASH; 120] ++ hex 2 c
  else if c <=? 65535 then [BACKSLASH; 117] ++ hex 4 c
  else [BACKSLASH; 85] ++ hex 8 c.

(** [repr(s)]: in single quotes, unless [s] holds a single quote and no
    double quote. *)
Definition repr (s : pystr) : pystr :=
  let quote :=
    if existsb (N.eqb APOSTROPHE) s && negb (existsb (N.eqb QUOTATION_MARK) s)
    then QUOTATION_MARK else APOSTROPHE in
  quote :: concat (map (repr_char quote) s) ++ [quote].
End WithUnicode.
End Str.

(** ** Integers and strings *)

Module PyInt.
Fixpoint chars_of_uint (d : Decimal.uint) : pystr :=
  match d with
  | Nil => []
  | D0 d => 48 :: chars_of_uint d
  | D1 d => 49 :: chars_of_uint d
  | D2 d => 50 :: chars_of_uint d
  | D3 d => 51 :: chars_of_uint d
  | D4 d => 52 :: chars_of_uint d
  | D5 d => 53 :: chars_of_uint d
  | D6 d => 54 :: chars_of_uint d
  | D7 d => 55 :: chars_of_uint d
  | D8 d => 56 :: chars_of_uint d
  | D9 d => 57 :: chars_of_uint d
  end.

(** The interpreter's default limit on the number of digits of an integer
    string conversion ([sys.int_info.default_max_str_digits]), and the
    integers whose decimal form is within it. *)
Definition default_max_str_digits : Z := 4300.
Definition within_limit (z : Z) : bool := (Z.abs z <? 10 ^ default_max_str_digits)%Z.

(** [str(z)], which is also what [f"{z}"] inserts for an [int]: the decimal
    digits, after a minus sign when negative.  (The limit is not modelled:
    beyond it the interpreter raises [ValueError] where this gives the
    digits.  The integers the program prints are list positions,
    dictionary sizes and content lengths.) *)
Definition str (z : Z) : pystr :=
  match Z.to_int z with
  | Decimal.Pos d => chars_of_uint d
  | Decimal.Neg d => Ch.HYPHEN :: chars_of_uint d
  end.

(** [Py_ISSPACE] of the C locale: TAB LF VT FF CR and SPACE. *)
Definition c_isspace (c : N) : bool :=
  ((9 <=? c) && (c <=? 13)) || (c =? Ch.SPACE).

(** The digit loop of [long_from_non_binary_base]: digits and underscores
    are consumed, two underscores in a row are an error; returns the value
    read, the last character consumed (0 if none) and what is left. *)
Fixpoint scan_digits (s : pystr) (prev : N) (acc : N) : option (N * N * pystr) :=
  match s with
  | c :: rest =>
      if Ch.is_digit c then scan_digits rest c (10 * acc + (c - 48))
      else if c =? Ch.UNDERSCORE then
        if prev =? Ch.UNDERSCORE then None else scan_digits rest c acc
      else Some (acc, prev, s)
  | [] => Some (acc, prev, [])
  end.

(** The digits of [PyLong_FromString(s, 10)], after the sign: no leading
    underscore, at least one digit, no trailing underscore, and nothing but
    whitespace after them; [None] when the text is not of that form. *)
Definition digits_from_string (s : pystr) : option N :=
  if match s with c :: _ => c =? Ch.UNDERSCORE | [] => false end
  then None
  else
    match scan_digits s 0 0 with
    | None => None
    | Some (v, prev, rest) =>
        if (prev =? Ch.UNDERSCORE) || (prev =? 0) then None
        else match Str.lstrip c_isspace rest with
             | [] => Some v
             | _ :: _ => None
             end
    end.

(** [PyLong_FromString(s, 10)] on the ASCII form of the text: leading
    whitespace, an optional sign, the digits. *)
Definition long_from_string (s : pystr) : option Z :=
  match Str.lstrip c_isspace s with
  | c :: rest =>
      if c =? 43 then Z.of_N <$> digits_from_string rest
      else if c =? Ch.HYPHEN then (fun v => - Z.of_N v)%Z <$> digits_from_string rest
      else Z.of_N <$> digits_from_string (c :: rest)
  | [] => Z.of_N <$> digits_from_string []
  end.

Section WithUnicode.
Variable U : Unicode.

(** [_PyUnicode_TransformDecimalAndSpaceToASCII]: non-ASCII spaces become
    a space, non-ASCII decimal digits their ASCII digit; anything else
    becomes a question mark and ends the text. *)
Fixpoint transform_decimal_and_space (s : pystr) : pystr :=
  match s with
  | [] => []
  | c :: rest =>
      if c <? 127 then c :: transform_decimal_and_space rest
      else if Ch.isspace U c then Ch.SPACE :: transform_decimal_and_space rest
      else match uni_todecimal U c with
           | Some d => (48 + d) :: transform_decimal_and_space rest
           | None => [63]
           end
  end.

(** The [ValueError] of [PyLong_FromUnicodeObject] for the text [u]: the
    message ends with [repr(u)], cut after 200 characters. *)
Definition invalid_literal (u : pystr) : exn :=
  ValueError (pys "invalid literal for int() with base 10: " ++ take 200 (Str.repr U u)).

(** [int(s)] for a [str].  (The limit on the number of digits is not
    modelled here either: a text of more digits, which the interpreter
    refuses with [ValueError], is read.) *)
Definition of_str (s : pystr) : result Z :=
  match long_from_string (transform_decimal_and_space s) with
  | Some z => Ok z
  | None => Err (invalid_literal s)
  end.
End WithUnicode.
End PyInt.

(** ** The idna codec *)

Module Idna.
(** The label separators of [encodings.idna]: U+002E, U+3002, U+FF0E, U+FF61. *)
Definition is_dot (c : N) : bool :=
  (c =? 46) || (c =? 12290) || (c =? 65294) || (c =? 65377).

Section WithUnicode.
Variable U : Unicode.

(** The loop that joins the encoded labels: a dot goes in front of a label
    whenever something has been written already. *)
Fixpoint join_labels (written : pystr) (labels : list pystr) : result pystr :=
  match labels with
  | [] => Ok written
  | label :: rest =>
      match ToASCII U label with
      | None => Err UnicodeError
      | Some a =>
          join_labels ((if written is [] then [] else written ++ [Ch.DOT]) ++ a) rest
      end
  end.

(** [input.encode("idna")], the bytes written as code points below 256. *)
Definition encode (input : pystr) : result pystr :=
  match input with
  | [] => Ok []
  | _ =>
      if Str.is_ascii input then
        (* ASCII name: fast path *)
        let labels := Str.split (N.eqb Ch.DOT) input in
        if forallb (fun label => (0 <? length label)%nat && (length label <? 64)%nat)
             (removelast labels)
        then if (64 <=? length (List.last labels []))%nat
             then Err UnicodeError else Ok input
        else Err UnicodeError
      else
        let labels := Str.split is_dot input in
        let '(labels, trailing_dot) :=
          match List.last labels [0] with
          | [] => (removelast labels, [Ch.DOT])
          | _ => (labels, [])
          end in
        encoded ← join_labels [] labels;
        Ok (encoded ++ trailing_dot)
  end.

(** [b.decode("ascii")] *)
Definition decode_ascii (b : pystr) : result pystr :=
  if Str.is_ascii b then Ok b else Err UnicodeError.
End WithUnicode.
End Idna.

(** ** Python values held in mappings and fields *)

(** The values a [dict[str, Any]] of track fields may hold: [None], a
    [bool], an [int] or a [str]. *)
Inductive pyval :=
| PNone
| PBool (b : bool)
| PInt (z : Z)
| PStr (s : pystr).

Module Py.
(** [str(v)], which is what an f-string inserts for [{v}]. *)
Definition str (v : pyval) : pystr :=
  match v with
  | PNone => pys "None"
  | PBool true => pys "True"
  | PBool false => pys "False"
  | PInt z => PyInt.str z
  | PStr s => s
  end.

(** [d[key]] on a dict. *)
Definition getitem {V} (d : gmap pystr V) (key : pystr) : result V :=
  match d !! key with
  | Some v => Ok v
  | None => Err (KeyError key)
  end.

(** [l[i]] on a list: a negative index counts from the end. *)
Definition list_getitem {A} (l : list A) (i : Z) : result A :=
  let n := Z.of_nat (length l) in
  let j := if (i <? 0)%Z then (i + n)%Z else i in
  if ((j <? 0) || (n <=? j))%Z then Err (IndexError (pys "list index out of range"))
  else match l !! Z.to_nat j with
       | Some x => Ok x
       | None => Err (IndexError (pys "list index out of range"))
       end.

(** [enumerate(l)], counting from [i]. *)
Fixpoint enumerate_from {A} (i : Z) (l : list A) : list (Z * A) :=
  match l with
  | [] => []
  | x :: rest => (i, x) :: enumerate_from (i + 1)%Z rest
  end.
Definition enumerate {A} (l : list A) : list (Z * A) := enumerate_from 0%Z l.

Section WithUnicode.
Variable U : Unicode.

(** [int(v)] *)
Definition int (v : pyval) : result Z :=
  match v with
  | PInt z => Ok z
  | PBool b => Ok (if b then 1 else 0)%Z
  | PStr s => PyInt.of_str U s
  | PNone => Err (TypeError (pys "int() argument must be a string, a bytes-like object or a real number, not 'NoneType'"))
  end.
End WithUnicode.
End Py.

(** ** The parsed page *)

Module Bs4.
(** A node of the tree BeautifulSoup builds: a string, or a tag with its
    name, the values of its [class] attribute (a multi-valued attribute,
    kept as a list; empty when absent), its other attributes and its
    children.  The soup itself is a tag. *)
Inductive node :=
| NavigableString (s : pystr)
| Tag (name : pystr) (class_ : list pystr) (attrs : gmap pystr pystr) (contents : list node).

(** [element.descendants]: every node below, in document order. *)
Fixpoint descendants (n : node) : list node :=
  match n with
  | NavigableString _ => []
  | Tag _ _ _ contents =>
      (fix below (l : list node) : list node :=
         match l with
         | [] => []
         | child :: rest => child :: descendants child ++ below rest
         end) contents
  end.

(** [element.text]: the strings below, concatenated. *)
Fixpoint text (n : node) : pystr :=
  match n with
  | NavigableString s => s
  | Tag _ _ _ contents =>
      (fix below (l : list node) : pystr :=
         match l with
         | [] => []
         | child :: rest => text child ++ below rest
         end) contents
  end.

Fixpoint join_space (l : list pystr) : pystr :=
  match l with
  | [] => []
  | [x] => x
  | x :: rest => x ++ Ch.SPACE :: join_space rest
  end.

Definition pystr_eqb (a b : pystr) : bool := bool_decide (a = b).

(** A [class_=c] filter: one of the tag's classes is [c], or the whole
    attribute, joined by spaces, is. *)
Definition has_class (c : pystr) (n : node) : bool :=
  match n with
  | Tag _ class_ _ _ => existsb (pystr_eqb c) class_ || pystr_eqb (join_space class_) c
  | NavigableString _ => false
  end.
Definition has_name (nm : pystr) (n : node) : bool :=
  match n with
  | Tag name _ _ _ => pystr_eqb name nm
  | NavigableString _ => false
  end.

(** [element.find(...)]: the first descendant the filter accepts. *)
Definition find (accept : node -> bool) (element : node) : option node :=
  List.find accept (descendants element).
(** [element.find_all(...)] *)
Definition find_all (accept : node -> bool) (element : node) : list node :=
  List.filter accept (descendants element).

(** [tag.get(key, default)] *)
Definition get (n : node) (key : pystr) (otherwise : pystr) : pystr :=
  match n with
  | Tag _ _ attrs _ => default otherwise (attrs !! key)
  | NavigableString _ => otherwise
  end.
End Bs4.

(** ** music_service.py: [Track] *)

Record Track := {
  index : Z;
  name : pyval;
  title : pyval;
  performer : pyval;
  audio_url : pyval
}.

(** [vars(track)]: the mapping of a track's own fields. *)
Definition Track_fields (t : Track) : gmap pystr pyval :=
  <[pys "index" := PInt (index t)]>
  (<[pys "name" := name t]>
  (<[pys "title" := title t]>
  (<[pys "performer" := performer t]>
  (<[pys "audio_url" := audio_url t]> ∅)))).

Section Parser.
Variable U : Unicode.

(** [Track.from_dict] *)
Definition from_dict (data : gmap pystr pyval) : result Track :=
  i ← Py.getitem data (pys "index");
  index_ ← Py.int U i;
  name_ ← Py.getitem data (pys "name");
  title_ ← Py.getitem data (pys "title");
  performer_ ← Py.getitem data (pys "performer");
  audio_url_ ← Py.getitem data (pys "audio_url");
  Ok {| index := index_; name := name_; title := title_;
        performer := performer_; audio_url := audio_url_ |}.

(** [Track.from_element] *)
Definition from_element (element : Bs4.node) (index_ : Z) : result Track :=
  let artist_name_element := Bs4.find (Bs4.has_class (pys "playlist-name-artist")) element in
  let track_name_element := Bs4.find (Bs4.has_class (pys "playlist-name-title")) element in
  match artist_name_element, track_name_element with
  | Some artist_name_element, Some track_name_element =>
      let performer_ := Str.strip U (Bs4.text artist_name_element) in
      let title_ := Str.strip U (Bs4.text track_name_element) in
      let full_name := performer_ ++ pys " - " ++ title_ in
      match Bs4.find (Bs4.has_class (pys "playlist-play")) element with
      | Some (Bs4.Tag _ _ _ _ as play) =>
          Ok {| index := index_;
                name := PStr full_name;
                title := PStr title_;
                performer := PStr performer_;
                audio_url := PStr (Bs4.get play (pys "data-url") []) |}
      | _ => Err (TypeError (pys "Could not find audio URL element"))
      end
  | _, _ => Err (ValueError (pys "Could not find artist name element"))
  end.

(** The parsing lines of [Music._parse_tracks], from the soup to the list
    of tracks. *)
Definition parse_playlist (soup : Bs4.node) : result (list Track) :=
  let playlist :=
    Bs4.find (fun n => Bs4.has_name (pys "ul") n && Bs4.has_class (pys "playlist") n) soup in
  match playlist with
  | Some (Bs4.Tag _ _ _ _ as playlist) =>
      comprehension_enumerate from_element 0%Z
        (Bs4.find_all (Bs4.has_name (pys "li")) playlist)
  | _ => Err (TypeError (pys "Could not find playlist element"))
  end.

(** [Music.build_search_query]; [BASE_URL] is the class constant. *)
Definition BASE_URL : pystr := pys "vuxo7.com".

Definition slug (keyword : pystr) : pystr :=
  let cleaned := Str.re_sub_not_word_not_space U keyword in
  Str.replace Ch.SPACE Ch.HYPHEN (Str.lower U (Str.strip U cleaned)).

Definition build_search_query (keyword : pystr) : result pystr :=
  let query := slug keyword in
  subdomain ←
    match Idna.encode U query ≫= Idna.decode_ascii with
    | Ok subdomain => Ok subdomain
    | Err UnicodeError => Ok query
    | Err e => Err e
    end;
  Ok (pys "https://" ++ subdomain ++ pys "." ++ BASE_URL).
End Parser.

(** ** The network *)

(** What a response offers: its status, the size its headers advertise
    ([response.content_length], [None] when there is no such header), the
    text of the error [raise_for_status] builds for it, and what reading
    its body gives ([response.text()] or [response.read()]). *)
Record response := {
  status : Z;
  content_length : option Z;
  status_error : pystr;
  body : result pystr
}.

Inductive get_outcome :=
| Refused (e : exn)          (* [session.get] raises: no connection, timeout *)
| Responded (r : response).

(** What the client did to the outside world. *)
Inductive event :=
| EvGet (url : pyval) (timeout : Z)
| EvRead
| EvSleep (seconds : Z)
| EvOpenSession
| EvCloseSession.

(** The server answers the n-th request for a URL; [requests] counts the
    requests made so far and [trace] records every event. *)
Record world := {
  net : nat -> pyval -> get_outcome;
  requests : nat;
  trace : list event
}.

Definition io (A : Type) : Type := world -> result A * world.

Definition io_ret {A} (a : A) : io A := fun w => (Ok a, w).
Definition io_raise {A} (e : exn) : io A := fun w => (Err e, w).
Definition io_bind {A B} (m : io A) (k : A -> io B) : io B :=
  fun w =>
    match m w with
    | (Ok a, w') => k a w'
    | (Err e, w') => (Err e, w')
    end.
Definition io_lift {A} (r : result A) : io A := fun w => (r, w).

Notation "'do' x <- m ; k" := (io_bind m (fun x => k))
  (at level 10, x name, m at level 100, k at level 200).

Definition emit (e : event) : io unit :=
  fun w => (Ok tt, {| net := net w; requests := requests w; trace := trace w ++ [e] |}).

(** [session.get(url, timeout=...)] and the entry of its [async with]. *)
Definition session_get (url : pyval) (timeout : Z) : io response :=
  fun w =>
    let w' := {| net := net w; requests := S (requests w);
                 trace := trace w ++ [EvGet url timeout] |} in
    match net w (requests w) url with
    | Refused e => (Err e, w')
    | Responded r => (Ok r, w')
    end.

(** [response.raise_for_status()]: a status of 400 or more raises
    [ClientResponseError], a [ClientError]. *)
Definition raise_for_status (r : response) : io unit :=
  if (400 <=? status r)%Z then io_raise (ClientError (status_error r)) else io_ret tt.

(** [await response.text()], [await response.read()] *)
Definition read_body (r : response) : io pystr :=
  do _ <- emit EvRead; io_lift (body r).

(** [try: m except (aiohttp.ClientError, TimeoutError) as e: raise h(e)] *)
Definition except_client_or_timeout {A} (m : io A) (handler : pystr -> exn) : io A :=
  fun w =>
    match m w with
    | (Err (ClientError msg), w') => (Err (handler msg), w')
    | (Err (TimeoutError msg), w') => (Err (handler msg), w')
    | other => other
    end.

(** ** tenacity *)

Module Tenacity.
(** [wait_exponential(multiplier, min, max)] after attempt [attempt_number]. *)
Definition wait_exponential (multiplier min max : Z) (attempt_number : nat) : Z :=
  let exp := (2 ^ (Z.of_nat attempt_number - 1))%Z in
  let result := (multiplier * exp)%Z in
  Z.max (Z.max 0 min) (Z.min result max).

(** The retry loop with [stop_after_attempt]: [fn] is called; a result is
    returned; an exception, whatever its class (no [retry=] argument is
    given), is retried after the wait, unless this was the last attempt, in
    which case [RetryError] is raised around it (the decorator is used
    without [reraise=True]).  [remaining] is the number of attempts left
    after this one. *)
Fixpoint attempts {A} (wait : nat -> Z) (fn : io A)
    (remaining attempt_number : nat) : io A :=
  fun w =>
    match fn w with
    | (Ok a, w') => (Ok a, w')
    | (Err e, w') =>
        match remaining with
        | O => (Err (RetryError e), w')
        | S remaining' =>
            (do _ <- emit (EvSleep (wait attempt_number));
             attempts wait fn remaining' (S attempt_number)) w'
        end
    end.

(** [@retry(stop=stop_after_attempt(n), wait=wait)] *)
Definition retry {A} (max_attempt_number : nat) (wait : nat -> Z) (fn : io A) : io A :=
  attempts wait fn (max_attempt_number - 1) 1.
End Tenacity.

(** ** music_service.py: [Music] *)

Record ServiceConfig := {
  timeout : Z;
  headers : gmap pystr pystr
}.

(** [aiohttp.ClientSession(headers=...)] *)
Record ClientSession := {
  session_headers : gmap pystr pystr
}.

Record Music := {
  _config : ServiceConfig;
  _session : option ClientSession
}.

Section Client.
Variable U : Unicode.
(** [BeautifulSoup(text, "html.parser")] *)
Variable html_parser : pystr -> Bs4.node.
(** The content of [headers.json]. *)
Variable DEFAULT_HEADERS : gmap pystr pystr.

Definition ServiceConfig_default : ServiceConfig :=
  {| timeout := 30; headers := DEFAULT_HEADERS |}.

(** [Music.__init__] *)
Definition Music_init (config : option ServiceConfig) : Music :=
  {| _config := default ServiceConfig_default config; _session := None |}.

(** [Music.connect]; the client after the call is returned. *)
Definition connect (self : Music) : io Music :=
  match _session self with
  | None =>
      do _ <- emit EvOpenSession;
      io_ret {| _config := _config self;
                _session := Some {| session_headers := headers (_config self) |} |}
  | Some _ => io_ret self
  end.

(** [Music.disconnect] *)
Definition disconnect (self : Music) : io Music :=
  match _session self with
  | Some _ =>
      do _ <- emit EvCloseSession;
      io_ret {| _config := _config self; _session := None |}
  | None => io_ret self
  end.

Definition session_missing : exn :=
  MusicServiceError (pys "Failed to initialize session").

(** The body of [Music._parse_tracks], under the decorator. *)
Definition _parse_tracks_wrapped (self : Music) (url : pystr) : io (list Track) :=
  except_client_or_timeout
    (match _session self with
     | None => io_raise session_missing
     | Some _ =>
         do response <- session_get (PStr url) (timeout (_config self));
         do _ <- raise_for_status response;
         do text <- read_body response;
         let soup := html_parser text in
         io_lift (parse_playlist U soup)
     end)
    (fun e => MusicServiceError (pys "Failed to search music: " ++ e)).

Definition retry_policy {A} (fn : io A) : io A :=
  Tenacity.retry 3 (Tenacity.wait_exponential 1 1 5) fn.

(** [Music._parse_tracks] *)
Definition _parse_tracks (self : Music) (url : pystr) : io (list Track) :=
  retry_policy (_parse_tracks_wrapped self url).

(** [Music.search] *)
Definition search (self : Music) (keyword : pystr) : io (list Track) :=
  match _session self with
  | None => io_raise session_missing
  | Some _ =>
      do url <- io_lift (build_search_query U keyword);
      _parse_tracks self url
  end.

(** [Music.get_top_hits] *)
Definition get_top_hits (self : Music) : io (list Track) :=
  _parse_tracks self (pys "https://" ++ BASE_URL).

Definition max_size : Z := 50 * 1024 * 1024.

(** The body of [Music.get_audio_bytes], under the decorator. *)
Definition get_audio_bytes_wrapped (self : Music) (track : Track) : io pystr :=
  match _session self with
  | None => io_raise session_missing
  | Some _ =>
      except_client_or_timeout
        (do response <- session_get (audio_url track) (timeout (_config self));
         do _ <- raise_for_status response;
         match content_length response with
         | Some n =>
             if negb (n =? 0)%Z && (max_size <? n)%Z
             then io_raise (MusicServiceError
                    (pys "File too large: " ++ PyInt.str n ++ pys " bytes"))
             else read_body response
         | None => read_body response
         end)
        (fun _ => MusicServiceError (pys "Failed to download audio"))
  end.

(** [Music.get_audio_bytes] *)
Definition get_audio_bytes (self : Music) (track : Track) : io pystr :=
  retry_policy (get_audio_bytes_wrapped self track).
End Client.

(** ** keyboards.py *)

Record InlineKeyboardButton := {
  text : pystr;
  callback_data : pystr
}.

Record InlineKeyboardMarkup := {
  inline_keyboard : list (list InlineKeyboardButton)
}.

(** [l[:n]] for a non-negative [n]. *)
Definition slice_to {A} (n : nat) (l : list A) : list A := take n l.

(** [get_search_results_keyboard] *)
Definition get_search_results_keyboard (tracks : list Track) (search_id : Z)
    : InlineKeyboardMarkup :=
  let buttons :=
    map (fun '(i, track) =>
           [ {| text := PyInt.str (i + 1) ++ pys ". " ++ Py.str (performer track)
                          ++ pys " - " ++ Py.str (title track);
                callback_data := pys "track:get:" ++ PyInt.str search_id
                                   ++ pys ":" ++ PyInt.str i |} ])
        (Py.enumerate (slice_to 10 tracks)) in
  {| inline_keyboard := buttons |}.

(** ** handlers.py *)

(** What the callback handler ends up telling the transport. *)
Inductive callback_outcome :=
| AnswerOutdated            (* the search is no longer in the history *)
| SendTrack (track : Track) (* "downloading" is answered, [send_track] runs *)
| Nothing                   (* an action other than [get] *)
| AnswerError (e : exn).    (* the [except Exception] branch *)

Section Handlers.
Variable U : Unicode.

(** The lines of [search_handler] and [top_hits_handler] that file a result
    set in [search_history] and build its keyboard. *)
Definition save_results (search_history : gmap Z (list Track)) (tracks : list Track)
    : gmap Z (list Track) * InlineKeyboardMarkup :=
  let search_id := Z.of_nat (size search_history) in
  (<[search_id := tracks]> search_history,
   get_search_results_keyboard tracks search_id).

(** The filter under which the router calls [track_callback_handler]:
    [F.data.startswith("track:")]. *)
Definition track_callback_filter (callback_data : pystr) : bool :=
  Str.startswith (pys "track:") callback_data.

(** [track_callback_handler], up to the call of [send_track]. *)
Definition track_callback_handler (search_history : gmap Z (list Track))
    (callback_data : pystr) : callback_outcome :=
  let data := Str.split (N.eqb Ch.COLON) callback_data in
  let run : result callback_outcome :=
    action ← Py.list_getitem data 1;
    d2 ← Py.list_getitem data 2;
    search_id ← PyInt.of_str U d2;
    match search_history !! search_id with
    | None => Ok AnswerOutdated
    | Some tracks =>
        if bool_decide (action = pys "get") then
          d3 ← Py.list_getitem data 3;
          track_index ← PyInt.of_str U d3;
          track ← Py.list_getitem tracks track_index;
          Ok (SendTrack track)
        else Ok Nothing
    end in
  match run with
  | Ok outcome => outcome
  | Err e => AnswerError e
  end.
End Handlers.

(** ** The parser's failures *)

(** The specification's [ParseError]: the built-in exceptions that the
    parsing code raises when the markup is not as expected. *)
Definition is_parse_error (e : exn) : bool :=
  match e with
  | TypeError _ | ValueError _ => true
  | _ => false
  end.

(** An item without a performer element, a title element or a play
    control. *)
Definition lacks_required (item : Bs4.node) : Prop :=
  Bs4.find (Bs4.has_class (pys "playlist-name-artist")) item = None
  \/ Bs4.find (Bs4.has_class (pys "playlist-name-title")) item = None
  \/ Bs4.find (Bs4.has_class (pys "playlist-play")) item = None.

(** ** A concrete setting for examples *)

(** A Unicode database that knows nothing beyond ASCII: no non-ASCII
    character is alphanumeric, a space, a digit or printable, lower-casing
    leaves non-ASCII characters alone, and no label has an ASCII form. *)
Definition ascii_only : Unicode := {|
  uni_isalnum := fun _ => false;
  uni_isspace := fun _ => false;
  uni_lower := fun s i => match s !! i with Some c => [c] | None => [] end;
  uni_todecimal := fun _ => None;
  uni_isprintable := fun _ => false;
  ToASCII := fun _ => None
|}.

(** ** The slug as the specification words it *)

(** Every run of whitespace becomes one hyphen; [in_run] tells that the
    previous character was whitespace. *)
Fixpoint hyphenate_runs (isspace : N -> bool) (in_run : bool) (s : pystr) : pystr :=
  match s with
  | [] => []
  | c :: rest =>
      if isspace c then
        if in_run then hyphenate_runs isspace true rest
        else Ch.HYPHEN :: hyphenate_runs isspace true rest
      else c :: hyphenate_runs isspace false rest
  end.

(** Strip what is neither a word character nor whitespace, trim,
    lower-case, and replace each internal whitespace run by a single
    hyphen. *)
Definition slug_spec (U : Unicode) (keyword : pystr) : pystr :=
  hyphenate_runs (Ch.isspace U) false
    (Str.lower U (Str.strip U (Str.re_sub_not_word_not_space U keyword))).

(** Every whitespace character of [s] is a U+0020 that no whitespace
    follows. *)
Fixpoint single_spaces (isspace : N -> bool) (s : pystr) : bool :=
  match s with
  | [] => true
  | c :: rest =>
      (if isspace c
       then (c =? Ch.SPACE) && negb (match rest with c' :: _ => isspace c' | [] => false end)
       else true)
      && single_spaces isspace rest
  end.

(** ** Keywords as words and what separates them *)

(** An ASCII word character: a letter, a digit or the underscore. *)
Definition word_char (c : N) : bool := Ch.ascii_isalnum c || (c =? Ch.UNDERSCORE).

(** A word: a text, not empty, of ASCII word characters. *)
Definition ascii_word (s : pystr) : bool :=
  negb (bool_decide (s = [])) && forallb word_char s.

(** What may stand between two words: spaces (U+0020), and characters that
    are neither word characters nor whitespace. *)
Definition spaces_and_punctuation (U : Unicode) (s : pystr) : bool :=
  forallb (fun c => (c =? Ch.SPACE) || negb (Ch.isword U c || Ch.isspace U c)) s.

(** The number of space characters (U+0020) of a text. *)
Definition spaces (s : pystr) : nat :=
  length (List.filter (fun c => c =? Ch.SPACE) s).

(** A text written as a first word and the words that follow it, each
    after what separates it from the word before. *)
Definition words_text (first : pystr) (rest : list (pystr * pystr)) : pystr :=
  first ++ concat (map (fun '(sep, word) => sep ++ word) rest).

(** Every separator is made of spaces and punctuation, every word is a
    word. *)
Definition separated_words (U : Unicode) (rest : list (pystr * pystr)) : Prop :=
  Forall (fun '(sep, word) => spaces_and_punctuation U sep = true /\ ascii_word word = true)
    rest.

(** The separators cut down to their spaces. *)
Definition only_spaces (rest : list (pystr * pystr)) : list (pystr * pystr) :=
  map (fun '(sep, word) => (repeat Ch.SPACE (spaces sep), word)) rest.

(** What lower-casing and the replacement of spaces make of one ASCII
    character. *)
Definition hyphenated (c : N) : N :=
  if Ch.ascii_lower c =? Ch.SPACE then Ch.HYPHEN else Ch.ascii_lower c.

(** Markup of the expected shape: a tag without attributes other than its
    classes, a playlist item, and a page around a list of items. *)
Definition tag (nm : string) (classes : list string) (contents : list Bs4.node) : Bs4.node :=
  Bs4.Tag (pys nm) (map pys classes) ∅ contents.

Definition play_control (url : string) : Bs4.node :=
  Bs4.Tag (pys "a") [pys "playlist-play"] {[ pys "data-url" := pys url ]} [].

Definition item (artist track_title url : string) : Bs4.node :=
  tag "li" []
    [ tag "b" ["playlist-name-artist"%string] [Bs4.NavigableString (pys artist)];
      tag "em" ["playlist-name-title"%string] [Bs4.NavigableString (pys track_title)];
      play_control url ].

Definition item_without_title (artist url : string) : Bs4.node :=
  tag "li" []
    [ tag "b" ["playlist-name-artist"%string] [Bs4.NavigableString (pys artist)];
      play_control url ].

Definition page (items : list Bs4.node) : Bs4.node :=
  tag "[document]" [] [ tag "ul" ["playlist"%string] items ].

Definition page_item1_malformed : Bs4.node :=
  page [ item "Daft Punk" "Around the World" "https://cdn.example/0.mp3";
         item_without_title "Air" "https://cdn.example/1.mp3";
         item "Justice" "Genesis" "https://cdn.example/2.mp3" ].

Definition page_two_items : Bs4.node :=
  page [ item " Daft Punk " "Around the World" "https://cdn.example/0.mp3";
         item "Justice" "Genesis" "https://cdn.example/2.mp3" ].

(** An item whose performer element is empty and whose title is blank. *)
Definition item_blank : Bs4.node :=
  tag "li" []
    [ tag "b" ["playlist-name-artist"%string] [];
      tag "em" ["playlist-name-title"%string] [Bs4.NavigableString (pys "  ")];
      play_control "https://cdn.example/3.mp3" ].

(** A client with an open session, a server that refuses every connection,
    a server that gives every request the same response, and a parser that
    reads every page as the two-item page. *)
Definition connected : Music :=
  {| _config := {| timeout := 30; headers := ∅ |};
     _session := Some {| session_headers := ∅ |} |}.

Definition refusing : world :=
  {| net := fun _ _ => Refused (ClientError (pys "Cannot connect to host"));
     requests := 0; trace := [] |}.

Definition serving (r : response) : world :=
  {| net := fun _ _ => Responded r; requests := 0; trace := [] |}.

Definition reads_two_items : pystr -> Bs4.node := fun _ => page_two_items.

Definition ok_page : response :=
  {| status := 200; content_length := None; status_error := []; body := Ok [] |}.

Definition audio (advertised : option Z) : response :=
  {| status := 200; content_length := advertised; status_error := [];
     body := Ok (pys "ID3 audio") |}.

Definition sample_track : Track :=
  {| index := 0;
     name := PStr (pys "Daft Punk - Around the World");
     title := PStr (pys "Around the World");
     performer := PStr (pys "Daft Punk");
     audio_url := PStr (pys "https://cdn.example/0.mp3") |}.

(** ** Reading a printed integer back *)

(** The number a digit loop reads from the digits of [d], starting from
    [acc]. *)
Fixpoint uint_value (d : Decimal.uint) (acc : N) : N :=
  match d with
  | Nil => acc
  | D0 d => uint_value d (10 * acc + 0)
  | D1 d => uint_value d (10 * acc + 1)
  | D2 d => uint_value d (10 * acc + 2)
  | D3 d => uint_value d (10 * acc + 3)
  | D4 d => uint_value d (10 * acc + 4)
  | D5 d => uint_value d (10 * acc + 5)
  | D6 d => uint_value d (10 * acc + 6)
  | D7 d => uint_value d (10 * acc + 7)
  | D8 d => uint_value d (10 * acc + 8)
  | D9 d => uint_value d (10 * acc + 9)
  end.


(** The characters of a printed integer: digits and the minus sign. *)
Definition plain (c : N) : bool := Ch.is_digit c || (c =? Ch.HYPHEN).

(** ** music_service.py: the scoped use of a client *)

(** [Music.__aenter__]: connects and hands the client to the block. *)
Definition __aenter__ (self : Music) : io Music := connect self.

(** [Music.__aexit__]: disconnects, and lets an exception of the block
    pass (it returns [None]). *)
Definition __aexit__ (self : Music) : io Music := disconnect self.

(** [async with self as music: block].  The blocks of this program call
    [search], [get_top_hits] or [get_audio_bytes], which leave the client
    as it is, so a block is a computation over the connected client. *)
Definition async_with {A} (self : Music) (block : Music -> io A) : io A :=
  fun w =>
    match __aenter__ self w with
    | (Err e, w1) => (Err e, w1)
    | (Ok music, w1) =>
        match block music w1 with
        | (r, w2) =>
            match __aexit__ music w2 with
            | (Ok _, w3) => (r, w3)
            | (Err e, w3) => (Err e, w3)
            end
        end
    end.

(** The seconds slept in a trace. *)
Fixpoint slept (t : list event) : Z :=
  match t with
  | [] => 0
  | EvSleep s :: rest => s + slept rest
  | _ :: rest => slept rest
  end%Z.

(** The bodies read in a trace. *)
Fixpoint reads (t : list event) : nat :=
  match t with
  | [] => 0
  | EvRead :: rest => S (reads rest)
  | _ :: rest => reads rest
  end%nat.

(** A world after more events. *)
Definition after (w : world) (n : nat) (events : list event) : world :=
  {| net := net w; requests := (n + requests w)%nat; trace := trace w ++ events |}.

(** What one attempt of [self] at [url] does: the number of requests it
    makes and the events it leaves.  Without a session there is no request;
    with one there is the request, with the configured timeout, and, when
    it came to that, the reading of the body. *)
Inductive attempt_events (self : Music) (url : pyval) : nat -> list event -> Prop :=
| attempt_without_session :
    _session self = None -> attempt_events self url 0 []
| attempt_request :
    _session self <> None ->
    attempt_events self url 1 [EvGet url (timeout (_config self))]
| attempt_request_and_read :
    _session self <> None ->
    attempt_events self url 1 [EvGet url (timeout (_config self)); EvRead].

(** What an operation under the decorator does: one attempt, or two with
    a sleep of one second between them, or three with sleeps of one and
    two seconds. *)
Inductive retried_events (self : Music) (url : pyval) : nat -> list event -> Prop :=
| one_attempt n1 e1 :
    attempt_events self url n1 e1 -> retried_events self url n1 e1
| two_attempts n1 e1 n2 e2 :
    attempt_events self url n1 e1 -> attempt_events self url n2 e2 ->
    retried_events self url (n1 + n2) (e1 ++ EvSleep 1 :: e2)
| three_attempts n1 e1 n2 e2 n3 e3 :
    attempt_events self url n1 e1 -> attempt_events self url n2 e2 ->
    attempt_events self url n3 e3 ->
    retried_events self url (n1 + n2 + n3) (e1 ++ EvSleep 1 :: e2 ++ EvSleep 2 :: e3).

(** [w'] is [w] after an operation of [self] on [url] under the decorator,
    and nothing else: at most three requests, three seconds of sleep and
    one read per request, and no session opened or closed. *)
Definition bounded (self : Music) (url : pyval) (w w' : world) : Prop :=
  exists n events,
    w' = after w n events
    /\ retried_events self url n events
    /\ (n <= 3)%nat /\ (0 <= slept events <= 3)%Z /\ (reads events <= n)%nat
    /\ ~ In EvOpenSession events /\ ~ In EvCloseSession events.

(** The exceptions the [except] clauses of the client catch. *)
Definition is_network_error (e : exn) : bool :=
  match e with
  | ClientError _ | TimeoutError _ => true
  | _ => false
  end.

(** A server whose first two answers are timeouts and which then serves
    the same response to every request. *)
Definition flaky (r : response) : world :=
  {| net := fun n _ => if (n <? 2)%nat then Refused (TimeoutError (pys "timed out"))
                       else Responded r;
     requests := 0; trace := [] |}.

(** A response with an error status. *)
Definition not_found : response :=
  {| status := 404; content_length := None;
     status_error := pys "404, message='Not Found'"; body := Ok [] |}.

(** ** The fields [from_dict] reads *)

(** The keys read after ["index"], in the order of the constructor call. *)
Definition fields_after_index : list pystr :=
  [pys "name"; pys "title"; pys "performer"; pys "audio_url"].

(** The first of these keys that a mapping lacks. *)
Definition first_missing (data : gmap pystr pyval) : option pystr :=
  List.find (fun key => bool_decide (data !! key = None)) fields_after_index.

(** A well-formed item whose play control has no [data-url] attribute. *)
Definition item_without_url : Bs4.node :=
  tag "li" []
    [ tag "b" ["playlist-name-artist"%string] [Bs4.NavigableString (pys "Air")];
      tag "em" ["playlist-name-title"%string] [Bs4.NavigableString (pys "La femme d'argent")];
      tag "a" ["playlist-play"%string] [] ].

(** ** The characters of an ASCII slug *)

(** A lower-case letter, a digit, an underscore, a hyphen, or a whitespace
    character other than the space (a tab, a line break). *)
Definition slug_char (c : N) : bool :=
  Ch.is_lower c || Ch.is_digit c || (c =? Ch.UNDERSCORE) || (c =? Ch.HYPHEN)
  || (Ch.ascii_isspace c && negb (c =? Ch.SPACE)).

(** What the character classes say of every ASCII character and of its
    lower-case form. *)
Definition ascii_lower_agrees (c : N) : bool :=
  Ch.is_ascii (Ch.ascii_lower c)
  && Bool.eqb (Ch.ascii_isalnum (Ch.ascii_lower c)) (Ch.ascii_isalnum c)
  && Bool.eqb (Ch.ascii_lower c =? Ch.UNDERSCORE) (c =? Ch.UNDERSCORE)
  && Bool.eqb (Ch.ascii_isspace (Ch.ascii_lower c)) (Ch.ascii_isspace c)
  && (Ch.ascii_lower (Ch.ascii_lower c) =? Ch.ascii_lower c)
  && (negb (Ch.ascii_isalnum c || (c =? Ch.UNDERSCORE) || Ch.ascii_isspace c)
      || slug_char (if Ch.ascii_lower c =? Ch.SPACE then Ch.HYPHEN else Ch.ascii_lower c)).

(** ** handlers.py: the history of result sets *)

(** What the handlers keep of [search_history], which they only ever grow
    under the key [len(search_history)]: its keys are 0, 1, ... up to its
    size. *)
Definition dense (search_history : gmap Z (list Track)) : Prop :=
  forall k : Z, is_Some (search_history !! k) <-> (0 <= k < Z.of_nat (size search_history))%Z.

(** ** handlers.py: the handlers and the chat *)

(** The texts of the answers, as the code points of the literals. *)
Module Text.
(* "❌ Слишком короткий запрос" *)
Definition too_short : pystr :=
  [10060; 32; 1057; 1083; 1080; 1096; 1082; 1086; 1084; 32; 1082; 1086; 1088; 1086;
   1090; 1082; 1080; 1081; 32; 1079; 1072; 1087; 1088; 1086; 1089].
(* "🔍 Ищу: " *)
Definition searching : pystr := [128269; 32; 1048; 1097; 1091; 58; 32].
(* "❌ Ничего не найдено" *)
Definition nothing_found : pystr :=
  [10060; 32; 1053; 1080; 1095; 1077; 1075; 1086; 32; 1085; 1077; 32; 1085; 1072; 1081;
   1076; 1077; 1085; 1086].
(* "🎵 Найдено " *)
Definition found : pystr := [127925; 32; 1053; 1072; 1081; 1076; 1077; 1085; 1086; 32].
(* " треков по запросу: " *)
Definition tracks_for_query : pystr :=
  [32; 1090; 1088; 1077; 1082; 1086; 1074; 32; 1087; 1086; 32; 1079; 1072; 1087; 1088;
   1086; 1089; 1091; 58; 32].
(* "❌ Ошибка при поиске" *)
Definition search_error : pystr :=
  [10060; 32; 1054; 1096; 1080; 1073; 1082; 1072; 32; 1087; 1088; 1080; 32; 1087; 1086;
   1080; 1089; 1082; 1077].
(* "❌ Не удалось загрузить топ хиты" *)
Definition no_top_hits : pystr :=
  [10060; 32; 1053; 1077; 32; 1091; 1076; 1072; 1083; 1086; 1089; 1100; 32; 1079; 1072;
   1075; 1088; 1091; 1079; 1080; 1090; 1100; 32; 1090; 1086; 1087; 32; 1093; 1080; 1090;
   1099].
(* "🔥 Топ хиты:" *)
Definition top_hits : pystr :=
  [128293; 32; 1058; 1086; 1087; 32; 1093; 1080; 1090; 1099; 58].
(* "❌ Ошибка при загрузке топ хитов" *)
Definition top_hits_error : pystr :=
  [10060; 32; 1054; 1096; 1080; 1073; 1082; 1072; 32; 1087; 1088; 1080; 32; 1079; 1072;
   1075; 1088; 1091; 1079; 1082; 1077; 32; 1090; 1086; 1087; 32; 1093; 1080; 1090; 1086;
   1074].
(* "❌ Результаты поиска устарели" *)
Definition outdated : pystr :=
  [10060; 32; 1056; 1077; 1079; 1091; 1083; 1100; 1090; 1072; 1090; 1099; 32; 1087; 1086;
   1080; 1089; 1082; 1072; 32; 1091; 1089; 1090; 1072; 1088; 1077; 1083; 1080].
(* "⬇️ Скачиваю..." *)
Definition downloading : pystr :=
  [11015; 65039; 32; 1057; 1082; 1072; 1095; 1080; 1074; 1072; 1102; 46; 46; 46].
(* "❌ Ошибка" *)
Definition error : pystr := [10060; 32; 1054; 1096; 1080; 1073; 1082; 1072].
(* "❌ Ошибка при загрузке трека" *)
Definition track_error : pystr :=
  [10060; 32; 1054; 1096; 1080; 1073; 1082; 1072; 32; 1087; 1088; 1080; 32; 1079; 1072;
   1075; 1088; 1091; 1079; 1082; 1077; 32; 1090; 1088; 1077; 1082; 1072].
(* "🎵 " *)
Definition note : pystr := [127925; 32].
End Text.

(** What a handler asks of the chat transport. *)
Inductive sent :=
| Answer (text : pystr) (reply_markup : option InlineKeyboardMarkup)
    (* [message.answer(text, reply_markup=...)] *)
| AnswerAudio (filename content title performer caption : pystr)
    (* [message.answer_audio(BufferedInputFile(content, filename), ...)] *)
| CallbackAnswer (text : pystr).
    (* [callback.answer(text)] *)

(** The state a handler works on: the network, the chat transport, which
    delivers the n-th call or raises on it, what it has delivered, and the
    module-level [search_history]. *)
Record bot := {
  outside : world;
  delivery : nat -> option exn;
  calls : nat;
  outbox : list sent;
  history : gmap Z (list Track)
}.

Definition task (A : Type) : Type := bot -> result A * bot.

Definition task_ret {A} (a : A) : task A := fun b => (Ok a, b).
Definition task_raise {A} (e : exn) : task A := fun b => (Err e, b).
Definition task_bind {A B} (m : task A) (k : A -> task B) : task B :=
  fun b =>
    match m b with
    | (Ok a, b') => k a b'
    | (Err e, b') => (Err e, b')
    end.

(** [try: m except Exception as e: handler] *)
Definition try_except {A} (m : task A) (handler : exn -> task A) : task A :=
  fun b =>
    match m b with
    | (Ok a, b') => (Ok a, b')
    | (Err e, b') => handler e b'
    end.

(** A call of the client, on the network of the bot. *)
Definition network {A} (m : io A) : task A :=
  fun b =>
    let '(r, w) := m (outside b) in
    (r, {| outside := w; delivery := delivery b; calls := calls b;
           outbox := outbox b; history := history b |}).

(** An awaited call of the transport. *)
Definition transport (s : sent) : task unit :=
  fun b =>
    match delivery b (calls b) with
    | None =>
        (Ok tt, {| outside := outside b; delivery := delivery b; calls := S (calls b);
                   outbox := outbox b ++ [s]; history := history b |})
    | Some e =>
        (Err e, {| outside := outside b; delivery := delivery b; calls := S (calls b);
                   outbox := outbox b; history := history b |})
    end.

(** [search_history[len(search_history)] = tracks], with the keyboard for
    it. *)
Definition file_results (tracks : list Track) : task InlineKeyboardMarkup :=
  fun b =>
    let '(search_history, keyboard) := save_results (history b) tracks in
    (Ok keyboard, {| outside := outside b; delivery := delivery b; calls := calls b;
                     outbox := outbox b; history := search_history |}).

(** [v[:n]] on a field: a [str] is cut, anything else is not
    subscriptable. *)
Definition slice_field (n : nat) (v : pyval) : result pystr :=
  match v with
  | PStr s => Ok (take n s)
  | PNone => Err (TypeError (pys "'NoneType' object is not subscriptable"))
  | PBool _ => Err (TypeError (pys "'bool' object is not subscriptable"))
  | PInt _ => Err (TypeError (pys "'int' object is not subscriptable"))
  end.

Section Bot.
Variable U : Unicode.
Variable html_parser : pystr -> Bs4.node.
Variable DEFAULT_HEADERS : gmap pystr pystr.

(** [search_handler], on the text of the message ([None] when it has
    none). *)
Definition search_handler (message_text : option pystr) : task unit :=
  match message_text with
  | None | Some [] => task_ret tt
  | Some text =>
      let query := Str.strip U text in
      if (length query <? 2)%nat then transport (Answer Text.too_short None)
      else
        try_except
          (task_bind (transport (Answer (Text.searching ++ query ++ pys "...") None))
             (fun _ =>
           task_bind (network (async_with (Music_init DEFAULT_HEADERS None)
                                 (fun music => search U html_parser music query)))
             (fun tracks =>
           match tracks with
           | [] => transport (Answer Text.nothing_found None)
           | _ :: _ =>
               task_bind (file_results tracks) (fun keyboard =>
               transport
                 (Answer (Text.found ++ PyInt.str (Z.of_nat (length tracks))
                            ++ Text.tracks_for_query ++ query)
                         (Some keyboard)))
           end)))
          (fun _ => transport (Answer Text.search_error None))
  end.

(** [top_hits_handler] *)
Definition top_hits_handler : task unit :=
  try_except
    (task_bind (network (async_with (Music_init DEFAULT_HEADERS None)
                           (fun music => get_top_hits U html_parser music)))
       (fun tracks =>
     match tracks with
     | [] => transport (Answer Text.no_top_hits None)
     | _ :: _ =>
         task_bind (file_results tracks) (fun keyboard =>
         transport (Answer Text.top_hits (Some keyboard)))
     end))
    (fun _ => transport (Answer Text.top_hits_error None)).

(** [send_track] *)
Definition send_track (track : Track) : task unit :=
  try_except
    (task_bind (network (async_with (Music_init DEFAULT_HEADERS None)
                           (fun music => get_audio_bytes music track)))
       (fun audio_bytes =>
     let filename := Py.str (name track) ++ pys ".mp3" in
     match slice_field 64 (title track) with
     | Err e => task_raise e
     | Ok title_ =>
         match slice_field 64 (performer track) with
         | Err e => task_raise e
         | Ok performer_ =>
             transport (AnswerAudio filename audio_bytes title_ performer_
                          (Text.note ++ Py.str (name track)))
         end
     end))
    (fun _ => transport (Answer Text.track_error None)).

(** [track_callback_handler] with its answers: what [callback_outcome]
    stands for is carried out, inside the [try] of the handler. *)
Definition track_callback_task (callback_data : pystr) : task unit :=
  fun b =>
    try_except
      (match track_callback_handler U (history b) callback_data with
       | AnswerOutdated => transport (CallbackAnswer Text.outdated)
       | SendTrack track =>
           task_bind (transport (CallbackAnswer Text.downloading))
             (fun _ => send_track track)
       | Nothing => task_ret tt
       | AnswerError e => task_raise e
       end)
      (fun _ => transport (CallbackAnswer Text.error))
      b.
End Bot.

(** The client inside the [async with] of a handler: made with the default
    configuration, and connected. *)
Definition scoped_client (DEFAULT_HEADERS : gmap pystr pystr) : Music :=
  {| _config := ServiceConfig_default DEFAULT_HEADERS;
     _session := Some {| session_headers := DEFAULT_HEADERS |} |}.

(** What a handler may do to the network: nothing, or one session, opened
    first and closed last, around one operation of the scoped client on
    [url]; no other session is opened or closed. *)
Definition one_session (DEFAULT_HEADERS : gmap pystr pystr) (url : pyval)
    (w w' : world) : Prop :=
  w' = w
  \/ exists n events,
       w' = after w n ([EvOpenSession] ++ events ++ [EvCloseSession])
       /\ retried_events (scoped_client DEFAULT_HEADERS) url n events
       /\ (1 <= n <= 3)%nat /\ (0 <= slept events <= 3)%Z /\ (reads events <= n)%nat
       /\ ~ In EvOpenSession events /\ ~ In EvCloseSession events.

(** A transport that delivers every call, and a bot at its start. *)
Definition delivers : nat -> option exn := fun _ => None.

Definition bot_at (w : world) (search_history : gmap Z (list Track)) : bot :=
  {| outside := w; delivery := delivers; calls := 0; outbox := [];
     history := search_history |}.

(** * Properties *)

(** ** String methods *)

Section StringFacts.
Variable U : Unicode.

Lemma lstrip_all (p : N -> bool) (s : pystr) :
  forallb p s = true -> Str.lstrip p s = [].
Proof.
  induction s as [|c s IH]; simpl; [done|].
  intros [Hc Hs]%andb_prop. rewrite Hc. auto.
Qed.

Lemma re_sub_nil (keyword : pystr) :
  (forall c, In c keyword -> Ch.isword U c = false /\ Ch.isspace U c = false) ->
  Str.re_sub_not_word_not_space U keyword = [].
Proof.
  unfold Str.re_sub_not_word_not_space.
  induction keyword as [|c s IH]; simpl; [done|].
  intros H. destruct (H c (or_introl eq_refl)) as [-> ->]. simpl.
  apply IH. intros c' Hc'. apply H. by right.
Qed.

Lemma isspace_SPACE : Ch.isspace U Ch.SPACE = true.
Proof. reflexivity. Qed.

Lemma not_space_neq (c : N) : Ch.isspace U c = false -> (c =? Ch.SPACE) = false.
Proof.
  intros H. destruct (N.eqb_spec c Ch.SPACE) as [->|]; [|done].
  by rewrite isspace_SPACE in H.
Qed.

Lemma hyphenate_single_spaces (s : pystr) (in_run : bool) :
  single_spaces (Ch.isspace U) s = true ->
  (in_run = true -> match s with c :: _ => Ch.isspace U c = false | [] => True end) ->
  hyphenate_runs (Ch.isspace U) in_run s = Str.replace Ch.SPACE Ch.HYPHEN s.
Proof.
  revert in_run. induction s as [|c s IH]; intros in_run Hs Hrun; simpl in *; [done|].
  apply andb_prop in Hs as [Hc Hs].
  destruct (Ch.isspace U c) eqn:Ec.
  - apply andb_prop in Hc as [Hc Hnext]. rewrite Hc.
    destruct in_run; [by specialize (Hrun eq_refl)|].
    f_equal. apply IH; [done|]. intros _.
    destruct s as [|c' s]; [done|]. by apply negb_true_iff in Hnext.
  - rewrite (not_space_neq c Ec). f_equal. apply IH; [done|]. intros [=].
Qed.
End StringFacts.

(** ** The characters of ASCII *)

Section AsciiFacts.
Variable U : Unicode.

Lemma ascii_table (c : N) : Ch.is_ascii c = true -> ascii_lower_agrees c = true.
Proof.
  intros Hc. apply N.ltb_lt in Hc.
  assert (Hall : forallb ascii_lower_agrees (map N.of_nat (seq 0 128)) = true)
    by (vm_compute; reflexivity).
  rewrite forallb_forall in Hall. apply Hall.
  apply in_map_iff. exists (N.to_nat c). split; [lia|]. apply in_seq. lia.
Qed.

Lemma ascii_lower_facts (c : N) :
  Ch.is_ascii c = true ->
  Ch.is_ascii (Ch.ascii_lower c) = true
  /\ Ch.isword U (Ch.ascii_lower c) = Ch.isword U c
  /\ Ch.isspace U (Ch.ascii_lower c) = Ch.isspace U c
  /\ Ch.ascii_lower (Ch.ascii_lower c) = Ch.ascii_lower c.
Proof.
  intros Hc. pose proof (ascii_table c Hc) as H. unfold ascii_lower_agrees in H.
  repeat (apply andb_prop in H as [H ?]).
  unfold Ch.isword, Ch.isalnum, Ch.isspace. rewrite Hc, H.
  repeat match goal with
         | Hx : Bool.eqb _ _ = true |- _ => apply eqb_prop in Hx; rewrite Hx; clear Hx
         end.
  repeat split. by apply N.eqb_eq.
Qed.

Lemma lower_from_ascii (whole s : pystr) (i : nat) :
  Str.is_ascii s = true -> Str.lower_from U whole i s = map Ch.ascii_lower s.
Proof.
  revert i. induction s as [|c s IH]; intros i; simpl; [done|].
  intros [Hc Hs]%andb_prop. by rewrite Hc, IH.
Qed.

Lemma lower_ascii (s : pystr) :
  Str.is_ascii s = true -> Str.lower U s = map Ch.ascii_lower s.
Proof. apply lower_from_ascii. Qed.
End AsciiFacts.

(** ** The slug of the specification and the slug of the code *)

Section HyphenFacts.
Variable U : Unicode.

Lemma length_hyphenate_runs (in_run : bool) (s : pystr) :
  (length (hyphenate_runs (Ch.isspace U) in_run s) <= length s)%nat.
Proof.
  revert in_run. induction s as [|c s IH]; intros in_run; simpl; [lia|].
  destruct (Ch.isspace U c); [destruct in_run|]; simpl;
    match goal with |- context [hyphenate_runs _ ?b s] => specialize (IH b) end; lia.
Qed.

Lemma hyphenate_replace_single_spaces (s : pystr) (in_run : bool) :
  hyphenate_runs (Ch.isspace U) in_run s = Str.replace Ch.SPACE Ch.HYPHEN s ->
  single_spaces (Ch.isspace U) s = true
  /\ (in_run = true -> match s with c :: _ => Ch.isspace U c = false | [] => True end).
Proof.
  revert in_run. induction s as [|c s IH]; intros in_run H; [done|].
  simpl in H. simpl single_spaces.
  destruct (Ch.isspace U c) eqn:Ec.
  - destruct in_run.
    + exfalso. apply (f_equal length) in H. simpl in H.
      unfold Str.replace in H. rewrite length_map in H.
      pose proof (length_hyphenate_runs true s). lia.
    + injection H as Hc Hs. apply IH in Hs as [Hs Hnext].
      assert (c = Ch.SPACE) as ->.
      { destruct (N.eqb_spec c Ch.SPACE) as [|Hne]; [done|]. subst c. done. }
      split; [|done]. rewrite Hs, andb_true_r. simpl.
      destruct s as [|c' s]; [done|]. by rewrite (Hnext eq_refl).
  - injection H as Hc Hs. apply IH in Hs as [Hs _]. by rewrite Hs.
Qed.

Lemma slug_spec_iff (t : pystr) :
  Str.replace Ch.SPACE Ch.HYPHEN t = hyphenate_runs (Ch.isspace U) false t
  <-> single_spaces (Ch.isspace U) t = true.
Proof.
  split.
  - intros H. symmetry in H. by apply hyphenate_replace_single_spaces in H as [H _].
  - intros H. symmetry. by apply hyphenate_single_spaces.
Qed.
End HyphenFacts.

Section WordFacts.
Variable U : Unicode.

Lemma word_char_facts (c : N) :
  word_char c = true ->
  Ch.is_ascii c = true /\ Ch.isword U c = true /\ Ch.isspace U c = false
  /\ (c =? Ch.SPACE) = false
  /\ word_char (Ch.ascii_lower c) = true.
Proof.
  intros H.
  assert (Ha : Ch.is_ascii c = true).
  { unfold word_char, Ch.ascii_isalnum, Ch.is_digit, Ch.is_upper, Ch.is_lower,
      Ch.is_ascii, Ch.UNDERSCORE in *.
    apply N.ltb_lt.
    repeat match goal with
           | H : (_ || _) = true |- _ => apply orb_prop in H as [H|H]
           | H : (_ && _) = true |- _ => apply andb_prop in H as [? H]
           | H : (_ <=? _) = true |- _ => apply N.leb_le in H
           | H : (_ =? _) = true |- _ => apply N.eqb_eq in H
           end; lia. }
  pose proof (ascii_table c Ha) as Ht.
  assert (Hall : forallb (fun c => negb (word_char c)
                   || (negb (Ch.ascii_isspace c) && negb (c =? Ch.SPACE)
                       && word_char (Ch.ascii_lower c)))
                   (map N.of_nat (seq 0 128)) = true) by (vm_compute; reflexivity).
  rewrite forallb_forall in Hall.
  specialize (Hall c). rewrite H in Hall. simpl in Hall.
  assert (Hin : In c (map N.of_nat (seq 0 128))).
  { apply N.ltb_lt in Ha. apply in_map_iff. exists (N.to_nat c). split; [lia|].
    apply in_seq. lia. }
  apply Hall in Hin. apply andb_prop in Hin as [Hin Hl]. apply andb_prop in Hin as [Hs Hn].
  apply negb_true_iff in Hs, Hn.
  unfold Ch.isword, Ch.isalnum, Ch.isspace. rewrite Ha. repeat split; try done.
Qed.
End WordFacts.

Section WordsFacts.
Variable U : Unicode.

Lemma ascii_word_chars (w : pystr) :
  ascii_word w = true -> w <> [] /\ forallb word_char w = true.
Proof.
  unfold ascii_word. intros [Hn Hw]%andb_prop. split; [|exact Hw].
  apply negb_true_iff in Hn. by apply bool_decide_eq_false in Hn.
Qed.

Lemma words_text_cons (first sep word : pystr) (rest : list (pystr * pystr)) :
  words_text first ((sep, word) :: rest) = first ++ sep ++ words_text word rest.
Proof. unfold words_text. simpl. by rewrite <- !app_assoc. Qed.

Lemma filter_word (w : pystr) :
  forallb word_char w = true -> Str.re_sub_not_word_not_space U w = w.
Proof.
  unfold Str.re_sub_not_word_not_space.
  induction w as [|c w IH]; simpl; [done|]. intros [Hc Hw]%andb_prop.
  destruct (word_char_facts U c Hc) as (_ & -> & _). simpl. by rewrite IH.
Qed.

Lemma filter_separator (sep : pystr) :
  spaces_and_punctuation U sep = true ->
  Str.re_sub_not_word_not_space U sep = repeat Ch.SPACE (spaces sep).
Proof.
  unfold Str.re_sub_not_word_not_space, spaces_and_punctuation, spaces.
  induction sep as [|c sep IH]; [done|]. cbn [forallb List.filter].
  intros [Hc Hs]%andb_prop.
  destruct (N.eqb_spec c Ch.SPACE) as [->|Hne].
  - cbn. by rewrite IH.
  - cbn [orb] in Hc. apply negb_true_iff in Hc. rewrite Hc. by apply IH.
Qed.

Lemma cleaned_words (first : pystr) (rest : list (pystr * pystr)) :
  ascii_word first = true -> separated_words U rest ->
  Str.re_sub_not_word_not_space U (words_text first rest)
  = words_text first (only_spaces rest).
Proof.
  revert first. induction rest as [|[sep word] rest IH]; intros first Hf Hr.
  - unfold words_text. simpl. rewrite !app_nil_r.
    by apply filter_word, ascii_word_chars.
  - apply Forall_cons in Hr as [[Hsep Hword] Hr].
    cbn [only_spaces map]. rewrite !words_text_cons.
    unfold Str.re_sub_not_word_not_space in *. rewrite !List.filter_app.
    rewrite IH by done. f_equal; [by apply filter_word, ascii_word_chars|].
    f_equal. by apply filter_separator.
Qed.

Lemma words_text_ends (first : pystr) (rest : list (pystr * pystr)) :
  ascii_word first = true ->
  Forall (fun '(_, word) => ascii_word word = true) rest ->
  exists s w, words_text first rest = s ++ w /\ ascii_word w = true.
Proof.
  revert first. induction rest as [|[sep word] rest IH]; intros first Hf Hr.
  - exists [], first. unfold words_text. simpl. by rewrite app_nil_r.
  - apply Forall_cons in Hr as [Hword Hr].
    destruct (IH word Hword Hr) as (s & w & E & Hw).
    exists (first ++ sep ++ s), w. rewrite words_text_cons, E.
    by rewrite <- !app_assoc.
Qed.

Lemma words_text_starts (first : pystr) (rest : list (pystr * pystr)) :
  ascii_word first = true ->
  exists c s, words_text first rest = c :: s /\ word_char c = true.
Proof.
  intros [Hn Hw]%ascii_word_chars. destruct first as [|c first]; [done|].
  simpl in Hw. apply andb_prop in Hw as [Hc _]. by exists c, (first ++ concat (map (fun '(sep, word) => sep ++ word) rest)).
Qed.

Lemma rstrip_word (s w : pystr) :
  ascii_word w = true -> Str.rstrip (Ch.isspace U) (s ++ w) = s ++ w.
Proof.
  intros [Hn Hw]%ascii_word_chars. unfold Str.rstrip. rewrite rev_app_distr.
  destruct (rev w) as [|c r] eqn:E.
  - apply (f_equal (@rev N)) in E. rewrite rev_involutive in E. done.
  - assert (Hc : word_char c = true).
    { rewrite forallb_forall in Hw. apply Hw, in_rev. rewrite E. by left. }
    destruct (word_char_facts U c Hc) as (_ & _ & Hs & _).
    simpl. rewrite Hs. change (c :: r ++ rev s) with ((c :: r) ++ rev s).
    by rewrite <- E, <- rev_app_distr, rev_involutive.
Qed.

Lemma strip_words (first : pystr) (rest : list (pystr * pystr)) :
  ascii_word first = true ->
  Forall (fun '(_, word) => ascii_word word = true) rest ->
  Str.strip U (words_text first rest) = words_text first rest.
Proof.
  intros Hf Hr. unfold Str.strip.
  destruct (words_text_starts first rest Hf) as (c & s & E & Hc).
  destruct (word_char_facts U c Hc) as (_ & _ & Hs & _).
  assert (Hl : Str.lstrip (Ch.isspace U) (words_text first rest) = words_text first rest).
  { rewrite E. simpl. by rewrite Hs. }
  rewrite Hl. destruct (words_text_ends first rest Hf Hr) as (s' & w & -> & Hw).
  by apply rstrip_word.
Qed.

Lemma only_spaces_words (rest : list (pystr * pystr)) :
  separated_words U rest ->
  Forall (fun '(_, word) => ascii_word word = true) (only_spaces rest).
Proof.
  intros H. unfold only_spaces. apply Forall_map.
  eapply Forall_impl; [exact H|]. by intros [sep word] [_ ?].
Qed.

Lemma hyphenated_word (w : pystr) :
  forallb word_char w = true -> map hyphenated w = map Ch.ascii_lower w.
Proof.
  induction w as [|c w IH]; simpl; [done|]. intros [Hc Hw]%andb_prop.
  rewrite IH by done. f_equal. unfold hyphenated.
  destruct (word_char_facts ascii_only c Hc) as (_ & _ & _ & _ & Hl).
  by destruct (word_char_facts ascii_only _ Hl) as (_ & _ & _ & -> & _).
Qed.

Lemma hyphenated_spaces (k : nat) :
  map hyphenated (repeat Ch.SPACE k) = repeat Ch.HYPHEN k.
Proof. induction k as [|k IH]; simpl; [done|]. by rewrite IH. Qed.

Lemma lower_spaces (k : nat) :
  map Ch.ascii_lower (repeat Ch.SPACE k) = repeat Ch.SPACE k.
Proof. induction k as [|k IH]; simpl; [done|]. by rewrite IH. Qed.

Lemma is_ascii_word (w : pystr) : forallb word_char w = true -> Str.is_ascii w = true.
Proof.
  unfold Str.is_ascii. rewrite !forallb_forall. intros H c Hc.
  by destruct (word_char_facts ascii_only c (H c Hc)) as (? & _).
Qed.

Lemma is_ascii_spaces (k : nat) : Str.is_ascii (repeat Ch.SPACE k) = true.
Proof. induction k as [|k IH]; simpl; [done|]. exact IH. Qed.

Lemma is_ascii_words (first : pystr) (rest : list (pystr * pystr)) :
  ascii_word first = true -> separated_words U rest ->
  Str.is_ascii (words_text first (only_spaces rest)) = true.
Proof.
  revert first. induction rest as [|[sep word] rest IH]; intros first Hf Hr.
  - unfold words_text. simpl. rewrite app_nil_r. by apply is_ascii_word, ascii_word_chars.
  - apply Forall_cons in Hr as [[Hsep Hword] Hr].
    change (only_spaces ((sep, word) :: rest))
      with ((repeat Ch.SPACE (spaces sep), word) :: only_spaces rest).
    rewrite words_text_cons.
    pose proof (IH word Hword Hr) as Hrest.
    pose proof (is_ascii_word first (proj2 (ascii_word_chars first Hf))) as Hfirst.
    pose proof (is_ascii_spaces (spaces sep)) as Hspaces.
    unfold Str.is_ascii in *. rewrite !forallb_app.
    by rewrite Hfirst, Hspaces, Hrest.
Qed.

Lemma map_words_text (f : N -> N) (first : pystr) (rest : list (pystr * pystr)) :
  map f (words_text first rest)
  = words_text (map f first) (map (fun '(sep, word) => (map f sep, map f word)) rest).
Proof.
  revert first. induction rest as [|[sep word] rest IH]; intros first.
  - unfold words_text. simpl. by rewrite !app_nil_r.
  - cbn [map]. rewrite !words_text_cons, !map_app. by rewrite IH.
Qed.

Lemma slug_words (first : pystr) (rest : list (pystr * pystr)) :
  ascii_word first = true -> separated_words U rest ->
  slug U (words_text first rest)
  = words_text (map Ch.ascii_lower first)
      (map (fun '(sep, word) => (repeat Ch.HYPHEN (spaces sep), map Ch.ascii_lower word))
         rest).
Proof.
  intros Hf Hr. unfold slug.
  rewrite cleaned_words by done.
  rewrite strip_words by (done || by apply only_spaces_words).
  rewrite lower_ascii by by apply is_ascii_words.
  unfold Str.replace. rewrite map_map.
  change (fun x => if Ch.ascii_lower x =? Ch.SPACE then Ch.HYPHEN else Ch.ascii_lower x)
    with hyphenated.
  rewrite map_words_text. unfold only_spaces. rewrite map_map.
  rewrite hyphenated_word by by apply ascii_word_chars.
  f_equal. apply map_ext_Forall.
  eapply Forall_impl; [exact Hr|]. intros [sep word] [_ Hw].
  by rewrite hyphenated_spaces, hyphenated_word by by apply ascii_word_chars.
Qed.
End WordsFacts.

Section SingleSpaceFacts.
Variable U : Unicode.

Lemma lower_is_space (c : N) : (Ch.ascii_lower c =? Ch.SPACE) = (c =? Ch.SPACE).
Proof.
  unfold Ch.ascii_lower, Ch.is_upper, Ch.SPACE.
  destruct (N.leb_spec 65 c), (N.leb_spec c 90); simpl; try done.
  destruct (N.eqb_spec (c + 32) 32), (N.eqb_spec c 32); lia || done.
Qed.

Lemma single_spaces_lower (s : pystr) :
  Str.is_ascii s = true ->
  single_spaces (Ch.isspace U) (map Ch.ascii_lower s) = single_spaces (Ch.isspace U) s.
Proof.
  induction s as [|c s IH]; [done|]. intros [Hc Hs]%andb_prop.
  cbn [map single_spaces]. rewrite IH by done. rewrite lower_is_space.
  destruct (ascii_lower_facts U c Hc) as (_ & _ & -> & _).
  destruct s as [|c' s]; [done|]. cbn [map].
  simpl in Hs. apply andb_prop in Hs as [Hc' _].
  by destruct (ascii_lower_facts U c' Hc') as (_ & _ & -> & _).
Qed.

Lemma single_spaces_word_app (w s : pystr) :
  forallb word_char w = true ->
  single_spaces (Ch.isspace U) (w ++ s) = single_spaces (Ch.isspace U) s.
Proof.
  induction w as [|c w IH]; [done|]. intros [Hc Hw]%andb_prop.
  cbn [app single_spaces]. destruct (word_char_facts U c Hc) as (_ & _ & -> & _).
  by apply IH.
Qed.

Lemma single_spaces_run (k : nat) (c : N) (s : pystr) :
  word_char c = true ->
  single_spaces (Ch.isspace U) (repeat Ch.SPACE k ++ c :: s)
  = (k <=? 1)%nat && single_spaces (Ch.isspace U) (c :: s).
Proof.
  intros Hc. destruct (word_char_facts U c Hc) as (_ & _ & Hs & _).
  destruct k as [|[|k]]; [done| |done].
  cbn [repeat app]. cbn [single_spaces]. rewrite Hs. reflexivity.
Qed.

Lemma single_spaces_words (first : pystr) (rest : list (pystr * pystr)) :
  ascii_word first = true -> separated_words U rest ->
  single_spaces (Ch.isspace U) (words_text first (only_spaces rest))
  = forallb (fun '(sep, _) => (spaces sep <=? 1)%nat) rest.
Proof.
  revert first. induction rest as [|[sep word] rest IH]; intros first Hf Hr.
  - unfold words_text. simpl. rewrite app_nil_r.
    rewrite <- (app_nil_r first).
    by rewrite single_spaces_word_app by by apply ascii_word_chars.
  - apply Forall_cons in Hr as [[Hsep Hword] Hr].
    change (only_spaces ((sep, word) :: rest))
      with ((repeat Ch.SPACE (spaces sep), word) :: only_spaces rest).
    rewrite words_text_cons.
    rewrite single_spaces_word_app by by apply ascii_word_chars.
    destruct (words_text_starts word (only_spaces rest) Hword) as (c & s & E & Hc).
    cbn [forallb]. rewrite <- (IH word Hword Hr). rewrite E.
    by apply single_spaces_run.
Qed.

Lemma slug_spec_words (first : pystr) (rest : list (pystr * pystr)) :
  ascii_word first = true -> separated_words U rest ->
  slug U (words_text first rest) = slug_spec U (words_text first rest)
  <-> Forall (fun '(sep, _) => (spaces sep <= 1)%nat) rest.
Proof.
  intros Hf Hr. unfold slug, slug_spec. rewrite (slug_spec_iff U).
  rewrite cleaned_words by done.
  rewrite strip_words by (done || by apply (only_spaces_words U)).
  rewrite lower_ascii by by apply (is_ascii_words U).
  rewrite single_spaces_lower by by apply (is_ascii_words U).
  rewrite single_spaces_words by done.
  rewrite forallb_forall, List.Forall_forall.
  split; intros H [sep word] Hin; specialize (H _ Hin); simpl in *;
    [by apply Nat.leb_le|by apply Nat.leb_le].
Qed.
End SingleSpaceFacts.

(** ** The parser *)

Section ParserFacts.
Variable U : Unicode.

Lemma lstrip_nil_iff (p : N -> bool) (s : pystr) :
  Str.lstrip p s = [] <-> forallb p s = true.
Proof.
  split; [|apply lstrip_all].
  induction s as [|c s IH]; simpl; [done|].
  destruct (p c); [exact IH|done].
Qed.

Lemma lstrip_head (p : N -> bool) (s : pystr) :
  match Str.lstrip p s with c :: _ => p c = false | [] => True end.
Proof.
  induction s as [|c s IH]; simpl; [done|].
  destruct (p c) eqn:E; [exact IH|exact E].
Qed.

Lemma strip_nil_iff (s : pystr) :
  Str.strip U s = [] <-> forallb (Ch.isspace U) s = true.
Proof.
  unfold Str.strip, Str.rstrip. rewrite <- lstrip_nil_iff.
  split.
  - intros H. apply (f_equal (@rev N)) in H. rewrite rev_involutive in H. simpl in H.
    apply lstrip_nil_iff in H. rewrite forallb_forall in H.
    pose proof (lstrip_head (Ch.isspace U) s) as Hh.
    destruct (Str.lstrip (Ch.isspace U) s) as [|c r]; [done|].
    rewrite (H c) in Hh; [done|]. apply in_rev. rewrite rev_involutive. by left.
  - intros ->. reflexivity.
Qed.

Lemma from_element_index (element : Bs4.node) (i : Z) (t : Track) :
  from_element U element i = Ok t -> index t = i.
Proof.
  unfold from_element. intros H.
  repeat match type of H with
         | context [match ?x with _ => _ end] => destruct x; try discriminate
         end.
  by injection H as <-.
Qed.

Lemma from_element_err (element : Bs4.node) (i : Z) (e : exn) :
  from_element U element i = Err e -> is_parse_error e = true.
Proof.
  unfold from_element. intros H.
  repeat match type of H with
         | context [match ?x with _ => _ end] => destruct x; try discriminate
         end; by injection H as <-.
Qed.

Lemma from_element_lacks (item : Bs4.node) (i : Z) :
  lacks_required item -> exists e, from_element U item i = Err e.
Proof.
  unfold lacks_required, from_element. intros [H|[H|H]]; rewrite H.
  - by eexists.
  - destruct (Bs4.find (Bs4.has_class (pys "playlist-name-artist")) item); by eexists.
  - destruct (Bs4.find (Bs4.has_class (pys "playlist-name-artist")) item); [|by eexists].
    destruct (Bs4.find (Bs4.has_class (pys "playlist-name-title")) item); by eexists.
Qed.

Lemma comprehension_fails {A B} (f : A -> Z -> result B) (l : list A) (x : A) :
  In x l -> (forall i, exists e, f x i = Err e) ->
  forall k, exists e y j, comprehension_enumerate f k l = Err e /\ In y l /\ f y j = Err e.
Proof.
  induction l as [|a l IH]; [done|]. intros Hin Hx k. simpl.
  destruct (f a k) as [b|e] eqn:Ea.
  - destruct Hin as [->|Hin].
    + destruct (Hx k) as [e He]. congruence.
    + destruct (IH Hin Hx (k + 1)%Z) as (e & y & j & He & Hy & Hf).
      exists e, y, j. cbn. rewrite He. cbn. auto.
  - exists e, a, k. cbn. auto.
Qed.

Lemma comprehension_lookup {A B} (f : A -> Z -> result B) (l : list A) :
  forall k ys, comprehension_enumerate f k l = Ok ys ->
  length ys = length l /\
  forall i y, ys !! i = Some y ->
    exists x, l !! i = Some x /\ f x (k + Z.of_nat i)%Z = Ok y.
Proof.
  induction l as [|a l IH]; intros k ys; simpl.
  - intros [= <-]. split; [done|]. intros i y. by rewrite lookup_nil.
  - destruct (f a k) as [b|e] eqn:Ea; cbn; [|done].
    destruct (comprehension_enumerate f (k + 1)%Z l) as [bs|e] eqn:Er; cbn; [|done].
    intros [= <-]. destruct (IH _ _ Er) as [Hlen Hl]. split; [simpl; lia|].
    intros [|i] y; simpl.
    + intros [= <-]. exists a. by rewrite Z.add_0_r.
    + intros Hy. destruct (Hl i y Hy) as (x & Hx & Hfx). exists x. split; [done|].
      by replace (k + Z.of_nat (S i))%Z with (k + 1 + Z.of_nat i)%Z by lia.
Qed.

(** A parsed page numbers its tracks by position. *)
Lemma parse_playlist_index (soup : Bs4.node) (tracks : list Track) :
  parse_playlist U soup = Ok tracks ->
  forall i t, tracks !! i = Some t -> index t = Z.of_nat i.
Proof.
  unfold parse_playlist.
  destruct (Bs4.find _ soup) as [[|nm cl at_ cs]|]; try done.
  intros H i t Ht.
  destruct (comprehension_lookup _ _ _ _ H) as [_ Hl].
  destruct (Hl i t Ht) as (x & _ & Hx).
  by apply from_element_index in Hx.
Qed.
End ParserFacts.

(** ** The client and the retry decorator *)

Section ClientFacts.
Variable U : Unicode.
Variable html_parser : pystr -> Bs4.node.

Lemma attempts_ok {A} (wait : nat -> Z) (fn : io A) (remaining n : nat) (w w' : world) (a : A) :
  Tenacity.attempts wait fn remaining n w = (Ok a, w') ->
  exists w1, fn w1 = (Ok a, w').
Proof.
  revert n w. induction remaining as [|k IH]; intros n w; simpl.
  - destruct (fn w) as [[a'|e] w1] eqn:E; [|done]. intros [= <- <-]. eauto.
  - destruct (fn w) as [[a'|e] w1] eqn:E.
    + intros [= <- <-]. eauto.
    + unfold io_bind, emit. apply IH.
Qed.

Lemma attempts_err {A} (wait : nat -> Z) (fn : io A) (remaining n : nat) (w w' : world) (e : exn) :
  Tenacity.attempts wait fn remaining n w = (Err e, w') ->
  exists last w1, e = RetryError last /\ fn w1 = (Err last, w').
Proof.
  revert n w. induction remaining as [|k IH]; intros n w; simpl.
  - destruct (fn w) as [[a'|e'] w1] eqn:E; [done|]. intros [= <- <-]. eauto.
  - destruct (fn w) as [[a'|e'] w1] eqn:E; [done|].
    unfold io_bind, emit. apply IH.
Qed.

Lemma except_ok {A} (m : io A) (handler : pystr -> exn) (w w' : world) (a : A) :
  except_client_or_timeout m handler w = (Ok a, w') -> m w = (Ok a, w').
Proof.
  unfold except_client_or_timeout.
  destruct (m w) as [[a'|[]] w1]; congruence.
Qed.

Lemma _parse_tracks_wrapped_ok (self : Music) (url : pystr) (w w' : world) (tracks : list Track) :
  _parse_tracks_wrapped U html_parser self url w = (Ok tracks, w') ->
  exists soup, parse_playlist U soup = Ok tracks.
Proof.
  unfold _parse_tracks_wrapped. intros H%except_ok.
  destruct (_session self); [|done].
  unfold io_bind, io_lift in H.
  destruct (session_get _ _ w) as [[r|e] w1]; [|done].
  destruct (raise_for_status r w1) as [[[]|e] w2]; [|done].
  destruct (read_body r w2) as [[txt|e] w3]; [|done].
  exists (html_parser txt). congruence.
Qed.

Lemma _parse_tracks_ok (self : Music) (url : pystr) (w w' : world) (tracks : list Track) :
  _parse_tracks U html_parser self url w = (Ok tracks, w') ->
  exists soup, parse_playlist U soup = Ok tracks.
Proof.
  unfold _parse_tracks, retry_policy, Tenacity.retry.
  intros [w1 H]%attempts_ok. by apply _parse_tracks_wrapped_ok in H.
Qed.

(** Whatever goes wrong under the decorator, and however often, what
    comes out of it is a [RetryError]. *)
Lemma retry_policy_err {A} (fn : io A) (w w' : world) (e : exn) :
  retry_policy fn w = (Err e, w') -> exists last, e = RetryError last.
Proof.
  unfold retry_policy, Tenacity.retry.
  intros (last & w1 & -> & _)%attempts_err. eauto.
Qed.

Lemma build_search_query_total (keyword : pystr) :
  exists url, build_search_query U keyword = Ok url.
Proof.
  unfold build_search_query.
  assert (He : forall s, Idna.encode U s ≫= Idna.decode_ascii = Err UnicodeError
                         \/ exists b, Idna.encode U s ≫= Idna.decode_ascii = Ok b).
  { intros s.
    assert (Hd : forall r : result pystr,
               (r = Err UnicodeError \/ exists b, r = Ok b) ->
               r ≫= Idna.decode_ascii = Err UnicodeError
               \/ exists b, r ≫= Idna.decode_ascii = Ok b).
    { intros r [->|[b ->]]; cbn; [by left|].
      unfold Idna.decode_ascii. destruct (Str.is_ascii b); eauto. }
    apply Hd. unfold Idna.encode.
    destruct s as [|c s]; [eauto|].
    destruct (Str.is_ascii (c :: s)).
    - repeat match goal with |- context [if ?b then _ else _] => destruct b end; eauto.
    - destruct (match List.last _ _ with [] => _ | _ => _ end) as [labels dot].
      assert (Hj : forall ls acc, Idna.join_labels U acc ls = Err UnicodeError
                                  \/ exists b, Idna.join_labels U acc ls = Ok b).
      { induction ls as [|l ls IH]; intros acc; simpl; [eauto|].
        destruct (ToASCII U l); [apply IH|by left]. }
      destruct (Hj labels []) as [->|[b ->]]; cbn; eauto. }
  destruct (He (slug U keyword)) as [->|[b ->]]; cbn; eauto.
Qed.
End ClientFacts.

Section RetryFacts.
Variable U : Unicode.
Variable html_parser : pystr -> Bs4.node.

(** With a session open, no error of [search] is a [MusicServiceError]:
    each one is a [RetryError]. *)
Lemma search_error_connected (self : Music) (keyword : pystr) (w w' : world) (e : exn) :
  _session self <> None ->
  search U html_parser self keyword w = (Err e, w') ->
  exists last, e = RetryError last.
Proof.
  intros Hs. unfold search. destruct (_session self); [|done].
  destruct (build_search_query_total U keyword) as [url ->].
  unfold io_bind, io_lift, _parse_tracks. apply retry_policy_err.
Qed.

Lemma get_top_hits_error (self : Music) (w w' : world) (e : exn) :
  get_top_hits U html_parser self w = (Err e, w') ->
  exists last, e = RetryError last.
Proof. unfold get_top_hits, _parse_tracks. apply retry_policy_err. Qed.

Lemma get_audio_bytes_error (self : Music) (track : Track) (w w' : world) (e : exn) :
  get_audio_bytes self track w = (Err e, w') ->
  exists last, e = RetryError last.
Proof. unfold get_audio_bytes. apply retry_policy_err. Qed.

(** A parse failure leaves an attempt as it is: the [except] clause does
    not catch it. *)
Lemma parse_error_leaves_attempt (self : Music) (url : pystr) (w : world)
    (r : response) (page_text : pystr) (e : exn) :
  _session self <> None ->
  net w (requests w) (PStr url) = Responded r ->
  (status r < 400)%Z ->
  body r = Ok page_text ->
  parse_playlist U (html_parser page_text) = Err e ->
  fst (_parse_tracks_wrapped U html_parser self url w) = Err e.
Proof.
  intros Hs Hnet Hst Hb Hp. unfold _parse_tracks_wrapped.
  destruct (_session self); [|done].
  unfold except_client_or_timeout, io_bind, session_get, raise_for_status.
  rewrite Hnet. destruct (Z.leb_spec 400 (status r)); [lia|].
  unfold io_ret, read_body, io_bind, emit, io_lift. rewrite Hb, Hp.
  unfold parse_playlist in Hp.
  destruct (Bs4.find _ (html_parser page_text)) as [[|? ? ? ?]|];
    try (by injection Hp as <-).
  destruct (comprehension_enumerate _ _ _) as [ts|e'] eqn:Ec; [done|].
  injection Hp as <-.
  assert (Hpe : is_parse_error e' = true).
  { clear -Ec. revert Ec. generalize 0%Z.
    induction (Bs4.find_all _ _) as [|x l IH]; intros k; simpl; [done|].
    destruct (from_element U x k) as [t|e0] eqn:Ex; cbn.
    - destruct (comprehension_enumerate _ _ l) eqn:El; cbn; [done|].
      intros [= <-]. by apply IH in El.
    - intros [= <-]. by apply from_element_err in Ex. }
  by destruct e'.
Qed.

(** One attempt at an oversized file: [MusicServiceError] is raised after
    the request, and the body is not read. *)
Lemma oversized_attempt (self : Music) (track : Track) (w : world) (r : response) (n : Z) :
  _session self <> None ->
  net w (requests w) (audio_url track) = Responded r ->
  (status r < 400)%Z ->
  content_length r = Some n ->
  (max_size < n)%Z ->
  get_audio_bytes_wrapped self track w
  = (Err (MusicServiceError (pys "File too large: " ++ PyInt.str n ++ pys " bytes")),
     {| net := net w; requests := S (requests w);
        trace := trace w ++ [EvGet (audio_url track) (timeout (_config self))] |}).
Proof.
  intros Hs Hnet Hst Hcl Hn. unfold get_audio_bytes_wrapped.
  destruct (_session self); [|done].
  unfold except_client_or_timeout, io_bind, session_get, raise_for_status.
  rewrite Hnet. destruct (Z.leb_spec 400 (status r)); [lia|].
  unfold io_ret. rewrite Hcl.
  destruct (Z.eqb_spec n 0); [unfold max_size in Hn; lia|].
  destruct (Z.ltb_spec max_size n); [|lia]. reflexivity.
Qed.

(** A file within the ceiling, or of unannounced size, is read and returned
    by the first attempt. *)
Lemma within_ceiling_returns_body (self : Music) (track : Track) (w : world)
    (r : response) (b : pystr) :
  _session self <> None ->
  net w (requests w) (audio_url track) = Responded r ->
  (status r < 400)%Z ->
  (forall n, content_length r = Some n -> (n <= max_size)%Z) ->
  body r = Ok b ->
  get_audio_bytes self track w
  = (Ok b,
     {| net := net w; requests := S (requests w);
        trace := trace w ++ [EvGet (audio_url track) (timeout (_config self))] ++ [EvRead] |}).
Proof.
  intros Hs Hnet Hst Hcl Hb.
  unfold get_audio_bytes, retry_policy, Tenacity.retry. simpl.
  unfold get_audio_bytes_wrapped.
  destruct (_session self); [|done].
  unfold except_client_or_timeout, io_bind, session_get, raise_for_status.
  rewrite Hnet. destruct (Z.leb_spec 400 (status r)); [lia|].
  unfold io_ret, read_body, io_bind, emit, io_lift. simpl.
  destruct (content_length r) as [n|] eqn:E.
  - specialize (Hcl n eq_refl).
    destruct (Z.ltb_spec max_size n); [lia|]. rewrite andb_false_r.
    rewrite Hb. simpl. by rewrite <- app_assoc.
  - rewrite Hb. simpl. by rewrite <- app_assoc.
Qed.
End RetryFacts.

(** ** Printed integers, callback data and the keyboard *)

Section IntegerFacts.
Variable U : Unicode.

Lemma uint_value_acc (d : Decimal.uint) (p : positive) :
  uint_value d (Npos p) = Npos (Pos.of_uint_acc d p).
Proof.
  revert p. induction d; intros p; simpl; try reflexivity;
    rewrite <- IHd; f_equal; lia.
Qed.

Lemma uint_value_0 (d : Decimal.uint) : uint_value d 0 = Pos.of_uint d.
Proof.
  induction d; simpl; try reflexivity; try exact IHd;
    change 1%N with (Npos 1); try apply uint_value_acc.
Qed.

Lemma is_digit_range (c : N) : Ch.is_digit c = true -> 48 <= c <= 57.
Proof.
  unfold Ch.is_digit. by intros [?%N.leb_le ?%N.leb_le]%andb_prop.
Qed.

Lemma chars_of_uint_digits (d : Decimal.uint) :
  forallb Ch.is_digit (PyInt.chars_of_uint d) = true.
Proof. induction d; simpl; auto. Qed.

Lemma last_cons {A} (x : A) (l : list A) (d : A) :
  List.last (x :: l) d = List.last l x.
Proof.
  revert x d. induction l as [|y l IH]; intros x d; [reflexivity|].
  change (List.last (x :: y :: l) d) with (List.last (y :: l) d).
  by rewrite (IH y d), (IH y x).
Qed.

Lemma scan_digits_uint (d : Decimal.uint) (prev acc : N) :
  PyInt.scan_digits (PyInt.chars_of_uint d) prev acc
  = Some (uint_value d acc, List.last (PyInt.chars_of_uint d) prev, []).
Proof.
  revert prev acc. induction d; intros prev acc; try reflexivity;
    cbn [PyInt.chars_of_uint PyInt.scan_digits uint_value];
    match goal with
    | |- context [Ch.is_digit ?c] => change (Ch.is_digit c) with true
    end; cbv iota; rewrite IHd, last_cons; reflexivity.
Qed.

Lemma digits_from_string_uint (d : Decimal.uint) :
  d <> Nil ->
  PyInt.digits_from_string (PyInt.chars_of_uint d) = Some (uint_value d 0).
Proof.
  intros Hd. unfold PyInt.digits_from_string.
  rewrite scan_digits_uint.
  pose proof (chars_of_uint_digits d) as Hall.
  destruct (PyInt.chars_of_uint d) as [|c r] eqn:E.
  { destruct d; simpl in E; congruence. }
  assert (Hlast : Ch.is_digit (List.last (c :: r) 0) = true).
  { rewrite forallb_forall in Hall. apply Hall.
    destruct (exists_last (l:=c :: r) ltac:(done)) as (l' & a & ->).
    rewrite last_last. apply in_or_app. right. by left. }
  assert (Hc : Ch.is_digit c = true) by (by apply andb_prop in Hall as [? _]).
  apply is_digit_range in Hlast, Hc. unfold Ch.UNDERSCORE.
  destruct (N.eqb_spec c 95); [lia|].
  destruct (N.eqb_spec (List.last (c :: r) 0) 95); [lia|].
  destruct (N.eqb_spec (List.last (c :: r) 0) 0); [lia|].
  reflexivity.
Qed.

Lemma str_plain (z : Z) : forallb plain (PyInt.str z) = true.
Proof.
  assert (H : forall d, forallb plain (PyInt.chars_of_uint d) = true).
  { intros d. pose proof (chars_of_uint_digits d) as Hd.
    rewrite forallb_forall in *. intros c Hc. unfold plain. by rewrite (Hd c Hc). }
  unfold PyInt.str. destruct (Z.to_int z); simpl; auto.
Qed.

Lemma plain_range (c : N) : plain c = true -> 45 <= c <= 57.
Proof.
  unfold plain. intros [H%is_digit_range|H%N.eqb_eq]%orb_prop; unfold Ch.HYPHEN in *; lia.
Qed.

Lemma transform_plain (s : pystr) :
  forallb plain s = true -> PyInt.transform_decimal_and_space U s = s.
Proof.
  induction s as [|c s IH]; simpl; [done|].
  intros [Hc%plain_range Hs]%andb_prop.
  destruct (N.ltb_spec c 127); [|lia]. by rewrite IH.
Qed.

Lemma long_from_string_str (z : Z) : PyInt.long_from_string (PyInt.str z) = Some z.
Proof.
  assert (Hpos : forall p,
            PyInt.digits_from_string (PyInt.chars_of_uint (Pos.to_uint p)) = Some (Npos p)).
  { intros p. rewrite digits_from_string_uint by apply Unsigned.to_uint_nonnil.
    by rewrite uint_value_0, Unsigned.of_to. }
  unfold PyInt.str, PyInt.long_from_string.
  destruct z as [|p|p]; [reflexivity| |]; simpl Z.to_int; cbv iota.
  - pose proof (chars_of_uint_digits (Pos.to_uint p)) as Hall.
    pose proof (Hpos p) as Hp.
    destruct (PyInt.chars_of_uint (Pos.to_uint p)) as [|c r]; [done|].
    apply andb_prop in Hall as [Hc%is_digit_range _].
    simpl Str.lstrip. unfold PyInt.c_isspace, Ch.SPACE, Ch.HYPHEN.
    destruct (N.leb_spec 9 c); [|lia]. destruct (N.leb_spec c 13); [lia|].
    destruct (N.eqb_spec c 32); [lia|]. simpl.
    destruct (N.eqb_spec c 43); [lia|]. destruct (N.eqb_spec c 45); [lia|].
    by rewrite Hp.
  - simpl. by rewrite Hpos.
Qed.

Lemma of_str_str (z : Z) : PyInt.of_str U (PyInt.str z) = Ok z.
Proof.
  unfold PyInt.of_str. rewrite transform_plain by apply str_plain.
  by rewrite long_from_string_str.
Qed.

Lemma split_no_sep (p : N -> bool) (a : pystr) :
  forallb (fun c => negb (p c)) a = true -> Str.split p a = [a].
Proof.
  induction a as [|c a IH]; simpl; [done|].
  intros [Hc%negb_true_iff Ha]%andb_prop. by rewrite Hc, IH.
Qed.

Lemma split_app_sep (p : N -> bool) (a rest : pystr) (c : N) :
  forallb (fun c => negb (p c)) a = true -> p c = true ->
  Str.split p (a ++ c :: rest) = a :: Str.split p rest.
Proof.
  intros Ha Hc. induction a as [|x a IH]; simpl.
  - by rewrite Hc.
  - simpl in Ha. apply andb_prop in Ha as [Hx%negb_true_iff Ha].
    by rewrite Hx, IH.
Qed.

Lemma plain_no_colon (s : pystr) :
  forallb plain s = true -> forallb (fun c => negb (Ch.COLON =? c)) s = true.
Proof.
  rewrite !forallb_forall. intros H c Hc. apply H in Hc. apply plain_range in Hc.
  unfold Ch.COLON. destruct (N.eqb_spec 58 c); [lia|done].
Qed.

Lemma split_callback_data (search_id i : Z) :
  Str.split (N.eqb Ch.COLON)
    (pys "track:get:" ++ PyInt.str search_id ++ pys ":" ++ PyInt.str i)
  = [pys "track"; pys "get"; PyInt.str search_id; PyInt.str i].
Proof.
  change (pys "track:get:" ++ PyInt.str search_id ++ pys ":" ++ PyInt.str i)
    with (pys "track" ++ Ch.COLON :: pys "get" ++ Ch.COLON ::
          PyInt.str search_id ++ Ch.COLON :: PyInt.str i).
  rewrite !split_app_sep, split_no_sep;
    try reflexivity; apply plain_no_colon, str_plain.
Qed.

Lemma list_getitem_nat {A} (l : list A) (i : nat) (x : A) :
  l !! i = Some x -> Py.list_getitem l (Z.of_nat i) = Ok x.
Proof.
  intros H. pose proof (lookup_lt_Some _ _ _ H) as Hlt.
  unfold Py.list_getitem.
  destruct (Z.ltb_spec (Z.of_nat i) 0); [lia|].
  destruct (Z.ltb_spec (Z.of_nat i) 0); [lia|].
  destruct (Z.leb_spec (Z.of_nat (length l)) (Z.of_nat i)); [lia|].
  simpl. by rewrite Nat2Z.id, H.
Qed.

Lemma enumerate_from_lookup {A} (l : list A) (k : Z) (i : nat) :
  Py.enumerate_from k l !! i = (fun x => ((k + Z.of_nat i)%Z, x)) <$> l !! i.
Proof.
  revert k i. induction l as [|a l IH]; intros k i; [by destruct i|].
  destruct i as [|i]; simpl.
  - by rewrite Z.add_0_r.
  - rewrite IH. destruct (l !! i); simpl; [|done].
    do 2 f_equal. lia.
Qed.

Lemma enumerate_from_length {A} (l : list A) (k : Z) :
  length (Py.enumerate_from k l) = length l.
Proof. revert k. induction l as [|a l IH]; intros k; simpl; [done|]. by rewrite IH. Qed.
End IntegerFacts.

Section KeyboardFacts.
Variable U : Unicode.

Lemma keyboard_length (tracks : list Track) (search_id : Z) :
  length (inline_keyboard (get_search_results_keyboard tracks search_id))
  = Nat.min (length tracks) 10.
Proof.
  unfold get_search_results_keyboard, Py.enumerate, slice_to. simpl.
  rewrite length_map, enumerate_from_length, length_take. lia.
Qed.

Lemma keyboard_row (tracks : list Track) (search_id : Z) (i : nat) :
  inline_keyboard (get_search_results_keyboard tracks search_id) !! i
  = (fun track =>
       [ {| text := PyInt.str (Z.of_nat i + 1) ++ pys ". " ++ Py.str (performer track)
                      ++ pys " - " ++ Py.str (title track);
            callback_data := pys "track:get:" ++ PyInt.str search_id
                               ++ pys ":" ++ PyInt.str (Z.of_nat i) |} ])
    <$> (if decide (i < 10)%nat then tracks !! i else None).
Proof.
  unfold get_search_results_keyboard, Py.enumerate, slice_to. simpl.
  rewrite list_lookup_fmap, enumerate_from_lookup.
  case_decide.
  - rewrite lookup_take_lt by done. by destruct (tracks !! i).
  - rewrite lookup_take_ge by lia. done.
Qed.

Lemma callback_finds_track (search_history : gmap Z (list Track)) (tracks : list Track)
    (search_id : Z) (i : nat) (track : Track) :
  search_history !! search_id = Some tracks ->
  tracks !! i = Some track ->
  track_callback_handler U search_history
    (pys "track:get:" ++ PyInt.str search_id ++ pys ":" ++ PyInt.str (Z.of_nat i))
  = SendTrack track.
Proof.
  intros Hh Ht. unfold track_callback_handler.
  rewrite split_callback_data.
  set (data := [pys "track"; pys "get"; PyInt.str search_id; PyInt.str (Z.of_nat i)]).
  rewrite (list_getitem_nat data 1 (pys "get") eq_refl : Py.list_getitem data 1 = _).
  rewrite (list_getitem_nat data 2 (PyInt.str search_id) eq_refl
             : Py.list_getitem data 2 = _).
  rewrite (list_getitem_nat data 3 (PyInt.str (Z.of_nat i)) eq_refl
             : Py.list_getitem data 3 = _).
  cbn [mbind result_bind rbind]. rewrite !of_str_str.
  cbn [mbind result_bind rbind]. rewrite Hh.
  rewrite bool_decide_eq_true_2 by reflexivity.
  cbn [mbind result_bind rbind].
  by rewrite (list_getitem_nat _ _ _ Ht).
Qed.
End KeyboardFacts.

Section SavedResults.
Variable U : Unicode.

Lemma rows_of_one {A B} (f : A -> list B) (l : list A) :
  (forall x, length (f x) = 1%nat) ->
  length (concat (map f l)) = length (map f l).
Proof.
  intros Hf. induction l as [|x l IH]; simpl; [done|].
  rewrite length_app, Hf, IH. done.
Qed.

Lemma keyboard_button_count (tracks : list Track) (search_id : Z) :
  length (concat (inline_keyboard (get_search_results_keyboard tracks search_id)))
  = Nat.min (length tracks) 10.
Proof.
  rewrite <- keyboard_length with (search_id := search_id).
  unfold get_search_results_keyboard. simpl.
  apply rows_of_one. by intros [i t].
Qed.

(** A result set filed by a handler is found again by every button of the
    keyboard sent with it. *)
Lemma saved_results_found (search_history : gmap Z (list Track)) (tracks : list Track)
    (i : nat) (track : Track) :
  (i < 10)%nat -> tracks !! i = Some track ->
  let '(search_history', keyboard) := save_results search_history tracks in
  exists button,
    inline_keyboard keyboard !! i = Some [button]
    /\ track_callback_handler U search_history' (callback_data button) = SendTrack track.
Proof.
  intros Hi Ht. unfold save_results.
  eexists. rewrite keyboard_row, decide_True, Ht by done. split; [reflexivity|].
  simpl. apply callback_finds_track with tracks; [|done].
  apply lookup_insert_eq.
Qed.
End SavedResults.

(** * The specification's properties, one by one *)

(** C1 (observed on the code).  The client is connected and the server
    refuses every connection: [search] and [get_top_hits] make their three
    attempts and what escapes is tenacity's [RetryError], around the
    [MusicServiceError] the body raised, not that [MusicServiceError].  A
    page without the playlist element escapes the same way, as a
    [RetryError] around a [TypeError]. *)
Theorem search_failure_escapes_as_RetryError :
  fst (search ascii_only reads_two_items connected (pys "Daft Punk") refusing)
  = Err (RetryError (MusicServiceError
           (pys "Failed to search music: Cannot connect to host")))
  /\ fst (get_top_hits ascii_only reads_two_items connected refusing)
     = Err (RetryError (MusicServiceError
              (pys "Failed to search music: Cannot connect to host")))
  /\ fst (search ascii_only (fun _ => tag "[document]" [] []) connected
            (pys "Daft Punk") (serving ok_page))
     = Err (RetryError (TypeError (pys "Could not find playlist element"))).
Proof. repeat split; vm_compute; reflexivity. Qed.

(** C2 (observed on the code).  The server advertises 60_000_000 bytes:
    [get_audio_bytes] never reads the body, but it asks three times, with
    the waits in between, and what escapes is a [RetryError] around the
    "File too large" [MusicServiceError]. *)
Theorem oversized_audio_escapes_as_RetryError :
  fst (get_audio_bytes connected sample_track (serving (audio (Some 60000000%Z))))
  = Err (RetryError (MusicServiceError (pys "File too large: 60000000 bytes")))
  /\ trace (snd (get_audio_bytes connected sample_track
                   (serving (audio (Some 60000000%Z)))))
     = [EvGet (audio_url sample_track) 30; EvSleep 1;
        EvGet (audio_url sample_track) 30; EvSleep 2;
        EvGet (audio_url sample_track) 30].
Proof. split; vm_compute; reflexivity. Qed.

(** C3.  A client is disconnected when it was just built and when
    [disconnect] has returned; on a disconnected client [search] fails with
    [MusicServiceError] and leaves the world as it was: no request is made
    and nothing is added to the trace. *)
Theorem search_disconnected (U : Unicode) (html_parser : pystr -> Bs4.node)
    (DEFAULT_HEADERS : gmap pystr pystr) (config : option ServiceConfig)
    (self : Music) (keyword : pystr) (w : world) :
  _session (Music_init DEFAULT_HEADERS config) = None
  /\ (forall self' w', disconnect self w = (Ok self', w') -> _session self' = None)
  /\ (_session self = None ->
      search U html_parser self keyword w
      = (Err (MusicServiceError (pys "Failed to initialize session")), w)).
Proof.
  split; [reflexivity|]. split.
  - intros self' w'. unfold disconnect.
    destruct (_session self) eqn:E.
    + unfold io_bind, emit, io_ret. by intros [= <- _].
    + unfold io_ret. by intros [= <- _].
  - intros H. unfold search. by rewrite H.
Qed.

Lemma search_disconnected_witness :
  _session (Music_init ∅ None) = None
  /\ search ascii_only reads_two_items (Music_init ∅ None) (pys "Daft Punk") (serving ok_page)
     = (Err (MusicServiceError (pys "Failed to initialize session")), serving ok_page).
Proof.
  split; [reflexivity|].
  apply (search_disconnected ascii_only reads_two_items ∅ None (Music_init ∅ None)
           (pys "Daft Punk") (serving ok_page)).
  reflexivity.
Defined.

(** C4.  When one item of the playlist, wherever it stands among the
    others, has no performer element, no title element or no play control,
    parsing the page raises one of the parser's exceptions and no list of
    tracks is returned. *)
Theorem malformed_item_fails_page (U : Unicode) (soup playlist item : Bs4.node) :
  Bs4.find (fun n => Bs4.has_name (pys "ul") n && Bs4.has_class (pys "playlist") n) soup
    = Some playlist ->
  In item (Bs4.find_all (Bs4.has_name (pys "li")) playlist) ->
  lacks_required item ->
  exists e, parse_playlist U soup = Err e /\ is_parse_error e = true.
Proof.
  intros Hpl Hin Hlack. unfold parse_playlist. rewrite Hpl.
  destruct playlist as [s|nm cl at_ cs].
  { unfold Bs4.find in Hpl. apply find_some in Hpl as [_ Hpl]. done. }
  destruct (comprehension_fails (from_element U) _ item Hin
              (fun i => from_element_lacks U item i Hlack) 0%Z)
    as (e & y & j & He & _ & Hy).
  exists e. split; [exact He|]. by apply from_element_err in Hy.
Qed.

Lemma malformed_item_fails_page_witness :
  In (item_without_title "Air" "https://cdn.example/1.mp3")
     (Bs4.find_all (Bs4.has_name (pys "li")) (tag "ul" ["playlist"%string]
        [ item "Daft Punk" "Around the World" "https://cdn.example/0.mp3";
          item_without_title "Air" "https://cdn.example/1.mp3";
          item "Justice" "Genesis" "https://cdn.example/2.mp3" ]))
  /\ lacks_required (item_without_title "Air" "https://cdn.example/1.mp3")
  /\ exists e, parse_playlist ascii_only page_item1_malformed = Err e
               /\ is_parse_error e = true.
Proof.
  assert (Hin : In (item_without_title "Air" "https://cdn.example/1.mp3")
     (Bs4.find_all (Bs4.has_name (pys "li")) (tag "ul" ["playlist"%string]
        [ item "Daft Punk" "Around the World" "https://cdn.example/0.mp3";
          item_without_title "Air" "https://cdn.example/1.mp3";
          item "Justice" "Genesis" "https://cdn.example/2.mp3" ]))).
  { vm_compute. right. left. reflexivity. }
  assert (Hlack : lacks_required (item_without_title "Air" "https://cdn.example/1.mp3")).
  { right. left. vm_compute. reflexivity. }
  split; [exact Hin|]. split; [exact Hlack|].
  apply (malformed_item_fails_page ascii_only page_item1_malformed _ _
           ltac:(vm_compute; reflexivity) Hin Hlack).
Defined.

(** C5, as stated, fails: an item whose performer element is empty and
    whose title element holds only spaces makes a track, and both fields of
    that track are the empty string. *)
Lemma blank_title_and_performer :
  exists t, from_element ascii_only item_blank 0 = Ok t
            /\ title t = PStr [] /\ performer t = PStr [].
Proof. eexists. split; [vm_compute; reflexivity|]. split; reflexivity. Qed.

(** C5, amended.  A track made from a markup item has, as performer and
    title, the trimmed texts of the item's performer and title elements;
    each is the empty string exactly when that text has nothing but
    whitespace; and the name is the performer, then " - ", then the
    title. *)
Theorem from_element_fields (U : Unicode) (element : Bs4.node) (i : Z) (t : Track) :
  from_element U element i = Ok t ->
  exists artist_name_element track_name_element,
    Bs4.find (Bs4.has_class (pys "playlist-name-artist")) element = Some artist_name_element
    /\ Bs4.find (Bs4.has_class (pys "playlist-name-title")) element = Some track_name_element
    /\ performer t = PStr (Str.strip U (Bs4.text artist_name_element))
    /\ title t = PStr (Str.strip U (Bs4.text track_name_element))
    /\ name t = PStr (Str.strip U (Bs4.text artist_name_element) ++ pys " - "
                        ++ Str.strip U (Bs4.text track_name_element))
    /\ (performer t = PStr [] <->
          forallb (Ch.isspace U) (Bs4.text artist_name_element) = true)
    /\ (title t = PStr [] <->
          forallb (Ch.isspace U) (Bs4.text track_name_element) = true).
Proof.
  unfold from_element. intros H.
  destruct (Bs4.find (Bs4.has_class (pys "playlist-name-artist")) element) as [a|]; [|done].
  destruct (Bs4.find (Bs4.has_class (pys "playlist-name-title")) element) as [tt|]; [|done].
  destruct (Bs4.find (Bs4.has_class (pys "playlist-play")) element) as [[|? ? ? ?]|]; try done.
  injection H as <-. exists a, tt. simpl. repeat split; try done.
  - intros [= E]. by apply strip_nil_iff.
  - intros E. f_equal. by apply strip_nil_iff.
  - intros [= E]. by apply strip_nil_iff.
  - intros E. f_equal. by apply strip_nil_iff.
Qed.

Lemma from_element_fields_witness :
  exists t, from_element ascii_only (item " Daft Punk " "Around the World" "u") 0 = Ok t
    /\ performer t = PStr (pys "Daft Punk")
    /\ title t = PStr (pys "Around the World")
    /\ name t = PStr (pys "Daft Punk - Around the World").
Proof.
  eexists. split; [vm_compute; reflexivity|].
  destruct (from_element_fields ascii_only (item " Daft Punk " "Around the World" "u") 0 _
              ltac:(vm_compute; reflexivity))
    as (a & tt & Ha & Ht & Hp & Hti & Hn & _).
  vm_compute in Ha, Ht. injection Ha as <-. injection Ht as <-.
  split; [rewrite Hp|split; [rewrite Hti|rewrite Hn]]; vm_compute; reflexivity.
Defined.

(** C6, as stated, fails in its last clause: the idna codec does not fail
    on the empty slug.  It encodes the empty string to the empty string, so
    the [except UnicodeError] branch, the fallback to the raw slug, is not
    the one taken. *)
Lemma empty_slug_is_encoded :
  slug ascii_only (pys "?!...") = []
  /\ Idna.encode ascii_only (slug ascii_only (pys "?!...")) = Ok []
  /\ (Idna.encode ascii_only (slug ascii_only (pys "?!...")) ≫= Idna.decode_ascii)
     <> Err UnicodeError.
Proof. by vm_compute. Qed.

(** C6, amended.  A keyword without any word character or whitespace gives
    the URL "https://." followed by the base domain, and no exception: the
    slug is empty, the idna codec encodes it, without failing, to the empty
    string, and that empty string, not a fallback, is the subdomain. *)
Theorem punctuation_only_query (U : Unicode) (keyword : pystr) :
  (forall c, In c keyword -> Ch.isword U c = false /\ Ch.isspace U c = false) ->
  slug U keyword = []
  /\ (Idna.encode U (slug U keyword) ≫= Idna.decode_ascii) = Ok []
  /\ build_search_query U keyword = Ok (pys "https://." ++ BASE_URL).
Proof.
  intros H.
  assert (Hs : slug U keyword = []).
  { unfold slug. by rewrite (re_sub_nil U keyword H). }
  split; [exact Hs|]. unfold build_search_query. rewrite Hs. by split.
Qed.

Lemma punctuation_only_query_witness :
  (forall c, In c (pys "?!...") ->
     Ch.isword ascii_only c = false /\ Ch.isspace ascii_only c = false)
  /\ (Idna.encode ascii_only (slug ascii_only (pys "?!...")) ≫= Idna.decode_ascii) = Ok []
  /\ build_search_query ascii_only (pys "?!...") = Ok (pys "https://.vuxo7.com").
Proof.
  assert (H : forall c, In c (pys "?!...") ->
                Ch.isword ascii_only c = false /\ Ch.isspace ascii_only c = false).
  { intros c Hc. vm_compute in Hc.
    repeat (destruct Hc as [<-|Hc]; [split; reflexivity|]). destruct Hc. }
  split; [exact H|].
  exact (proj2 (punctuation_only_query ascii_only (pys "?!...") H)).
Defined.

(** C7, as stated, fails: two spaces between the words give two hyphens
    where the specification's slug has one. *)
Lemma slug_differs_from_spec :
  slug ascii_only (pys "Daft  Punk") = pys "daft--punk"
  /\ slug_spec ascii_only (pys "Daft  Punk") = pys "daft-punk"
  /\ slug ascii_only (pys "Daft  Punk") <> slug_spec ascii_only (pys "Daft  Punk").
Proof. split; [|split]; by vm_compute. Qed.

(** C7, amended.  The code replaces space characters, not whitespace
    runs.  The slug is the specification's, with one hyphen for each
    whitespace run, exactly when the keyword, stripped of what is neither a
    word character nor whitespace, trimmed and lower-cased, has no
    whitespace but single spaces.  For a keyword of ASCII words with spaces
    and punctuation between them, the slug is the lower-cased words with,
    between two of them, as many hyphens as there were spaces between
    them; it is the specification's exactly when no two words have more
    than one space between them. *)
Theorem slug_replaces_each_space (U : Unicode) (keyword : pystr) :
  let t := Str.lower U (Str.strip U (Str.re_sub_not_word_not_space U keyword)) in
  (slug U keyword = slug_spec U keyword <-> single_spaces (Ch.isspace U) t = true)
  /\ forall first rest,
       keyword = words_text first rest ->
       ascii_word first = true ->
       separated_words U rest ->
       slug U keyword
       = words_text (map Ch.ascii_lower first)
           (map (fun '(sep, word) =>
                   (repeat Ch.HYPHEN (spaces sep), map Ch.ascii_lower word)) rest)
       /\ (slug U keyword = slug_spec U keyword
           <-> Forall (fun '(sep, _) => (spaces sep <= 1)%nat) rest).
Proof.
  intros t. split.
  - unfold slug, slug_spec. apply slug_spec_iff.
  - intros first rest -> Hf Hr. split; [by apply slug_words|by apply slug_spec_words].
Qed.

Lemma slug_replaces_each_space_witness :
  slug ascii_only (pys "Daft Punk") = pys "daft-punk"
  /\ slug ascii_only (pys "Daft Punk") = slug_spec ascii_only (pys "Daft Punk")
  /\ slug ascii_only (pys "a - b") = pys "a--b"
  /\ slug ascii_only (pys "a - b") <> slug_spec ascii_only (pys "a - b")
  /\ build_search_query ascii_only (pys "Daft Punk") = Ok (pys "https://daft-punk.vuxo7.com").
Proof.
  destruct (slug_replaces_each_space ascii_only (pys "Daft Punk")) as [_ H].
  destruct (H (pys "Daft") [(pys " ", pys "Punk")]) as [Hs Hiff];
    [reflexivity|reflexivity|by repeat constructor|].
  destruct (slug_replaces_each_space ascii_only (pys "a - b")) as [_ H'].
  destruct (H' (pys "a") [(pys " - ", pys "b")]) as [Hs' Hiff'];
    [reflexivity|reflexivity|by repeat constructor|].
  split; [exact Hs|]. split; [apply Hiff; repeat constructor|].
  split; [exact Hs'|]. split; [|by vm_compute].
  intros Heq. apply Hiff' in Heq. apply Forall_cons in Heq as [Heq _].
  vm_compute in Heq. lia.
Defined.

(** C8.  In the list a successful [search] or [get_top_hits] returns, the
    track at position [i] has index [i]: the indices are 0, 1, 2, ... in
    order. *)
Theorem result_set_indices (U : Unicode) (html_parser : pystr -> Bs4.node)
    (self : Music) (keyword : pystr) (w w' : world) (tracks : list Track) :
  search U html_parser self keyword w = (Ok tracks, w')
  \/ get_top_hits U html_parser self w = (Ok tracks, w') ->
  (forall i t, tracks !! i = Some t -> index t = Z.of_nat i)
  /\ map index tracks = seqZ 0 (Z.of_nat (length tracks)).
Proof.
  intros H.
  assert (Hsoup : exists soup, parse_playlist U soup = Ok tracks).
  { destruct H as [H|H].
    - unfold search in H. destruct (_session self); [|done].
      unfold io_bind, io_lift in H.
      destruct (build_search_query U keyword) as [url|e]; [|done].
      by apply _parse_tracks_ok in H.
    - by apply _parse_tracks_ok in H. }
  destruct Hsoup as [soup Hsoup].
  pose proof (parse_playlist_index U soup tracks Hsoup) as Hidx.
  split; [exact Hidx|].
  apply list_eq. intros i. rewrite list_lookup_fmap.
  destruct (tracks !! i) as [t|] eqn:Et; simpl.
  - rewrite (Hidx i t Et). symmetry.
    apply lookup_lt_Some in Et.
    rewrite lookup_seqZ. split; lia.
  - symmetry. apply lookup_ge_None in Et.
    apply lookup_seqZ_ge. lia.
Qed.

Lemma result_set_indices_witness :
  exists tracks w',
    search ascii_only reads_two_items connected (pys "Daft Punk") (serving ok_page)
      = (Ok tracks, w')
    /\ length tracks = 2%nat
    /\ map index tracks = [0; 1]%Z.
Proof.
  eexists _, _. split; [vm_compute; reflexivity|]. split; [reflexivity|].
  refine (eq_trans (proj2 (result_set_indices ascii_only reads_two_items connected
            (pys "Daft Punk") (serving ok_page) _ _ (or_introl _))) _).
  - vm_compute. reflexivity.
  - reflexivity.
Defined.

(** C9.  [from_dict] on the mapping of a track's own fields gives that
    track back. *)
Theorem from_dict_of_own_fields (U : Unicode) (t : Track) :
  from_dict U (Track_fields t) = Ok t.
Proof.
  destruct t as [i n ti p a].
  unfold from_dict, Track_fields, Py.getitem. simpl.
  repeat (rewrite ?lookup_insert_eq; rewrite ?lookup_insert_ne by (by vm_compute); simpl).
  reflexivity.
Qed.

(** C10.  The keyboard has min(len(tracks), 10) rows of one button each;
    the button of row [i] carries "track:get:{search_id}:{i}"; that string
    passes the filter of the callback handler, and the handler, given it
    and a history that holds the tracks under [search_id], picks the track
    at position [i]. *)
Theorem keyboard_offers_first_ten (U : Unicode) (tracks : list Track) (search_id : Z) :
  let keyboard := inline_keyboard (get_search_results_keyboard tracks search_id) in
  length keyboard = Nat.min (length tracks) 10
  /\ length (concat keyboard) = Nat.min (length tracks) 10
  /\ forall i, (i < Nat.min (length tracks) 10)%nat ->
       exists track button,
         tracks !! i = Some track
         /\ keyboard !! i = Some [button]
         /\ callback_data button
            = pys "track:get:" ++ PyInt.str search_id ++ pys ":" ++ PyInt.str (Z.of_nat i)
         /\ track_callback_filter (callback_data button) = true
         /\ forall search_history : gmap Z (list Track),
              search_history !! search_id = Some tracks ->
              track_callback_handler U search_history (callback_data button)
              = SendTrack track.
Proof.
  intros keyboard. split; [apply keyboard_length|].
  split; [apply keyboard_button_count|].
  intros i Hi.
  destruct (lookup_lt_is_Some_2 tracks i ltac:(lia)) as [track Ht].
  eexists track, _. split; [exact Ht|]. split.
  - unfold keyboard. rewrite keyboard_row, decide_True by lia. by rewrite Ht.
  - split; [reflexivity|]. split; [reflexivity|].
    intros h Hh. by apply callback_finds_track with tracks.
Qed.

Lemma keyboard_offers_first_ten_witness :
  length (inline_keyboard (get_search_results_keyboard (replicate 12 sample_track) 7)) = 10%nat
  /\ exists button,
       inline_keyboard (get_search_results_keyboard (replicate 12 sample_track) 7) !! 9%nat
         = Some [button]
       /\ callback_data button = pys "track:get:7:9"
       /\ track_callback_handler ascii_only {[ 7%Z := replicate 12 sample_track ]}
            (pys "track:get:7:9") = SendTrack sample_track.
Proof.
  destruct (keyboard_offers_first_ten ascii_only (replicate 12 sample_track) 7)
    as (Hlen & _ & Hrow).
  split; [exact Hlen|].
  destruct (Hrow 9%nat ltac:(vm_compute; lia)) as (track & button & Ht & Hb & Hd & _ & Hh).
  exists button. split; [exact Hb|]. split; [exact Hd|].
  injection Ht as <-. change (pys "track:get:7:9") with
    (pys "track:get:" ++ PyInt.str 7 ++ pys ":" ++ PyInt.str (Z.of_nat 9)).
  rewrite <- Hd. apply Hh. reflexivity.
Defined.

(** * Further properties of the code *)

(** ** The session of a client *)

Section SessionFacts.
Variable U : Unicode.
Variable html_parser : pystr -> Bs4.node.

Lemma after_0_nil (w : world) : after w 0 [] = w.
Proof. destruct w. unfold after. simpl. by rewrite app_nil_r. Qed.

Lemma after_after (w : world) (n m : nat) (e1 e2 : list event) :
  after (after w n e1) m e2 = after w (m + n) (e1 ++ e2).
Proof. unfold after. simpl. by rewrite Nat.add_assoc, app_assoc. Qed.

Lemma after_eq (w : world) (n m : nat) (e1 e2 : list event) :
  n = m -> e1 = e2 -> after w n e1 = after w m e2.
Proof. by intros -> ->. Qed.

(** [async with] on a client without a session. *)
Lemma async_with_run {A} (self : Music) (block : Music -> io A) (w : world) :
  _session self = None ->
  let music := {| _config := _config self;
                  _session := Some {| session_headers := headers (_config self) |} |} in
  let '(r, w2) := block music (after w 0 [EvOpenSession]) in
  async_with self block w = (r, after w2 0 [EvCloseSession]).
Proof.
  intros Hs music. unfold async_with, __aenter__, __aexit__, connect. rewrite Hs.
  unfold io_bind, emit, io_ret. simpl.
  change {| net := net w; requests := requests w; trace := trace w ++ [EvOpenSession] |}
    with (after w 0 [EvOpenSession]).
  fold music. destruct (block music (after w 0 [EvOpenSession])) as [r w2].
  unfold disconnect. simpl. unfold io_bind, emit, io_ret. simpl.
  reflexivity.
Qed.
End SessionFacts.

(** X1.  [connect] never fails and leaves a client with a session and the
    same configuration; a client that has a session is left untouched and
    nothing happens in the world, so a second [connect] is a no-op. *)
Theorem connect_idempotent (self : Music) (w : world) :
  exists self1 w1,
    connect self w = (Ok self1, w1)
    /\ _session self1 <> None
    /\ _config self1 = _config self
    /\ (_session self = None ->
        _session self1 = Some {| session_headers := headers (_config self) |}
        /\ w1 = after w 0 [EvOpenSession])
    /\ (_session self <> None -> self1 = self /\ w1 = w)
    /\ connect self1 w1 = (Ok self1, w1).
Proof.
  unfold connect. destruct self as [cfg [s|]]; simpl.
  - exists {| _config := cfg; _session := Some s |}, w. repeat split; done.
  - eexists _, _. split; [reflexivity|]. simpl. repeat split; done.
Qed.

Lemma connect_idempotent_witness :
  (do c <- connect (Music_init ∅ None); connect c) refusing
  = (Ok {| _config := ServiceConfig_default ∅;
           _session := Some {| session_headers := ∅ |} |},
     after refusing 0 [EvOpenSession]).
Proof.
  destruct (connect_idempotent (Music_init ∅ None) refusing)
    as (self1 & w1 & H1 & _ & _ & Hnew & _ & H2).
  destruct (Hnew eq_refl) as [Hs ->].
  unfold io_bind. rewrite H1, H2. f_equal.
  destruct self1 as [cfg s]. vm_compute in H1. by injection H1 as <- <-.
Defined.

(** X2.  [disconnect] never fails and leaves a client without a session;
    on a client without a session it does nothing; and connecting a fresh
    client and disconnecting it gives the fresh client back, with one
    session opened and closed and no request made. *)
Theorem connect_disconnect_round_trip (self : Music) (w : world) :
  (exists self1 w1,
     disconnect self w = (Ok self1, w1)
     /\ _session self1 = None
     /\ requests w1 = requests w
     /\ disconnect self1 w1 = (Ok self1, w1))
  /\ (_session self = None ->
      disconnect self w = (Ok self, w)
      /\ (do c <- connect self; disconnect c) w
         = (Ok self, after w 0 [EvOpenSession; EvCloseSession])).
Proof.
  split.
  - unfold disconnect. destruct self as [cfg [s|]]; simpl.
    + eexists _, _. split; [reflexivity|]. by simpl.
    + eexists _, _. split; [reflexivity|]. by simpl.
  - destruct self as [cfg s]. simpl. intros ->. split; [reflexivity|].
    cbv [io_bind connect disconnect emit io_ret after _session _config
         net requests trace].
    by rewrite <- app_assoc.
Qed.

Lemma connect_disconnect_round_trip_witness :
  (do c <- connect (Music_init ∅ None); disconnect c) refusing
  = (Ok (Music_init ∅ None), after refusing 0 [EvOpenSession; EvCloseSession]).
Proof.
  apply (connect_disconnect_round_trip (Music_init ∅ None) refusing). reflexivity.
Defined.

(** X3.  [async with] on a client without a session: the block runs on a
    connected client, its result or exception is what the statement gives,
    and the session is closed afterwards on either path. *)
Theorem async_with_closes {A} (self : Music) (block : Music -> io A) (w : world) :
  _session self = None ->
  let music := {| _config := _config self;
                  _session := Some {| session_headers := headers (_config self) |} |} in
  let '(r, w2) := block music (after w 0 [EvOpenSession]) in
  async_with self block w = (r, after w2 0 [EvCloseSession]).
Proof. apply async_with_run. Qed.

Lemma async_with_closes_witness :
  async_with (Music_init ∅ None)
    (fun music => search ascii_only reads_two_items music (pys "Daft Punk")) refusing
  = (Err (RetryError (MusicServiceError
            (pys "Failed to search music: Cannot connect to host"))),
     after refusing 3
       [EvOpenSession;
        EvGet (PStr (pys "https://daft-punk.vuxo7.com")) 30; EvSleep 1;
        EvGet (PStr (pys "https://daft-punk.vuxo7.com")) 30; EvSleep 2;
        EvGet (PStr (pys "https://daft-punk.vuxo7.com")) 30;
        EvCloseSession]).
Proof.
  pose proof (async_with_closes (Music_init ∅ None)
    (fun music => search ascii_only reads_two_items music (pys "Daft Punk")) refusing
    eq_refl) as H.
  simpl in H. rewrite H. vm_compute. reflexivity.
Defined.

(** ** Attempts, requests and waits *)

Section AttemptFacts.
Variable U : Unicode.
Variable html_parser : pystr -> Bs4.node.

Ltac run_io :=
  cbv [io_bind emit io_ret io_raise io_lift session_get raise_for_status read_body
       except_client_or_timeout after];
  cbn [net requests trace fst snd].

(** An attempt of [_parse_tracks] makes its request, reads the body at
    most once, and changes nothing else of the world. *)
Lemma _parse_tracks_wrapped_world (self : Music) (url : pystr) (w : world) :
  exists n events,
    snd (_parse_tracks_wrapped U html_parser self url w) = after w n events
    /\ attempt_events self (PStr url) n events.
Proof.
  unfold _parse_tracks_wrapped. destruct (_session self) as [s|] eqn:Es.
  - assert (Hs : _session self <> None) by by rewrite Es.
    run_io. destruct (net w (requests w) (PStr url)) as [e|r].
    + exists 1%nat, [EvGet (PStr url) (timeout (_config self))].
      split; [destruct e; run_io; reflexivity|]. by constructor.
    + destruct (400 <=? status r)%Z.
      * exists 1%nat, [EvGet (PStr url) (timeout (_config self))].
        split; [run_io; reflexivity|]. by constructor.
      * exists 1%nat, [EvGet (PStr url) (timeout (_config self)); EvRead].
        split; [|by constructor].
        destruct (body r) as [txt|e].
        -- run_io. destruct (parse_playlist U (html_parser txt)) as [ts|[]];
             run_io; by rewrite <- app_assoc.
        -- destruct e; run_io; by rewrite <- app_assoc.
  - exists 0%nat, []. rewrite after_0_nil. split; [reflexivity|]. by constructor.
Qed.

Lemma get_audio_bytes_wrapped_world (self : Music) (track : Track) (w : world) :
  exists n events,
    snd (get_audio_bytes_wrapped self track w) = after w n events
    /\ attempt_events self (audio_url track) n events.
Proof.
  unfold get_audio_bytes_wrapped. destruct (_session self) as [s|] eqn:Es.
  - assert (Hs : _session self <> None) by by rewrite Es.
    run_io. destruct (net w (requests w) (audio_url track)) as [e|r].
    + exists 1%nat, [EvGet (audio_url track) (timeout (_config self))].
      split; [destruct e; run_io; reflexivity|]. by constructor.
    + destruct (400 <=? status r)%Z.
      * exists 1%nat, [EvGet (audio_url track) (timeout (_config self))].
        split; [run_io; reflexivity|]. by constructor.
      * destruct (content_length r) as [n|];
          [destruct (negb (n =? 0)%Z && (max_size <? n)%Z)|].
        -- exists 1%nat, [EvGet (audio_url track) (timeout (_config self))].
           split; [run_io; reflexivity|]. by constructor.
        -- exists 1%nat, [EvGet (audio_url track) (timeout (_config self)); EvRead].
           split; [|by constructor].
           run_io. destruct (body r) as [?|[]]; run_io; by rewrite <- app_assoc.
        -- exists 1%nat, [EvGet (audio_url track) (timeout (_config self)); EvRead].
           split; [|by constructor].
           run_io. destruct (body r) as [?|[]]; run_io; by rewrite <- app_assoc.
  - exists 0%nat, []. rewrite after_0_nil. split; [reflexivity|]. by constructor.
Qed.

Lemma slept_app (a b : list event) : slept (a ++ b) = (slept a + slept b)%Z.
Proof. induction a as [|[] a IH]; simpl; lia. Qed.

Lemma reads_app (a b : list event) : reads (a ++ b) = (reads a + reads b)%nat.
Proof. induction a as [|[] a IH]; simpl; lia. Qed.

(** What an attempt amounts to. *)
Lemma attempt_events_bounds (self : Music) (url : pyval) (n : nat) (events : list event) :
  attempt_events self url n events ->
  (n <= 1)%nat /\ slept events = 0%Z /\ (reads events <= n)%nat
  /\ (_session self <> None -> n = 1%nat)
  /\ ~ In EvOpenSession events /\ ~ In EvCloseSession events.
Proof.
  intros [Hs|Hs|Hs]; simpl; repeat split; try lia; try done;
    intros H; decompose [or] H; discriminate || done.
Qed.

(** What the attempts of one operation amount to. *)
Lemma retried_events_bounds (self : Music) (url : pyval) (n : nat) (events : list event) :
  retried_events self url n events ->
  (n <= 3)%nat /\ (0 <= slept events <= 3)%Z /\ (reads events <= n)%nat
  /\ (_session self <> None -> (1 <= n)%nat)
  /\ ~ In EvOpenSession events /\ ~ In EvCloseSession events.
Proof.
  intros [n1 e1 H1|n1 e1 n2 e2 H1 H2|n1 e1 n2 e2 n3 e3 H1 H2 H3];
    repeat match goal with
           | H : attempt_events _ _ _ _ |- _ =>
               apply attempt_events_bounds in H as (? & ? & ? & ? & ? & ?)
           end;
    repeat (rewrite ?slept_app, ?reads_app; cbn [slept reads]);
    repeat split; try lia;
    try (intros Hs; repeat match goal with
                           | H : _session self <> None -> _ |- _ => specialize (H Hs)
                           end; lia);
    rewrite ?in_app_iff; cbn [In]; rewrite ?in_app_iff; cbn [In];
    intros H'; decompose [or] H'; done.
Qed.

(** The decorator around an operation whose attempts are attempts at
    [url]: one, two or three of them, with the waits in between. *)
Lemma retry_policy_world {A} (self : Music) (url : pyval) (fn : io A) (w : world) :
  (forall w0, exists n events,
      snd (fn w0) = after w0 n events /\ attempt_events self url n events) ->
  exists n events,
    snd (retry_policy fn w) = after w n events /\ retried_events self url n events.
Proof.
  intros Hfn. unfold retry_policy, Tenacity.retry. simpl.
  destruct (Hfn w) as (n1 & e1 & H1 & Ha1).
  destruct (fn w) as [[a|x1] w1]; simpl in H1; subst w1.
  { exists n1, e1. split; [done|by constructor]. }
  unfold io_bind at 1. unfold emit at 1.
  change {| net := net (after w n1 e1); requests := requests (after w n1 e1);
            trace := trace (after w n1 e1) ++ [EvSleep (Tenacity.wait_exponential 1 1 5 1)] |}
    with (after (after w n1 e1) 0 [EvSleep 1]).
  rewrite after_after.
  set (w1 := after w (0 + n1) (e1 ++ [EvSleep 1%Z])).
  destruct (Hfn w1) as (n2 & e2 & H2 & Ha2).
  destruct (fn w1) as [[a|x2] w2]; simpl in H2; subst w2.
  { unfold w1. rewrite after_after.
    exists (n1 + n2)%nat, (e1 ++ EvSleep 1 :: e2). split; [|by constructor].
    apply after_eq; [lia|by rewrite <- app_assoc]. }
  unfold io_bind at 1. unfold emit at 1.
  change {| net := net (after w1 n2 e2); requests := requests (after w1 n2 e2);
            trace := trace (after w1 n2 e2) ++ [EvSleep (Tenacity.wait_exponential 1 1 5 2)] |}
    with (after (after w1 n2 e2) 0 [EvSleep 2]).
  rewrite after_after.
  set (w2 := after w1 (0 + n2) (e2 ++ [EvSleep 2%Z])).
  destruct (Hfn w2) as (n3 & e3 & H3 & Ha3).
  exists (n1 + n2 + n3)%nat, (e1 ++ EvSleep 1 :: e2 ++ EvSleep 2 :: e3).
  split; [|by constructor].
  destruct (fn w2) as [[a|x3] w3]; simpl in H3; subst w3;
    unfold w2, w1; rewrite !after_after; cbn [snd];
    (apply after_eq; [lia|by rewrite <- !app_assoc]).
Qed.

(** What one attempt of [_parse_tracks] gives when the request fails in
    the network. *)
Lemma attempt_refused (self : Music) (url : pystr) (w : world) (e : exn) (msg : pystr) :
  _session self <> None ->
  net w (requests w) (PStr url) = Refused e ->
  e = ClientError msg \/ e = TimeoutError msg ->
  _parse_tracks_wrapped U html_parser self url w
  = (Err (MusicServiceError (pys "Failed to search music: " ++ msg)),
     after w 1 [EvGet (PStr url) (timeout (_config self))]).
Proof.
  intros Hs Hnet He. unfold _parse_tracks_wrapped.
  destruct (_session self); [|done]. run_io. rewrite Hnet.
  by destruct He as [-> | ->].
Qed.

(** What one attempt of [_parse_tracks] gives on a page that parses. *)
Lemma attempt_parsed (self : Music) (url : pystr) (w : world) (r : response)
    (page_text : pystr) (tracks : list Track) :
  _session self <> None ->
  net w (requests w) (PStr url) = Responded r ->
  (status r < 400)%Z ->
  body r = Ok page_text ->
  parse_playlist U (html_parser page_text) = Ok tracks ->
  _parse_tracks_wrapped U html_parser self url w
  = (Ok tracks, after w 1 [EvGet (PStr url) (timeout (_config self)); EvRead]).
Proof.
  intros Hs Hnet Hst Hb Hp. unfold _parse_tracks_wrapped.
  destruct (_session self); [|done]. run_io. rewrite Hnet.
  destruct (Z.leb_spec 400 (status r)); [lia|]. run_io.
  rewrite Hb. run_io. rewrite Hp. by rewrite <- app_assoc.
Qed.
End AttemptFacts.

(** X4.  On a client without a session, [get_top_hits] and
    [get_audio_bytes] make no request at all, yet go through the three
    attempts with their waits of 1 and 2 seconds, and raise [RetryError]
    around the "Failed to initialize session" error. *)
Theorem no_session_is_retried (U : Unicode) (html_parser : pystr -> Bs4.node)
    (self : Music) (track : Track) (w : world) :
  _session self = None ->
  get_top_hits U html_parser self w
  = (Err (RetryError (MusicServiceError (pys "Failed to initialize session"))),
     after w 0 [EvSleep 1; EvSleep 2])
  /\ get_audio_bytes self track w
     = (Err (RetryError (MusicServiceError (pys "Failed to initialize session"))),
        after w 0 [EvSleep 1; EvSleep 2]).
Proof.
  intros Hs.
  unfold get_top_hits, _parse_tracks, get_audio_bytes, retry_policy, Tenacity.retry,
    _parse_tracks_wrapped, get_audio_bytes_wrapped.
  rewrite Hs. simpl.
  cbv [io_bind emit io_ret io_raise except_client_or_timeout after net requests trace
       session_missing].
  by rewrite <- !app_assoc.
Qed.

Lemma no_session_is_retried_witness :
  get_top_hits ascii_only reads_two_items (Music_init ∅ None) (serving ok_page)
  = (Err (RetryError (MusicServiceError (pys "Failed to initialize session"))),
     after (serving ok_page) 0 [EvSleep 1; EvSleep 2]).
Proof.
  apply (no_session_is_retried ascii_only reads_two_items (Music_init ∅ None)
           sample_track (serving ok_page)).
  reflexivity.
Defined.

Section BoundFacts.
Variable U : Unicode.
Variable html_parser : pystr -> Bs4.node.

Lemma retried_bounded (self : Music) (url : pyval) (w w' : world) :
  (exists n events, w' = after w n events /\ retried_events self url n events) ->
  bounded self url w w'.
Proof.
  intros (n & events & Hw & Hr). exists n, events.
  destruct (retried_events_bounds self url n events Hr) as (? & ? & ? & _ & ? & ?).
  done.
Qed.

Lemma _parse_tracks_bounded (self : Music) (url : pystr) (w : world) :
  bounded self (PStr url) w (snd (_parse_tracks U html_parser self url w)).
Proof.
  apply retried_bounded, retry_policy_world. intros w0. apply _parse_tracks_wrapped_world.
Qed.

Lemma search_bounded (self : Music) (keyword url : pystr) (w : world) :
  build_search_query U keyword = Ok url ->
  bounded self (PStr url) w (snd (search U html_parser self keyword w)).
Proof.
  intros Hurl. unfold search. destruct (_session self) eqn:Es.
  - unfold io_bind, io_lift. rewrite Hurl. apply _parse_tracks_bounded.
  - apply retried_bounded. exists 0%nat, []. rewrite after_0_nil.
    split; [reflexivity|]. by repeat constructor.
Qed.

Lemma get_top_hits_bounded (self : Music) (w : world) :
  bounded self (PStr (pys "https://" ++ BASE_URL)) w
    (snd (get_top_hits U html_parser self w)).
Proof. apply _parse_tracks_bounded. Qed.

Lemma get_audio_bytes_bounded (self : Music) (track : Track) (w : world) :
  bounded self (audio_url track) w (snd (get_audio_bytes self track w)).
Proof.
  apply retried_bounded, retry_policy_world. intros w0. apply get_audio_bytes_wrapped_world.
Qed.
End BoundFacts.

(** X5.  Whatever the server does, what [search], [get_top_hits] and
    [get_audio_bytes] do to the world is one, two or three attempts at one
    URL (the one [build_search_query] gives, the base URL, the audio URL of
    the track), with sleeps of one and two seconds between them, each
    attempt being the request, with the configured timeout, and at most
    the reading of its body, and nothing else: at most three requests,
    three seconds of sleep, one read per request, and no session opened or
    closed. *)
Theorem at_most_three_requests (U : Unicode) (html_parser : pystr -> Bs4.node)
    (self : Music) (keyword : pystr) (track : Track) (w : world) :
  (exists url,
     build_search_query U keyword = Ok url
     /\ bounded self (PStr url) w (snd (search U html_parser self keyword w)))
  /\ bounded self (PStr (pys "https://" ++ BASE_URL)) w
       (snd (get_top_hits U html_parser self w))
  /\ bounded self (audio_url track) w (snd (get_audio_bytes self track w)).
Proof.
  split; [|split; [apply get_top_hits_bounded|apply get_audio_bytes_bounded]].
  destruct (build_search_query_total U keyword) as [url Hurl].
  exists url. split; [exact Hurl|by apply search_bounded].
Qed.

(** X6.  [search] on a connected client whose first request meets a page
    that parses: one request, to the URL [build_search_query] gives, with
    the configured timeout; one body read; no sleep; the parsed tracks are
    returned. *)
Theorem search_first_attempt (U : Unicode) (html_parser : pystr -> Bs4.node)
    (self : Music) (keyword url : pystr) (w : world) (r : response)
    (page_text : pystr) (tracks : list Track) :
  _session self <> None ->
  build_search_query U keyword = Ok url ->
  net w (requests w) (PStr url) = Responded r ->
  (status r < 400)%Z ->
  body r = Ok page_text ->
  parse_playlist U (html_parser page_text) = Ok tracks ->
  search U html_parser self keyword w
  = (Ok tracks, after w 1 [EvGet (PStr url) (timeout (_config self)); EvRead]).
Proof.
  intros Hs Hurl Hnet Hst Hb Hp. unfold search.
  destruct (_session self) eqn:E; [|done].
  unfold io_bind, io_lift. rewrite Hurl.
  unfold _parse_tracks, retry_policy, Tenacity.retry. simpl.
  rewrite (attempt_parsed U html_parser self url w r page_text tracks); try done.
  by rewrite E.
Qed.

Lemma search_first_attempt_witness :
  exists tracks,
    search ascii_only reads_two_items connected (pys "Daft Punk") (serving ok_page)
    = (Ok tracks,
       after (serving ok_page) 1
         [EvGet (PStr (pys "https://daft-punk.vuxo7.com")) 30; EvRead])
    /\ length tracks = 2%nat.
Proof.
  eexists. split.
  - apply (search_first_attempt ascii_only reads_two_items connected (pys "Daft Punk")
             (pys "https://daft-punk.vuxo7.com") (serving ok_page) ok_page []);
      by vm_compute.
  - reflexivity.
Defined.

(** X7.  [search] recovers from two failed requests: when the first two
    requests fail in the network (connection error or timeout) and the
    third meets a page that parses, the tracks of that page are returned,
    after waits of 1 and then 2 seconds. *)
Theorem search_third_attempt (U : Unicode) (html_parser : pystr -> Bs4.node)
    (self : Music) (keyword url : pystr) (w : world) (e1 e2 : exn) (m1 m2 : pystr)
    (r : response) (page_text : pystr) (tracks : list Track) :
  _session self <> None ->
  build_search_query U keyword = Ok url ->
  net w (requests w) (PStr url) = Refused e1 ->
  e1 = ClientError m1 \/ e1 = TimeoutError m1 ->
  net w (S (requests w)) (PStr url) = Refused e2 ->
  e2 = ClientError m2 \/ e2 = TimeoutError m2 ->
  net w (S (S (requests w))) (PStr url) = Responded r ->
  (status r < 400)%Z ->
  body r = Ok page_text ->
  parse_playlist U (html_parser page_text) = Ok tracks ->
  search U html_parser self keyword w
  = (Ok tracks,
     after w 3
       [EvGet (PStr url) (timeout (_config self)); EvSleep 1;
        EvGet (PStr url) (timeout (_config self)); EvSleep 2;
        EvGet (PStr url) (timeout (_config self)); EvRead]).
Proof.
  intros Hs Hurl Hn1 He1 Hn2 He2 Hn3 Hst Hb Hp. unfold search.
  destruct (_session self) eqn:E; [|done].
  assert (Hs' : _session self <> None) by (by rewrite E).
  unfold io_bind at 1. unfold io_lift. rewrite Hurl.
  unfold _parse_tracks, retry_policy, Tenacity.retry. simpl.
  rewrite (attempt_refused U html_parser self url w e1 m1 Hs' Hn1 He1).
  unfold io_bind at 1. unfold emit at 1.
  change (Tenacity.wait_exponential 1 1 5 1) with 1%Z.
  match goal with
  | |- context [_parse_tracks_wrapped U html_parser self url ?w1] =>
      rewrite (attempt_refused U html_parser self url w1 e2 m2 Hs' Hn2 He2)
  end.
  unfold io_bind at 1. unfold emit at 1.
  change (Tenacity.wait_exponential 1 1 5 2) with 2%Z.
  match goal with
  | |- context [_parse_tracks_wrapped U html_parser self url ?w2] =>
      rewrite (attempt_parsed U html_parser self url w2 r page_text tracks Hs' Hn3 Hst Hb Hp)
  end.
  unfold after. cbn [net requests trace]. by rewrite <- !app_assoc.
Qed.

Lemma search_third_attempt_witness :
  exists tracks,
    search ascii_only reads_two_items connected (pys "Daft Punk") (flaky ok_page)
    = (Ok tracks,
       after (flaky ok_page) 3
         [EvGet (PStr (pys "https://daft-punk.vuxo7.com")) 30; EvSleep 1;
          EvGet (PStr (pys "https://daft-punk.vuxo7.com")) 30; EvSleep 2;
          EvGet (PStr (pys "https://daft-punk.vuxo7.com")) 30; EvRead])
    /\ length tracks = 2%nat.
Proof.
  eexists. split.
  - apply (search_third_attempt ascii_only reads_two_items connected (pys "Daft Punk")
             (pys "https://daft-punk.vuxo7.com") (flaky ok_page)
             (TimeoutError (pys "timed out")) (TimeoutError (pys "timed out"))
             (pys "timed out") (pys "timed out") ok_page []);
      try (by vm_compute); by right.
  - reflexivity.
Defined.

(** X8.  A response with a status of 400 or more fails the attempt like a
    network error: [MusicServiceError] is raised, with the text of the
    status error for a page, and the body is not read. *)
Theorem error_status_fails_attempt (U : Unicode) (html_parser : pystr -> Bs4.node)
    (self : Music) (url : pystr) (track : Track) (w : world) (r : response) :
  _session self <> None ->
  (400 <= status r)%Z ->
  (net w (requests w) (PStr url) = Responded r ->
   _parse_tracks_wrapped U html_parser self url w
   = (Err (MusicServiceError (pys "Failed to search music: " ++ status_error r)),
      after w 1 [EvGet (PStr url) (timeout (_config self))]))
  /\ (net w (requests w) (audio_url track) = Responded r ->
      get_audio_bytes_wrapped self track w
      = (Err (MusicServiceError (pys "Failed to download audio")),
         after w 1 [EvGet (audio_url track) (timeout (_config self))])).
Proof.
  intros Hs Hst. unfold _parse_tracks_wrapped, get_audio_bytes_wrapped.
  destruct (_session self); [|done].
  split; intros Hnet;
    cbv [io_bind emit io_ret io_raise io_lift session_get raise_for_status read_body
         except_client_or_timeout after];
    cbn [net requests trace]; rewrite Hnet;
    destruct (Z.leb_spec 400 (status r)); try lia; reflexivity.
Qed.

Lemma error_status_fails_attempt_witness :
  _parse_tracks_wrapped ascii_only reads_two_items connected (pys "https://vuxo7.com")
    (serving not_found)
  = (Err (MusicServiceError (pys "Failed to search music: 404, message='Not Found'")),
     after (serving not_found) 1 [EvGet (PStr (pys "https://vuxo7.com")) 30])
  /\ get_audio_bytes_wrapped connected sample_track (serving not_found)
     = (Err (MusicServiceError (pys "Failed to download audio")),
        after (serving not_found) 1 [EvGet (audio_url sample_track) 30]).
Proof.
  destruct (error_status_fails_attempt ascii_only reads_two_items connected
              (pys "https://vuxo7.com") sample_track (serving not_found) not_found
              ltac:(done) ltac:(by vm_compute)) as [H1 H2].
  split; [apply H1|apply H2]; reflexivity.
Defined.

(** X9.  A file whose advertised length is within the ceiling of 50 MiB,
    or is not advertised at all, is read and returned by the first
    attempt: one request, one read, no sleep.  The bytes read are not
    measured against the ceiling. *)
Theorem audio_within_ceiling (self : Music) (track : Track) (w : world)
    (r : response) (content : pystr) :
  _session self <> None ->
  net w (requests w) (audio_url track) = Responded r ->
  (status r < 400)%Z ->
  (forall n, content_length r = Some n -> (n <= max_size)%Z) ->
  body r = Ok content ->
  get_audio_bytes self track w
  = (Ok content, after w 1 [EvGet (audio_url track) (timeout (_config self)); EvRead]).
Proof.
  intros Hs Hnet Hst Hcl Hb.
  by rewrite (within_ceiling_returns_body self track w r content Hs Hnet Hst Hcl Hb).
Qed.

Lemma audio_within_ceiling_witness :
  get_audio_bytes connected sample_track (serving (audio (Some 52428800%Z)))
  = (Ok (pys "ID3 audio"),
     after (serving (audio (Some 52428800%Z))) 1
       [EvGet (audio_url sample_track) 30; EvRead])
  /\ get_audio_bytes connected sample_track (serving (audio None))
     = (Ok (pys "ID3 audio"),
        after (serving (audio None)) 1 [EvGet (audio_url sample_track) 30; EvRead]).
Proof.
  split.
  - apply (audio_within_ceiling connected sample_track
             (serving (audio (Some 52428800%Z))) (audio (Some 52428800%Z)) (pys "ID3 audio"));
      try done.
    intros n [= <-]. by vm_compute.
  - by apply (audio_within_ceiling connected sample_track
                (serving (audio None)) (audio None) (pys "ID3 audio")).
Defined.

(** X10.  An attempt at a file whose advertised length is above the
    ceiling raises "File too large" with that length, after the request
    and without reading the body. *)
Theorem audio_oversized_not_read (self : Music) (track : Track) (w : world)
    (r : response) (n : Z) :
  _session self <> None ->
  net w (requests w) (audio_url track) = Responded r ->
  (status r < 400)%Z ->
  content_length r = Some n ->
  (max_size < n)%Z ->
  get_audio_bytes_wrapped self track w
  = (Err (MusicServiceError (pys "File too large: " ++ PyInt.str n ++ pys " bytes")),
     after w 1 [EvGet (audio_url track) (timeout (_config self))]).
Proof.
  intros Hs Hnet Hst Hcl Hn.
  by rewrite (oversized_attempt self track w r n Hs Hnet Hst Hcl Hn).
Qed.

Lemma audio_oversized_not_read_witness :
  get_audio_bytes_wrapped connected sample_track (serving (audio (Some 52428801%Z)))
  = (Err (MusicServiceError (pys "File too large: 52428801 bytes")),
     after (serving (audio (Some 52428801%Z))) 1 [EvGet (audio_url sample_track) 30]).
Proof.
  by apply (audio_oversized_not_read connected sample_track
              (serving (audio (Some 52428801%Z))) (audio (Some 52428801%Z)) 52428801).
Defined.

(** ** [Track.from_dict] and [Track.from_element] *)

Section TrackFacts.
Variable U : Unicode.

Lemma getitem_ok {V} (d : gmap pystr V) (k : pystr) (v : V) :
  Py.getitem d k = Ok v <-> d !! k = Some v.
Proof. unfold Py.getitem. destruct (d !! k); split; congruence. Qed.

Lemma getitem_err {V} (d : gmap pystr V) (k : pystr) (e : exn) :
  Py.getitem d k = Err e <-> d !! k = None /\ e = KeyError k.
Proof.
  unfold Py.getitem. destruct (d !! k); split; try congruence.
  - intros [? _]. congruence.
  - intros [= <-]. done.
  - intros [_ ->]. done.
Qed.
End TrackFacts.

(** X11.  [from_dict] succeeds exactly on a mapping that has the five
    keys and whose ["index"] converts with [int()]; the index of the track
    is that integer and the other four fields are the values as they are,
    whatever their type. *)
Theorem from_dict_ok_iff (U : Unicode) (data : gmap pystr pyval) (t : Track) :
  from_dict U data = Ok t <->
  exists i,
    data !! pys "index" = Some i
    /\ Py.int U i = Ok (index t)
    /\ data !! pys "name" = Some (name t)
    /\ data !! pys "title" = Some (title t)
    /\ data !! pys "performer" = Some (performer t)
    /\ data !! pys "audio_url" = Some (audio_url t).
Proof.
  unfold from_dict, Py.getitem. split.
  - destruct (data !! pys "index") as [i|]; cbn [mbind result_bind rbind]; [|done].
    destruct (Py.int U i) as [z|] eqn:Hi; cbn [mbind result_bind rbind]; [|done].
    destruct (data !! pys "name") as [n|]; cbn [mbind result_bind rbind]; [|done].
    destruct (data !! pys "title") as [ti|]; cbn [mbind result_bind rbind]; [|done].
    destruct (data !! pys "performer") as [p|]; cbn [mbind result_bind rbind]; [|done].
    destruct (data !! pys "audio_url") as [a|]; cbn [mbind result_bind rbind]; [|done].
    intros [= <-]. by exists i.
  - intros (i & -> & Hi & -> & -> & -> & ->). cbn [mbind result_bind rbind]. rewrite Hi.
    cbn [mbind result_bind rbind]. by destruct t.
Qed.

(** X12.  [from_dict] fails with the first thing that goes wrong, in the
    order of the constructor call: [KeyError] for a missing ["index"], the
    error of [int()] for an index that does not convert, then [KeyError]
    for the first missing key among name, title, performer and
    audio_url. *)
Theorem from_dict_error_iff (U : Unicode) (data : gmap pystr pyval) (e : exn) :
  from_dict U data = Err e <->
  (data !! pys "index" = None /\ e = KeyError (pys "index"))
  \/ (exists i, data !! pys "index" = Some i /\ Py.int U i = Err e)
  \/ (exists i z key,
        data !! pys "index" = Some i /\ Py.int U i = Ok z
        /\ first_missing data = Some key /\ e = KeyError key).
Proof.
  unfold from_dict, Py.getitem, first_missing, fields_after_index. cbn [List.find].
  destruct (data !! pys "index") as [i|]; cbn [mbind result_bind rbind].
  2:{ split; [intros [= <-]; by left|].
      intros [[_ ->]|[(i & [=] & _)|(i & z & k & [=] & _)]]. done. }
  destruct (Py.int U i) as [z|e0] eqn:Ei; cbn [mbind result_bind rbind].
  2:{ split; [intros [= <-]; right; left; by exists i|].
      intros [[[=] _]|[(i' & [= <-] & Hi)|(i' & z & k & [= <-] & Hi & _)]]; congruence. }
  destruct (data !! pys "name") as [n|] eqn:En; cbn [mbind result_bind rbind].
  2:{ rewrite bool_decide_eq_true_2 by done.
      split; [intros [= <-]; right; right; by exists i, z, (pys "name")|].
      intros [[[=] _]|[(i' & [= <-] & Hi)|(i' & z' & k & _ & _ & [= <-] & ->)]];
        congruence. }
  rewrite bool_decide_eq_false_2 by done.
  destruct (data !! pys "title") as [ti|] eqn:Et; cbn [mbind result_bind rbind].
  2:{ rewrite bool_decide_eq_true_2 by done.
      split; [intros [= <-]; right; right; by exists i, z, (pys "title")|].
      intros [[[=] _]|[(i' & [= <-] & Hi)|(i' & z' & k & _ & _ & [= <-] & ->)]];
        congruence. }
  rewrite bool_decide_eq_false_2 by done.
  destruct (data !! pys "performer") as [p|] eqn:Ep; cbn [mbind result_bind rbind].
  2:{ rewrite bool_decide_eq_true_2 by done.
      split; [intros [= <-]; right; right; by exists i, z, (pys "performer")|].
      intros [[[=] _]|[(i' & [= <-] & Hi)|(i' & z' & k & _ & _ & [= <-] & ->)]];
        congruence. }
  rewrite bool_decide_eq_false_2 by done.
  destruct (data !! pys "audio_url") as [a|] eqn:Ea; cbn [mbind result_bind rbind].
  2:{ rewrite bool_decide_eq_true_2 by done.
      split; [intros [= <-]; right; right; by exists i, z, (pys "audio_url")|].
      intros [[[=] _]|[(i' & [= <-] & Hi)|(i' & z' & k & _ & _ & [= <-] & ->)]];
        congruence. }
  rewrite bool_decide_eq_false_2 by done.
  split; [done|].
  intros [[[=] _]|[(i' & [= <-] & Hi)|(i' & z' & k & _ & _ & [=] & _)]]. congruence.
Qed.

(** X13.  The index may come as text or as a bool: a mapping that holds
    the index of a track as its decimal text gives the track back, for an
    index within the interpreter's limit of 4300 digits (beyond it [str]
    and [int] refuse the conversion), and [True] and [False] are read as 1
    and 0. *)
Theorem from_dict_index_forms (U : Unicode) (t : Track) (b : bool) :
  (PyInt.within_limit (index t) = true ->
   from_dict U (<[pys "index" := PStr (PyInt.str (index t))]> (Track_fields t)) = Ok t)
  /\ from_dict U (<[pys "index" := PBool b]> (Track_fields t))
     = Ok {| index := if b then 1 else 0; name := name t; title := title t;
             performer := performer t; audio_url := audio_url t |}.
Proof.
  destruct t as [i n ti p a].
  split; [intros _|]; unfold from_dict, Track_fields, Py.getitem;
    cbn [index name title performer audio_url];
    repeat (rewrite ?lookup_insert_eq; rewrite ?lookup_insert_ne by (by vm_compute);
            cbn [mbind result_bind rbind Py.int]);
    rewrite ?of_str_str; reflexivity.
Qed.

Lemma from_dict_index_forms_witness :
  from_dict ascii_only
    (<[pys "index" := PStr (pys "-12")]>
       (Track_fields {| index := -12; name := PNone; title := PNone; performer := PNone;
                        audio_url := PNone |}))
  = Ok {| index := -12; name := PNone; title := PNone; performer := PNone;
          audio_url := PNone |}.
Proof.
  apply (from_dict_index_forms ascii_only
           {| index := -12; name := PNone; title := PNone; performer := PNone;
              audio_url := PNone |} true).
  vm_compute. reflexivity.
Defined.

(** X14.  Keys other than the five field names are ignored. *)
Theorem from_dict_ignores_other_keys (U : Unicode) (data : gmap pystr pyval)
    (key : pystr) (v : pyval) :
  ~ In key (pys "index" :: fields_after_index) ->
  from_dict U (<[key := v]> data) = from_dict U data.
Proof.
  intros Hk. unfold from_dict, Py.getitem.
  assert (H : forall f, In f (pys "index" :: fields_after_index) ->
                        <[key := v]> data !! f = data !! f).
  { intros f Hf. apply lookup_insert_ne. intros ->. done. }
  rewrite !H; [done|..]; unfold fields_after_index; simpl; auto 10.
Qed.

Lemma from_dict_ignores_other_keys_witness :
  from_dict ascii_only (<[pys "duration" := PInt 215]> (Track_fields sample_track))
  = Ok sample_track.
Proof.
  rewrite (from_dict_ignores_other_keys ascii_only (Track_fields sample_track)
             (pys "duration") (PInt 215)).
  - vm_compute. reflexivity.
  - vm_compute. intros H. decompose [or] H; discriminate || done.
Defined.

Section ItemFacts.
Variable U : Unicode.

Lemma from_element_complete (element : Bs4.node) (i : Z) :
  ~ lacks_required element -> exists t, from_element U element i = Ok t.
Proof.
  unfold from_element, lacks_required. intros Hl.
  destruct (Bs4.find (Bs4.has_class (pys "playlist-name-artist")) element) as [a|];
    [|exfalso; apply Hl; by left].
  destruct (Bs4.find (Bs4.has_class (pys "playlist-name-title")) element) as [tt|];
    [|exfalso; apply Hl; right; by left].
  destruct (Bs4.find (Bs4.has_class (pys "playlist-play")) element) as [[s|nm cl at_ cs]|] eqn:Ep;
    [|by eexists|exfalso; apply Hl; right; by right].
  unfold Bs4.find in Ep. by apply find_some in Ep as [_ Ep].
Qed.

Lemma comprehension_succeeds {A B} (f : A -> Z -> result B) (l : list A) :
  (forall x, In x l -> forall i, exists y, f x i = Ok y) ->
  forall k, exists ys, comprehension_enumerate f k l = Ok ys.
Proof.
  induction l as [|a l IH]; intros H k; simpl; [by eexists|].
  destruct (H a (or_introl eq_refl) k) as [y ->].
  destruct (IH (fun x Hx => H x (or_intror Hx)) (k + 1)%Z) as [ys ->].
  by eexists.
Qed.
End ItemFacts.

(** X15.  [from_element] makes a track exactly from the items that have a
    performer element, a title element and a play control; the track has
    the index it was given, and its audio URL is the [data-url] attribute
    of the play control, or the empty string when the control has no such
    attribute. *)
Theorem from_element_succeeds_iff (U : Unicode) (element : Bs4.node) (i : Z) :
  ((exists t, from_element U element i = Ok t) <-> ~ lacks_required element)
  /\ forall t, from_element U element i = Ok t ->
       index t = i
       /\ exists nm classes attrs contents,
            Bs4.find (Bs4.has_class (pys "playlist-play")) element
              = Some (Bs4.Tag nm classes attrs contents)
            /\ audio_url t = PStr (default [] (attrs !! pys "data-url")).
Proof.
  unfold from_element, lacks_required. split; [split|].
  - intros [t H] [Hl|[Hl|Hl]]; rewrite Hl in H; try done.
    + by destruct (Bs4.find (Bs4.has_class (pys "playlist-name-artist")) element).
    + destruct (Bs4.find (Bs4.has_class (pys "playlist-name-artist")) element); [|done].
      by destruct (Bs4.find (Bs4.has_class (pys "playlist-name-title")) element).
  - apply from_element_complete.
  - intros t H.
    destruct (Bs4.find (Bs4.has_class (pys "playlist-name-artist")) element) as [a|]; [|done].
    destruct (Bs4.find (Bs4.has_class (pys "playlist-name-title")) element) as [tt|]; [|done].
    destruct (Bs4.find (Bs4.has_class (pys "playlist-play")) element)
      as [[s|nm cl at_ cs]|]; try done.
    injection H as <-. split; [done|]. by exists nm, cl, at_, cs.
Qed.

Lemma from_element_succeeds_iff_witness :
  exists t, from_element ascii_only item_without_url 7 = Ok t
            /\ index t = 7%Z /\ audio_url t = PStr [].
Proof.
  eexists. split; [vm_compute; reflexivity|].
  destruct (from_element_succeeds_iff ascii_only item_without_url 7) as [_ H].
  destruct (H _ ltac:(vm_compute; reflexivity)) as (Hi & nm & cl & at_ & cs & Hf & Ha).
  split; [exact Hi|]. rewrite Ha. vm_compute in Hf. injection Hf as <- <- <- <-.
  reflexivity.
Defined.

(** X16.  Parsing a page succeeds exactly when the page has the playlist
    element and none of its items lacks a performer element, a title
    element or a play control.  A playlist without items gives the empty
    list, and a page without the playlist element the [TypeError] "Could
    not find playlist element". *)
Theorem parse_playlist_succeeds_iff (U : Unicode) (soup : Bs4.node) :
  let found :=
    Bs4.find (fun n => Bs4.has_name (pys "ul") n && Bs4.has_class (pys "playlist") n) soup in
  ((exists tracks, parse_playlist U soup = Ok tracks) <->
   exists playlist,
     found = Some playlist
     /\ forall item, In item (Bs4.find_all (Bs4.has_name (pys "li")) playlist) ->
          ~ lacks_required item)
  /\ (forall playlist,
        found = Some playlist ->
        Bs4.find_all (Bs4.has_name (pys "li")) playlist = [] ->
        parse_playlist U soup = Ok [])
  /\ (found = None ->
      parse_playlist U soup = Err (TypeError (pys "Could not find playlist element"))).
Proof.
  intros found. unfold parse_playlist. fold found.
  destruct found as [[s|nm cl at_ cs]|] eqn:Ef.
  - unfold found, Bs4.find in Ef. by apply find_some in Ef as [_ Ef].
  - split; [split|split].
    + intros [tracks H]. eexists. split; [reflexivity|]. intros item Hin Hl.
      destruct (comprehension_fails (from_element U) _ item Hin
                  (fun i => from_element_lacks U item i Hl) 0%Z) as (e & _ & _ & He & _).
      congruence.
    + intros (playlist & [= <-] & Hall).
      apply comprehension_succeeds. intros x Hx i.
      apply from_element_complete. by apply Hall.
    + intros playlist [= <-] Hnil. by rewrite Hnil.
    + done.
  - split; [split|split]; try done; [by intros [? ?]|by intros (? & ? & _)].
Qed.

Lemma parse_playlist_succeeds_iff_witness :
  (exists tracks, parse_playlist ascii_only page_two_items = Ok tracks)
  /\ ~ (exists tracks, parse_playlist ascii_only page_item1_malformed = Ok tracks)
  /\ parse_playlist ascii_only (page []) = Ok []
  /\ parse_playlist ascii_only (tag "[document]" [] [])
     = Err (TypeError (pys "Could not find playlist element")).
Proof.
  split; [|split; [|split]].
  - apply (parse_playlist_succeeds_iff ascii_only page_two_items).
    eexists. split; [vm_compute; reflexivity|].
    intros item Hin. vm_compute in Hin.
    destruct Hin as [<-|[<-|[]]]; intros [H|[H|H]]; by vm_compute in H.
  - intros (playlist & Hf & Hall)%(proj1 (parse_playlist_succeeds_iff ascii_only _)).
    vm_compute in Hf. injection Hf as <-.
    apply (Hall (item_without_title "Air" "https://cdn.example/1.mp3")).
    + vm_compute. right. by left.
    + right. left. by vm_compute.
  - apply (proj1 (proj2 (parse_playlist_succeeds_iff ascii_only (page [])))
             (tag "ul" ["playlist"%string] [])); reflexivity.
  - apply (proj2 (proj2 (parse_playlist_succeeds_iff ascii_only (tag "[document]" [] [])))).
    reflexivity.
Defined.

(** X17.  The tracks of a parsed page are the items of its playlist, one
    for one and in document order: as many tracks as [li] elements below
    the playlist, and the track at position [i] is the one [from_element]
    makes of the item at position [i] with index [i]. *)
Theorem parse_playlist_tracks (U : Unicode) (soup : Bs4.node) (tracks : list Track) :
  parse_playlist U soup = Ok tracks ->
  exists playlist,
    Bs4.find (fun n => Bs4.has_name (pys "ul") n && Bs4.has_class (pys "playlist") n) soup
      = Some playlist
    /\ length tracks = length (Bs4.find_all (Bs4.has_name (pys "li")) playlist)
    /\ forall i item,
         Bs4.find_all (Bs4.has_name (pys "li")) playlist !! i = Some item ->
         exists t, tracks !! i = Some t /\ from_element U item (Z.of_nat i) = Ok t.
Proof.
  unfold parse_playlist.
  destruct (Bs4.find _ soup) as [[s|nm cl at_ cs]|] eqn:Ef; try done.
  intros H. eexists. split; [reflexivity|].
  destruct (comprehension_lookup _ _ _ _ H) as [Hlen Hl]. split; [exact Hlen|].
  intros i item Hi.
  destruct (lookup_lt_is_Some_2 tracks i) as [t Ht].
  { rewrite Hlen. by apply lookup_lt_Some in Hi. }
  exists t. split; [exact Ht|].
  destruct (Hl i t Ht) as (x & Hx & Hfx). rewrite Hi in Hx. injection Hx as <-.
  by rewrite Z.add_0_l in Hfx.
Qed.

Lemma parse_playlist_tracks_witness :
  exists tracks,
    parse_playlist ascii_only page_two_items = Ok tracks
    /\ length tracks = 2%nat
    /\ exists t, tracks !! 1%nat = Some t
                 /\ from_element ascii_only (item "Justice" "Genesis" "https://cdn.example/2.mp3") 1
                    = Ok t.
Proof.
  destruct (parse_playlist ascii_only page_two_items) as [tracks|] eqn:E;
    [|by vm_compute in E].
  exists tracks. split; [reflexivity|].
  destruct (parse_playlist_tracks ascii_only page_two_items tracks E)
    as (playlist & Hf & Hlen & Hitems).
  vm_compute in Hf. injection Hf as <-. split; [exact Hlen|].
  apply (Hitems 1%nat). reflexivity.
Defined.

(** ** [build_search_query] *)

Section QueryFacts.
Variable U : Unicode.

Lemma forallb_filter (p q : N -> bool) (s : pystr) :
  forallb p s = true -> forallb p (List.filter q s) = true.
Proof.
  induction s as [|c s IH]; simpl; [done|]. intros [Hc Hs]%andb_prop.
  destruct (q c); simpl; [rewrite Hc|]; auto.
Qed.

Lemma forallb_lstrip (p q : N -> bool) (s : pystr) :
  forallb p s = true -> forallb p (Str.lstrip q s) = true.
Proof.
  induction s as [|c s IH]; simpl; [done|]. intros [Hc Hs]%andb_prop.
  destruct (q c); simpl; [|rewrite Hc]; auto.
Qed.

Lemma forallb_rev (p : N -> bool) (s : pystr) :
  forallb p s = true -> forallb p (rev s) = true.
Proof.
  rewrite !forallb_forall. intros H c Hc. apply H. by apply in_rev.
Qed.

Lemma forallb_strip (p : N -> bool) (s : pystr) :
  forallb p s = true -> forallb p (Str.strip U s) = true.
Proof.
  intros H. unfold Str.strip, Str.rstrip.
  by apply forallb_rev, forallb_lstrip, forallb_rev, forallb_lstrip.
Qed.

(** The text a keyword is cut down to before it is lower-cased. *)
Lemma cleaned_ascii (keyword : pystr) :
  Str.is_ascii keyword = true ->
  Str.is_ascii (Str.strip U (Str.re_sub_not_word_not_space U keyword)) = true.
Proof.
  intros H. apply forallb_strip. by apply forallb_filter.
Qed.

Lemma slug_ascii (keyword : pystr) :
  Str.is_ascii keyword = true -> Str.is_ascii (slug U keyword) = true.
Proof.
  intros H. unfold slug. rewrite lower_ascii by by apply cleaned_ascii.
  pose proof (cleaned_ascii keyword H) as Hc.
  induction (Str.strip U (Str.re_sub_not_word_not_space U keyword)) as [|c s IH];
    simpl; [done|].
  simpl in Hc. apply andb_prop in Hc as [Hc Hs].
  rewrite (IH Hs), andb_true_r.
  destruct (Ch.ascii_lower c =? Ch.SPACE); [done|].
  by apply ascii_lower_facts.
Qed.

(** On an ASCII text the idna codec gives the text back or fails. *)
Lemma idna_ascii (s : pystr) :
  Str.is_ascii s = true ->
  (Idna.encode U s ≫= Idna.decode_ascii) = Ok s
  \/ (Idna.encode U s ≫= Idna.decode_ascii) = Err UnicodeError.
Proof.
  intros H. unfold Idna.encode. destruct s as [|c s]; [by left|].
  rewrite H.
  repeat match goal with |- context [if ?b then _ else _] => destruct b end;
    cbn; unfold Idna.decode_ascii; rewrite ?H; auto.
Qed.
End QueryFacts.

(** X18.  For an ASCII keyword the URL is "https://", the slug, a dot and
    the base domain: the idna step never changes an ASCII slug, and a slug
    it rejects (a label of 64 characters or more) is used as it is. *)
Theorem build_search_query_ascii (U : Unicode) (keyword : pystr) :
  Str.is_ascii keyword = true ->
  build_search_query U keyword
  = Ok (pys "https://" ++ slug U keyword ++ pys "." ++ BASE_URL).
Proof.
  intros H. unfold build_search_query.
  by destruct (idna_ascii U (slug U keyword) (slug_ascii U keyword H)) as [-> | ->].
Qed.

Lemma build_search_query_ascii_witness :
  build_search_query ascii_only (pys "AC/DC - Back In Black")
  = Ok (pys "https://acdc--back-in-black.vuxo7.com").
Proof.
  rewrite (build_search_query_ascii ascii_only (pys "AC/DC - Back In Black"))
    by (vm_compute; reflexivity).
  vm_compute. reflexivity.
Defined.

Section SlugFacts.
Variable U : Unicode.

Lemma filter_map_lower (s : pystr) :
  Str.is_ascii s = true ->
  Str.re_sub_not_word_not_space U (map Ch.ascii_lower s)
  = map Ch.ascii_lower (Str.re_sub_not_word_not_space U s).
Proof.
  unfold Str.re_sub_not_word_not_space.
  induction s as [|c s IH]; simpl; [done|]. intros [Hc Hs]%andb_prop.
  destruct (ascii_lower_facts U c Hc) as (_ & -> & -> & _).
  destruct (Ch.isword U c || Ch.isspace U c); simpl; by rewrite IH.
Qed.

Lemma lstrip_map_lower (s : pystr) :
  Str.is_ascii s = true ->
  Str.lstrip (Ch.isspace U) (map Ch.ascii_lower s)
  = map Ch.ascii_lower (Str.lstrip (Ch.isspace U) s).
Proof.
  induction s as [|c s IH]; simpl; [done|]. intros [Hc Hs]%andb_prop.
  destruct (ascii_lower_facts U c Hc) as (_ & _ & -> & _).
  destruct (Ch.isspace U c); [by apply IH|done].
Qed.

Lemma strip_map_lower (s : pystr) :
  Str.is_ascii s = true ->
  Str.strip U (map Ch.ascii_lower s) = map Ch.ascii_lower (Str.strip U s).
Proof.
  intros H. unfold Str.strip, Str.rstrip.
  rewrite lstrip_map_lower by done. rewrite <- map_rev.
  rewrite lstrip_map_lower by (by apply forallb_rev, forallb_lstrip).
  by rewrite map_rev.
Qed.

Lemma map_lower_ascii (s : pystr) :
  Str.is_ascii s = true -> Str.is_ascii (map Ch.ascii_lower s) = true.
Proof.
  induction s as [|c s IH]; simpl; [done|]. intros [Hc Hs]%andb_prop.
  destruct (ascii_lower_facts ascii_only c Hc) as (-> & _). by apply IH.
Qed.

Lemma map_lower_idem (s : pystr) :
  Str.is_ascii s = true ->
  map Ch.ascii_lower (map Ch.ascii_lower s) = map Ch.ascii_lower s.
Proof.
  induction s as [|c s IH]; simpl; [done|]. intros [Hc Hs]%andb_prop.
  destruct (ascii_lower_facts ascii_only c Hc) as (_ & _ & _ & ->). by rewrite IH.
Qed.

Lemma lstrip_app_all (p : N -> bool) (ws s : pystr) :
  forallb p ws = true -> Str.lstrip p (ws ++ s) = Str.lstrip p s.
Proof.
  induction ws as [|c ws IH]; simpl; [done|]. intros [-> Hs]%andb_prop. auto.
Qed.

Lemma lstrip_app_keep (p : N -> bool) (s t : pystr) :
  Str.lstrip p s <> [] -> Str.lstrip p (s ++ t) = Str.lstrip p s ++ t.
Proof.
  induction s as [|c s IH]; simpl; [done|]. destruct (p c); auto.
Qed.

Lemma rstrip_app_all (p : N -> bool) (s ws : pystr) :
  forallb p ws = true -> Str.rstrip p (s ++ ws) = Str.rstrip p s.
Proof.
  intros H. unfold Str.rstrip. rewrite rev_app_distr.
  by rewrite lstrip_app_all by by apply forallb_rev.
Qed.

Lemma strip_padding (ws1 s ws2 : pystr) :
  forallb (Ch.isspace U) ws1 = true -> forallb (Ch.isspace U) ws2 = true ->
  Str.strip U (ws1 ++ s ++ ws2) = Str.strip U s.
Proof.
  intros H1 H2. unfold Str.strip. rewrite lstrip_app_all by done.
  destruct (Str.lstrip (Ch.isspace U) s) as [|c r] eqn:E.
  - apply lstrip_nil_iff in E.
    rewrite lstrip_all; [done|]. rewrite forallb_app. by rewrite E, H2.
  - rewrite lstrip_app_keep by (by rewrite E). rewrite E.
    by apply rstrip_app_all.
Qed.

Lemma filter_padding (ws : pystr) :
  forallb (fun c => negb (Ch.isword U c)) ws = true ->
  forallb (Ch.isspace U) (Str.re_sub_not_word_not_space U ws) = true.
Proof.
  unfold Str.re_sub_not_word_not_space.
  induction ws as [|c ws IH]; simpl; [done|]. intros [Hc Hs]%andb_prop.
  apply negb_true_iff in Hc. rewrite Hc. simpl.
  destruct (Ch.isspace U c) eqn:E; simpl; [rewrite E|]; auto.
Qed.

Lemma In_lstrip (p : N -> bool) (s : pystr) (c : N) :
  In c (Str.lstrip p s) -> In c s.
Proof.
  induction s as [|x s IH]; simpl; [done|]. destruct (p x); simpl; auto.
Qed.

Lemma In_strip (s : pystr) (c : N) : In c (Str.strip U s) -> In c s.
Proof.
  unfold Str.strip, Str.rstrip. intros H%in_rev%In_lstrip%in_rev. by apply In_lstrip in H.
Qed.
End SlugFacts.

(** X19.  An ASCII keyword is searched without regard to case: the slug,
    and so the URL, is the one of the keyword in lower case. *)
Theorem slug_ignores_case (U : Unicode) (keyword : pystr) :
  Str.is_ascii keyword = true ->
  slug U (map Ch.ascii_lower keyword) = slug U keyword
  /\ build_search_query U (map Ch.ascii_lower keyword) = build_search_query U keyword.
Proof.
  intros H.
  assert (Hs : slug U (map Ch.ascii_lower keyword) = slug U keyword).
  { unfold slug. rewrite filter_map_lower by done.
    rewrite strip_map_lower by (by apply forallb_filter).
    pose proof (cleaned_ascii U keyword H) as Hc.
    rewrite !lower_ascii by (done || by apply map_lower_ascii).
    by rewrite map_lower_idem. }
  split; [exact Hs|]. unfold build_search_query. by rewrite Hs.
Qed.

Lemma slug_ignores_case_witness :
  build_search_query ascii_only (pys "daft punk")
  = build_search_query ascii_only (pys "DaFt PUNK").
Proof.
  exact (proj2 (slug_ignores_case ascii_only (pys "DaFt PUNK") eq_refl)).
Defined.

(** X20.  Whitespace and punctuation around a keyword do not count: when
    what stands before and after holds no word character, the slug and
    the URL are those of the keyword alone. *)
Theorem slug_ignores_padding (U : Unicode) (before keyword after_ : pystr) :
  forallb (fun c => negb (Ch.isword U c)) before = true ->
  forallb (fun c => negb (Ch.isword U c)) after_ = true ->
  slug U (before ++ keyword ++ after_) = slug U keyword
  /\ build_search_query U (before ++ keyword ++ after_) = build_search_query U keyword.
Proof.
  intros Hb Ha.
  assert (Hs : slug U (before ++ keyword ++ after_) = slug U keyword).
  { unfold slug, Str.re_sub_not_word_not_space. rewrite !List.filter_app.
    rewrite strip_padding; [done| |]; by apply filter_padding. }
  split; [exact Hs|]. unfold build_search_query. by rewrite Hs.
Qed.

Lemma slug_ignores_padding_witness :
  build_search_query ascii_only (pys "  <<Daft Punk>> !")
  = build_search_query ascii_only (pys "Daft Punk").
Proof.
  exact (proj2 (slug_ignores_padding ascii_only (pys "  <<") (pys "Daft Punk") (pys ">> !")
                  eq_refl eq_refl)).
Defined.

(** X21.  The slug of an ASCII keyword holds nothing but lower-case
    letters, digits, underscores, hyphens and whitespace other than the
    space: no upper-case letter, and no dot, slash, colon or other
    punctuation reaches the host name. *)
Theorem slug_alphabet (U : Unicode) (keyword : pystr) :
  Str.is_ascii keyword = true ->
  forallb slug_char (slug U keyword) = true.
Proof.
  intros H. unfold slug.
  rewrite lower_ascii by by apply cleaned_ascii.
  apply forallb_forall. intros d Hd.
  unfold Str.replace in Hd. rewrite map_map in Hd.
  apply in_map_iff in Hd as (c & <- & Hc).
  apply In_strip in Hc. unfold Str.re_sub_not_word_not_space in Hc.
  apply filter_In in Hc as [Hin Hkeep].
  assert (Hascii : Ch.is_ascii c = true).
  { unfold Str.is_ascii in H. rewrite forallb_forall in H. by apply H. }
  pose proof (ascii_table c Hascii) as Ht. unfold ascii_lower_agrees in Ht.
  apply andb_prop in Ht as [_ Ht].
  unfold Ch.isword, Ch.isalnum, Ch.isspace in Hkeep. rewrite Hascii in Hkeep.
  rewrite Hkeep in Ht. exact Ht.
Qed.

Lemma slug_alphabet_witness :
  forallb slug_char (slug ascii_only (pys "Sigur Ros: (  ) / v1.0")) = true
  /\ slug ascii_only (pys "Sigur Ros: (  ) / v1.0") = pys "sigur-ros-----v10".
Proof.
  split; [|vm_compute; reflexivity].
  apply (slug_alphabet ascii_only (pys "Sigur Ros: (  ) / v1.0")). reflexivity.
Defined.

(** X22.  [build_search_query] never raises, whatever the keyword and
    whatever the idna codec does with its slug: the outcome is always a URL
    that starts with "https://" and ends with a dot and the base domain. *)
Theorem build_search_query_shape (U : Unicode) (keyword : pystr) :
  exists subdomain,
    build_search_query U keyword
    = Ok (pys "https://" ++ subdomain ++ pys "." ++ BASE_URL).
Proof.
  destruct (build_search_query_total U keyword) as [url Hurl].
  unfold build_search_query in *.
  destruct (Idna.encode U (slug U keyword) ≫= Idna.decode_ascii) as [s|[]];
    try discriminate; by eexists.
Qed.

(** ** The keyboard and the callback handler *)

Section CallbackFacts.
Variable U : Unicode.

Lemma list_getitem_spec {A} (l : list A) (j : Z) (x : A) :
  Py.list_getitem l j = Ok x <->
  ((0 <= j < Z.of_nat (length l))%Z /\ l !! Z.to_nat j = Some x)
  \/ ((- Z.of_nat (length l) <= j < 0)%Z
      /\ l !! Z.to_nat (j + Z.of_nat (length l)) = Some x).
Proof.
  unfold Py.list_getitem.
  destruct (Z.ltb_spec j 0).
  - destruct (Z.ltb_spec (j + Z.of_nat (length l)) 0); simpl.
    + split; [done|]. intros [[? _]|[? _]]; lia.
    + destruct (Z.leb_spec (Z.of_nat (length l)) (j + Z.of_nat (length l))); [lia|].
      destruct (l !! Z.to_nat (j + Z.of_nat (length l))) as [y|] eqn:E.
      * split; [intros [= <-]; right; split; [lia|done]|].
        intros [[? _]|[_ [= <-]]]; [lia|done].
      * split; [done|]. intros [[? _]|[_ [=]]]. lia.
  - destruct (Z.ltb_spec j 0); [lia|]. simpl.
    destruct (Z.leb_spec (Z.of_nat (length l)) j).
    + split; [done|]. intros [[? _]|[? _]]; lia.
    + destruct (l !! Z.to_nat j) as [y|] eqn:E.
      * split; [intros [= <-]; left; split; [lia|done]|].
        intros [[_ [= <-]]|[? _]]; [done|lia].
      * split; [done|]. intros [[_ [=]]|[? _]]. lia.
Qed.

Lemma list_getitem_err {A} (l : list A) (j : Z) (e : exn) :
  Py.list_getitem l j = Err e -> e = IndexError (pys "list index out of range").
Proof.
  unfold Py.list_getitem.
  destruct (_ || _)%bool; [by intros [= <-]|].
  destruct (l !! _); [done|by intros [= <-]].
Qed.

(** The handler on callback data of the shape the keyboard makes. *)
Lemma callback_on_button_data (search_history : gmap Z (list Track))
    (search_id j : Z) :
  track_callback_handler U search_history
    (pys "track:get:" ++ PyInt.str search_id ++ pys ":" ++ PyInt.str j)
  = match search_history !! search_id with
    | None => AnswerOutdated
    | Some tracks =>
        match Py.list_getitem tracks j with
        | Ok track => SendTrack track
        | Err e => AnswerError e
        end
    end.
Proof.
  unfold track_callback_handler.
  rewrite split_callback_data.
  set (data := [pys "track"; pys "get"; PyInt.str search_id; PyInt.str j]).
  rewrite (list_getitem_nat data 1 (pys "get") eq_refl : Py.list_getitem data 1 = _).
  rewrite (list_getitem_nat data 2 (PyInt.str search_id) eq_refl
             : Py.list_getitem data 2 = _).
  rewrite (list_getitem_nat data 3 (PyInt.str j) eq_refl : Py.list_getitem data 3 = _).
  cbn [mbind result_bind rbind]. rewrite !of_str_str.
  cbn [mbind result_bind rbind]. destruct (search_history !! search_id); [|done].
  rewrite bool_decide_eq_true_2 by reflexivity.
  cbn [mbind result_bind rbind]. rewrite ?of_str_str. cbn [mbind result_bind rbind].
  by destruct (Py.list_getitem l j).
Qed.
End CallbackFacts.

(** X23.  The callback handler on the data "track:get:{id}:{j}".  For a
    search that is not in the history, as after a restart of the process,
    it gives the "outdated" answer whatever [j] is.  For a stored search
    it serves every position of the stored list, not only the ten the
    keyboard offers, and reads a negative position from the end as Python
    does: it sends [tracks[j]] when [j] is in range on either side, and
    answers with the error notice, after an [IndexError], when it is
    not. *)
Theorem callback_any_position (U : Unicode) (search_history : gmap Z (list Track))
    (search_id j : Z) :
  let outcome :=
    track_callback_handler U search_history
      (pys "track:get:" ++ PyInt.str search_id ++ pys ":" ++ PyInt.str j) in
  (search_history !! search_id = None -> outcome = AnswerOutdated)
  /\ forall tracks, search_history !! search_id = Some tracks ->
       let n := Z.of_nat (length tracks) in
       (forall track, (0 <= j < n)%Z -> tracks !! Z.to_nat j = Some track ->
                      outcome = SendTrack track)
       /\ (forall track, (- n <= j < 0)%Z -> tracks !! Z.to_nat (j + n) = Some track ->
                         outcome = SendTrack track)
       /\ ((j < - n \/ n <= j)%Z ->
           outcome = AnswerError (IndexError (pys "list index out of range"))).
Proof.
  intros outcome. unfold outcome. rewrite callback_on_button_data.
  split; [by intros ->|]. intros tracks Hh. rewrite Hh. cbv zeta.
  repeat split.
  - intros track Hj Ht.
    by rewrite (proj2 (list_getitem_spec tracks j track) (or_introl (conj Hj Ht))).
  - intros track Hj Ht.
    by rewrite (proj2 (list_getitem_spec tracks j track) (or_intror (conj Hj Ht))).
  - intros Hj. destruct (Py.list_getitem tracks j) as [t|e] eqn:E.
    + apply list_getitem_spec in E. lia.
    + by rewrite (list_getitem_err _ _ _ E).
Qed.

Lemma callback_any_position_witness :
  track_callback_handler ascii_only {[ 7%Z := replicate 12 sample_track ]}
    (pys "track:get:7:11") = SendTrack sample_track
  /\ track_callback_handler ascii_only {[ 7%Z := replicate 12 sample_track ]}
       (pys "track:get:7:-1") = SendTrack sample_track
  /\ track_callback_handler ascii_only {[ 7%Z := replicate 12 sample_track ]}
       (pys "track:get:7:12") = AnswerError (IndexError (pys "list index out of range"))
  /\ track_callback_handler ascii_only ∅ (pys "track:get:7:0") = AnswerOutdated.
Proof.
  assert (Hh : ({[ 7%Z := replicate 12 sample_track ]} : gmap Z (list Track)) !! 7%Z
               = Some (replicate 12 sample_track)) by apply lookup_singleton_eq.
  pose proof (fun j => proj2 (callback_any_position ascii_only
                {[ 7%Z := replicate 12 sample_track ]} 7 j)
                (replicate 12 sample_track) Hh) as H.
  split; [|split; [|split]].
  - apply (proj1 (H 11%Z)); [by vm_compute|reflexivity].
  - apply (proj1 (proj2 (H (-1)%Z))); [by vm_compute|reflexivity].
  - apply (proj2 (proj2 (H 12%Z))). right. by vm_compute.
  - apply (proj1 (callback_any_position ascii_only ∅ 7 0)). reflexivity.
Defined.

(** X24.  Callback data with fewer than three fields between colons, such
    as "track:" or "track:get", passes the router's filter when it starts
    with "track:" but makes the handler answer with the error notice, after
    an [IndexError]; the history is not consulted. *)
Theorem callback_too_few_fields (U : Unicode) (search_history : gmap Z (list Track))
    (callback_data : pystr) :
  (length (Str.split (N.eqb Ch.COLON) callback_data) < 3)%nat ->
  track_callback_handler U search_history callback_data
  = AnswerError (IndexError (pys "list index out of range")).
Proof.
  intros H. unfold track_callback_handler.
  destruct (Str.split (N.eqb Ch.COLON) callback_data) as [|a [|b [|c rest]]];
    try reflexivity.
  simpl in H. lia.
Qed.

Lemma callback_too_few_fields_witness :
  track_callback_filter (pys "track:get") = true
  /\ track_callback_handler ascii_only {[ 7%Z := [sample_track] ]} (pys "track:get")
     = AnswerError (IndexError (pys "list index out of range")).
Proof.
  split; [reflexivity|].
  apply (callback_too_few_fields ascii_only). vm_compute. lia.
Defined.

(** X25.  The history stays dense: when its keys are 0 .. size-1, filing a
    result set puts it under the next number, keeps every earlier result
    set where it was, and leaves the keys 0 .. size again, so no result set
    is ever overwritten. *)
Theorem save_results_keeps_history (search_history : gmap Z (list Track))
    (tracks : list Track) :
  dense search_history ->
  let search_history' := fst (save_results search_history tracks) in
  let search_id := Z.of_nat (size search_history) in
  search_history !! search_id = None
  /\ search_history' !! search_id = Some tracks
  /\ (forall k, k <> search_id -> search_history' !! k = search_history !! k)
  /\ size search_history' = S (size search_history)
  /\ dense search_history'.
Proof.
  intros Hd h' sid. subst h'. unfold save_results. cbn [fst]. subst sid.
  set (sid := Z.of_nat (size search_history)).
  assert (Hnone : search_history !! sid = None).
  { destruct (search_history !! sid) eqn:E; [|done].
    assert (Hs : is_Some (search_history !! sid)) by (by rewrite E).
    apply Hd in Hs. unfold sid in Hs. lia. }
  assert (Hsize : size (<[sid := tracks]> search_history) = S (size search_history))
    by (by apply map_size_insert_None).
  split; [done|]. split; [apply lookup_insert_eq|].
  split; [intros k Hk; by apply lookup_insert_ne|]. split; [done|].
  intros k. rewrite Hsize. split.
  - intros Hs. destruct (decide (k = sid)) as [->|Hk]; [unfold sid; lia|].
    rewrite lookup_insert_ne in Hs by done. apply Hd in Hs. lia.
  - intros Hs. destruct (decide (k = sid)) as [->|Hk].
    + by rewrite lookup_insert_eq.
    + rewrite lookup_insert_ne by done. apply Hd. unfold sid in Hk. lia.
Qed.

Lemma save_results_keeps_history_witness :
  dense ∅
  /\ fst (save_results ∅ [sample_track]) !! 0%Z = Some [sample_track]
  /\ dense (fst (save_results ∅ [sample_track])).
Proof.
  assert (H0 : dense ∅).
  { intros k. rewrite lookup_empty, map_size_empty. split; [by intros [? ?]|simpl; lia]. }
  split; [exact H0|].
  destruct (save_results_keeps_history ∅ [sample_track] H0) as (_ & H1 & _ & _ & H2).
  split; [exact H1|exact H2].
Defined.

Section LabelFacts.
Variable U : Unicode.

Lemma from_element_label (element : Bs4.node) (i : Z) (t : Track) :
  from_element U element i = Ok t ->
  Py.str (name t) = Py.str (performer t) ++ pys " - " ++ Py.str (title t).
Proof.
  unfold from_element. intros H.
  destruct (Bs4.find (Bs4.has_class (pys "playlist-name-artist")) element) as [a|]; [|done].
  destruct (Bs4.find (Bs4.has_class (pys "playlist-name-title")) element) as [tt|]; [|done].
  destruct (Bs4.find (Bs4.has_class (pys "playlist-play")) element) as [[|? ? ? ?]|]; try done.
  by injection H as <-.
Qed.
End LabelFacts.

(** X26.  The keyboard of a parsed page: the button of the track at
    position [i] (below 10) is labelled with [i + 1], a dot and the name
    of the track, so the labels count from 1, and its callback data names
    the index of the track. *)
Theorem keyboard_of_parsed_page (U : Unicode) (soup : Bs4.node) (tracks : list Track)
    (search_id : Z) (i : nat) (t : Track) :
  parse_playlist U soup = Ok tracks ->
  (i < 10)%nat ->
  tracks !! i = Some t ->
  inline_keyboard (get_search_results_keyboard tracks search_id) !! i
  = Some [ {| text := PyInt.str (index t + 1) ++ pys ". " ++ Py.str (name t);
              callback_data := pys "track:get:" ++ PyInt.str search_id
                                 ++ pys ":" ++ PyInt.str (index t) |} ].
Proof.
  intros Hp Hi Ht.
  rewrite keyboard_row, decide_True, Ht by done. cbn [fmap option_fmap option_map].
  rewrite (parse_playlist_index U soup tracks Hp i t Ht).
  unfold parse_playlist in Hp.
  destruct (Bs4.find _ soup) as [[|nm cl at_ cs]|]; try done.
  destruct (comprehension_lookup _ _ _ _ Hp) as [_ Hl].
  destruct (Hl i t Ht) as (item & _ & Hitem).
  by rewrite (from_element_label U item _ t Hitem).
Qed.

Lemma keyboard_of_parsed_page_witness :
  exists tracks,
    parse_playlist ascii_only page_two_items = Ok tracks
    /\ inline_keyboard (get_search_results_keyboard tracks 4) !! 1%nat
       = Some [ {| text := pys "2. Justice - Genesis";
                   callback_data := pys "track:get:4:1" |} ].
Proof.
  destruct (parse_playlist ascii_only page_two_items) as [tracks|] eqn:E;
    [|by vm_compute in E].
  exists tracks. split; [reflexivity|].
  assert (Ht : tracks !! 1%nat
               = Some {| index := 1; name := PStr (pys "Justice - Genesis");
                         title := PStr (pys "Genesis"); performer := PStr (pys "Justice");
                         audio_url := PStr (pys "https://cdn.example/2.mp3") |}).
  { vm_compute in E. injection E as <-. reflexivity. }
  rewrite (keyboard_of_parsed_page ascii_only page_two_items tracks 4 1 _ E
             ltac:(lia) Ht).
  vm_compute. reflexivity.
Defined.

(** ** The handlers *)

Section HandlerFacts.
Variable U : Unicode.
Variable html_parser : pystr -> Bs4.node.
Variable DEFAULT_HEADERS : gmap pystr pystr.

Lemma transport_keeps (s : sent) (b : bot) :
  outside (snd (transport s b)) = outside b
  /\ history (snd (transport s b)) = history b
  /\ calls (snd (transport s b)) = S (calls b)
  /\ delivery (snd (transport s b)) = delivery b.
Proof. unfold transport. by destruct (delivery b (calls b)). Qed.

(** A block of the client run in a fresh scoped session. *)
Lemma scoped_one_session {A} (block : Music -> io A) (url : pyval) (w : world) :
  (forall w0, bounded (scoped_client DEFAULT_HEADERS) url w0
                (snd (block (scoped_client DEFAULT_HEADERS) w0))) ->
  one_session DEFAULT_HEADERS url w
    (snd (async_with (Music_init DEFAULT_HEADERS None) block w)).
Proof.
  intros Hb. right.
  pose proof (async_with_run (Music_init DEFAULT_HEADERS None) block w eq_refl) as H.
  cbv zeta in H.
  change {| _config := _config (Music_init DEFAULT_HEADERS None);
            _session := Some {| session_headers :=
                                  headers (_config (Music_init DEFAULT_HEADERS None)) |} |}
    with (scoped_client DEFAULT_HEADERS) in H.
  destruct (Hb (after w 0 [EvOpenSession]))
    as (n & events & Hw & Hr & Hn & Hs & Hrd & Hno & Hnc).
  destruct (block (scoped_client DEFAULT_HEADERS) (after w 0 [EvOpenSession])) as [r w2].
  rewrite H. cbn [snd] in *. subst w2. rewrite !after_after.
  exists n, events.
  destruct (retried_events_bounds _ _ _ _ Hr) as (_ & _ & _ & H1 & _).
  specialize (H1 ltac:(done)).
  split; [apply after_eq; [lia|done]|]. repeat split; done || lia.
Qed.

Lemma one_session_refl (url : pyval) (w : world) : one_session DEFAULT_HEADERS url w w.
Proof. by left. Qed.

Ltac run_task :=
  cbv [try_except task_bind task_ret task_raise transport network file_results];
  cbn [outside delivery calls outbox history fst snd].

Ltac deliveries :=
  repeat (match goal with
          | |- context [match delivery ?b ?n with _ => _ end] =>
              destruct (delivery b n)
          | |- context [match ?d ?n with Some _ => _ | None => _ end] =>
              destruct (d n)
          end;
          cbn [outside delivery calls outbox history fst snd]).

Lemma search_handler_one_session (message_text : option pystr) (url : pystr) (b : bot) :
  build_search_query U (Str.strip U (default [] message_text)) = Ok url ->
  one_session DEFAULT_HEADERS (PStr url) (outside b)
    (outside (snd (search_handler U html_parser DEFAULT_HEADERS message_text b))).
Proof.
  intros Hurl.
  unfold search_handler. destruct message_text as [[|c text]|]; try apply one_session_refl.
  cbn [default] in Hurl.
  destruct (length (Str.strip U (c :: text)) <? 2)%nat.
  { run_task. deliveries; apply one_session_refl. }
  pose proof (scoped_one_session
                (fun music => search U html_parser music (Str.strip U (c :: text)))
                (PStr url) (outside b)
                (fun w0 => search_bounded U html_parser _ _ url w0 Hurl)) as H.
  run_task. destruct (delivery b (calls b));
    cbn [outside delivery calls outbox history fst snd].
  { deliveries; apply one_session_refl. }
  destruct (async_with _ _ (outside b)) as [[[|t tracks]|e] w'];
    cbn [outside delivery calls outbox history fst snd] in *;
    try destruct (save_results (history b) (t :: tracks)) as [h kb];
    cbn [outside delivery calls outbox history fst snd];
    deliveries; exact H.
Qed.

Lemma top_hits_handler_one_session (b : bot) :
  one_session DEFAULT_HEADERS (PStr (pys "https://" ++ BASE_URL)) (outside b)
    (outside (snd (top_hits_handler U html_parser DEFAULT_HEADERS b))).
Proof.
  unfold top_hits_handler.
  pose proof (scoped_one_session
                (fun music => get_top_hits U html_parser music)
                (PStr (pys "https://" ++ BASE_URL)) (outside b)
                (fun w0 => get_top_hits_bounded U html_parser _ w0)) as H.
  run_task.
  destruct (async_with _ _ (outside b)) as [[[|t tracks]|e] w'];
    cbn [outside delivery calls outbox history fst snd] in *;
    try destruct (save_results (history b) (t :: tracks)) as [h kb];
    cbn [outside delivery calls outbox history fst snd];
    deliveries; exact H.
Qed.

Lemma send_track_one_session (track : Track) (b : bot) :
  one_session DEFAULT_HEADERS (audio_url track) (outside b)
    (outside (snd (send_track DEFAULT_HEADERS track b))).
Proof.
  unfold send_track.
  pose proof (scoped_one_session
                (fun music => get_audio_bytes music track)
                (audio_url track) (outside b)
                (fun w0 => get_audio_bytes_bounded _ track w0)) as H.
  run_task.
  destruct (async_with _ _ (outside b)) as [[audio|e] w'];
    cbn [outside delivery calls outbox history fst snd] in *;
    try destruct (slice_field 64 (title track));
    try destruct (slice_field 64 (performer track));
    run_task; deliveries; exact H.
Qed.

Lemma send_track_keeps_history (track : Track) (b : bot) :
  history (snd (send_track DEFAULT_HEADERS track b)) = history b.
Proof.
  unfold send_track. run_task.
  destruct (async_with _ _ (outside b)) as [[audio|e] w'];
    cbn [outside delivery calls outbox history fst snd] in *;
    try destruct (slice_field 64 (title track));
    try destruct (slice_field 64 (performer track));
    run_task; deliveries; reflexivity.
Qed.
End HandlerFacts.

(** X27.  No handler leaves a session open or floods the site.  Whatever
    the message, the server and the transport do, [search_handler],
    [top_hits_handler], [send_track] and the callback handler either leave
    the network alone or open one session, first, and close it, last;
    between the two there is one operation of the client on one URL (the
    one of the query, the base URL, the audio URL of the track): one to
    three requests with the default timeout, at most one read for each,
    sleeps of one and two seconds between the attempts, and no other
    session opened or closed.  The callback handler touches the network
    only when it hands a track to [send_track]. *)
Theorem handlers_close_sessions (U : Unicode) (html_parser : pystr -> Bs4.node)
    (DEFAULT_HEADERS : gmap pystr pystr) (message_text : option pystr)
    (track : Track) (callback_data : pystr) (b : bot) :
  (exists url,
     build_search_query U (Str.strip U (default [] message_text)) = Ok url
     /\ one_session DEFAULT_HEADERS (PStr url) (outside b)
          (outside (snd (search_handler U html_parser DEFAULT_HEADERS message_text b))))
  /\ one_session DEFAULT_HEADERS (PStr (pys "https://" ++ BASE_URL)) (outside b)
       (outside (snd (top_hits_handler U html_parser DEFAULT_HEADERS b)))
  /\ one_session DEFAULT_HEADERS (audio_url track) (outside b)
       (outside (snd (send_track DEFAULT_HEADERS track b)))
  /\ match track_callback_handler U (history b) callback_data with
     | SendTrack chosen =>
         one_session DEFAULT_HEADERS (audio_url chosen) (outside b)
           (outside (snd (track_callback_task U DEFAULT_HEADERS callback_data b)))
     | _ =>
         outside (snd (track_callback_task U DEFAULT_HEADERS callback_data b)) = outside b
     end.
Proof.
  split.
  { destruct (build_search_query_total U (Str.strip U (default [] message_text)))
      as [url Hurl].
    exists url. split; [exact Hurl|by apply search_handler_one_session]. }
  split; [apply top_hits_handler_one_session|].
  split; [apply send_track_one_session|].
  unfold track_callback_task.
  destruct (track_callback_handler U (history b) callback_data) as [|t| |e];
    cbv [try_except task_bind task_ret task_raise transport];
    cbn [outside delivery calls outbox history fst snd].
  - destruct (delivery b (calls b)); cbn [outside delivery calls outbox history fst snd];
      [destruct (delivery b (S (calls b)))|]; reflexivity.
  - destruct (delivery b (calls b)); cbn [outside delivery calls outbox history fst snd].
    + destruct (delivery b (S (calls b))); apply one_session_refl.
    + match goal with
      | |- context [send_track DEFAULT_HEADERS t ?b1] =>
          pose proof (send_track_one_session DEFAULT_HEADERS t b1) as H;
          pose proof (transport_keeps (CallbackAnswer Text.error)
                        (snd (send_track DEFAULT_HEADERS t b1))) as (Hk & _);
          destruct (send_track DEFAULT_HEADERS t b1) as [[[]|e] b2]
      end; cbn [outside snd] in *; [exact H|].
      unfold transport in Hk. by rewrite Hk.
  - reflexivity.
  - destruct (delivery b (calls b)); reflexivity.
Qed.

(** X28.  [search_handler] on a message without text does nothing; on a
    text with fewer than two characters after trimming it only sends the
    "too short" answer: no session is opened, no request made, the history
    is left alone, and, this answer being outside the [try], an exception
    of the transport leaves the handler. *)
Theorem search_handler_too_short (U : Unicode) (html_parser : pystr -> Bs4.node)
    (DEFAULT_HEADERS : gmap pystr pystr) (text : pystr) (b : bot) :
  search_handler U html_parser DEFAULT_HEADERS None b = (Ok tt, b)
  /\ search_handler U html_parser DEFAULT_HEADERS (Some []) b = (Ok tt, b)
  /\ (text <> [] -> (length (Str.strip U text) < 2)%nat ->
      let '(r, b') := search_handler U html_parser DEFAULT_HEADERS (Some text) b in
      outside b' = outside b /\ history b' = history b /\ calls b' = S (calls b)
      /\ match delivery b (calls b) with
         | None => r = Ok tt /\ outbox b' = outbox b ++ [Answer Text.too_short None]
         | Some e => r = Err e /\ outbox b' = outbox b
         end).
Proof.
  split; [reflexivity|]. split; [reflexivity|]. intros Ht Hlen.
  unfold search_handler. destruct text as [|c text]; [done|].
  apply Nat.ltb_lt in Hlen. rewrite Hlen. unfold transport.
  by destruct (delivery b (calls b)).
Qed.

Lemma search_handler_too_short_witness :
  search_handler ascii_only reads_two_items ∅ (Some (pys "  a ")) (bot_at refusing ∅)
  = (Ok tt,
     {| outside := refusing; delivery := delivers; calls := 1;
        outbox := [Answer Text.too_short None]; history := ∅ |}).
Proof.
  destruct (search_handler_too_short ascii_only reads_two_items ∅ (pys "  a ")
              (bot_at refusing ∅)) as (_ & _ & H).
  specialize (H ltac:(done) ltac:(vm_compute; lia)).
  destruct (search_handler ascii_only reads_two_items ∅ (Some (pys "  a "))
              (bot_at refusing ∅)) as [r [w d c o h]] eqn:E.
  vm_compute in E. by injection E as <- <- <- <- <- <-.
Defined.

(** X29.  [search_handler] with a transport that delivers: for a text of
    two characters or more after trimming it never raises and answers
    twice, first that it is searching, then with the outcome of the search
    in one scoped session: the tracks found, with the keyboard of the key
    they were filed under; "nothing found" for an empty list; the error
    text when the search raised.  Only tracks found change the history. *)
Theorem search_handler_outcome (U : Unicode) (html_parser : pystr -> Bs4.node)
    (DEFAULT_HEADERS : gmap pystr pystr) (text : pystr) (b : bot) :
  (forall n, delivery b n = None) ->
  (2 <= length (Str.strip U text))%nat ->
  let query := Str.strip U text in
  let '(r, w') :=
    async_with (Music_init DEFAULT_HEADERS None)
      (fun music => search U html_parser music query) (outside b) in
  let '(second, search_history') :=
    match r with
    | Ok [] => (Answer Text.nothing_found None, history b)
    | Ok tracks =>
        (Answer (Text.found ++ PyInt.str (Z.of_nat (length tracks))
                   ++ Text.tracks_for_query ++ query)
                (Some (snd (save_results (history b) tracks))),
         fst (save_results (history b) tracks))
    | Err _ => (Answer Text.search_error None, history b)
    end in
  search_handler U html_parser DEFAULT_HEADERS (Some text) b
  = (Ok tt,
     {| outside := w'; delivery := delivery b; calls := S (S (calls b));
        outbox := outbox b ++ [Answer (Text.searching ++ query ++ pys "...") None; second];
        history := search_history' |}).
Proof.
  intros Hd Hlen. unfold search_handler.
  destruct text as [|c text]; [exfalso; cbv in Hlen; lia|].
  set (query := Str.strip U (c :: text)) in *. cbv zeta.
  destruct (Nat.ltb_spec (length query) 2); [lia|].
  cbv [try_except task_bind task_ret task_raise transport network file_results].
  cbn [outside delivery calls outbox history fst snd]. rewrite !Hd.
  cbn [outside delivery calls outbox history fst snd].
  destruct (async_with _ _ (outside b)) as [[[|t tracks]|e] w'];
    cbn [outside delivery calls outbox history fst snd]; rewrite ?Hd;
    cbn [outside delivery calls outbox history fst snd].
  - by rewrite <- app_assoc.
  - destruct (save_results (history b) (t :: tracks)) as [h kb].
    cbn [outside delivery calls outbox history fst snd]. rewrite Hd.
    by rewrite <- app_assoc.
  - by rewrite <- app_assoc.
Qed.

Lemma search_handler_outcome_witness :
  let '(r, b') :=
    search_handler ascii_only reads_two_items ∅ (Some (pys " Daft Punk "))
      (bot_at (serving ok_page) ∅) in
  r = Ok tt /\ calls b' = 2%nat /\ length (outbox b') = 2%nat
  /\ exists tracks, history b' !! 0%Z = Some tracks /\ length tracks = 2%nat.
Proof.
  pose proof (search_handler_outcome ascii_only reads_two_items ∅ (pys " Daft Punk ")
                (bot_at (serving ok_page) ∅) (fun _ => eq_refl)
                ltac:(vm_compute; lia)) as H.
  cbv zeta in H.
  destruct (async_with _ _ (outside (bot_at (serving ok_page) ∅)))
    as [[[|t [|t' [|t'' ts]]]|e] w'] eqn:E; try (by vm_compute in E).
  rewrite H. repeat split.
  exists [t; t']. split; [|reflexivity].
  unfold save_results. cbn [fst history bot_at]. apply lookup_insert_eq.
Defined.

(** X30.  [send_track] delivers at most one thing: the audio, named after
    the track with ".mp3", with the title and the performer cut to their
    first 64 characters and the downloaded bytes as content, or else the
    "could not load the track" text; it never raises with a transport that
    delivers, and it leaves the history alone. *)
Theorem send_track_delivery (DEFAULT_HEADERS : gmap pystr pystr) (track : Track) (b : bot) :
  let '(r, b') := send_track DEFAULT_HEADERS track b in
  history b' = history b
  /\ ((forall n, delivery b n = None) -> r = Ok tt)
  /\ exists new,
       outbox b' = outbox b ++ new
       /\ (length new <= 1)%nat
       /\ forall s, In s new ->
            s = Answer Text.track_error None
            \/ exists content title_ performer_,
                 fst (async_with (Music_init DEFAULT_HEADERS None)
                        (fun music => get_audio_bytes music track) (outside b))
                   = Ok content
                 /\ title track = PStr title_ /\ performer track = PStr performer_
                 /\ s = AnswerAudio (Py.str (name track) ++ pys ".mp3") content
                          (take 64 title_) (take 64 performer_)
                          (Text.note ++ Py.str (name track))
                 /\ (length (take 64 title_) <= 64)%nat
                 /\ (length (take 64 performer_) <= 64)%nat.
Proof.
  unfold send_track.
  cbv [try_except task_bind task_ret task_raise transport network].
  cbn [outside delivery calls outbox history fst snd].
  destruct (async_with _ _ (outside b)) as [[audio|e] w'];
    cbn [outside delivery calls outbox history fst snd].
  - destruct (title track) as [| | |ti] eqn:Et; cbn [slice_field];
      try destruct (performer track) as [| | |pe] eqn:Ep; cbn [slice_field];
      cbv [task_raise transport]; cbn [outside delivery calls outbox history fst snd];
      destruct (delivery b (calls b)) as [e0|] eqn:Ed;
      cbn [outside delivery calls outbox history fst snd];
      try (destruct (delivery b (S (calls b))) as [e1|] eqn:Ed1;
           cbn [outside delivery calls outbox history fst snd]);
      (split; [reflexivity|]);
      (split; [intros Hd; rewrite ?Hd in *; congruence|]);
      first [ exists []; split; [by rewrite app_nil_r|]; split; [simpl; lia|done]
            | eexists [_]; split; [reflexivity|]; split; [simpl; lia|];
              intros s [<-|[]]; first [by left | right; exists audio, ti, pe;
                repeat split; rewrite ?length_take; lia] ].
  - destruct (delivery b (calls b)) as [e0|] eqn:Ed;
      cbn [outside delivery calls outbox history fst snd];
      (split; [reflexivity|]);
      (split; [intros Hd; rewrite ?Hd in *; congruence|]).
    + exists []. split; [by rewrite app_nil_r|]. split; [simpl; lia|done].
    + eexists [_]. split; [reflexivity|]. split; [simpl; lia|].
      intros s [<-|[]]. by left.
Qed.

Lemma send_track_delivery_witness :
  let '(r, b') := send_track ∅ sample_track (bot_at (serving (audio None)) ∅) in
  r = Ok tt
  /\ outbox b'
     = [AnswerAudio (pys "Daft Punk - Around the World.mp3") (pys "ID3 audio")
          (pys "Around the World") (pys "Daft Punk")
          (Text.note ++ pys "Daft Punk - Around the World")].
Proof.
  pose proof (send_track_delivery ∅ sample_track (bot_at (serving (audio None)) ∅)) as H.
  destruct (send_track ∅ sample_track (bot_at (serving (audio None)) ∅)) as [r b'] eqn:E.
  destruct H as (_ & Hr & _). split; [by apply Hr|].
  vm_compute in E. by injection E as <- <-.
Defined.
